(** * spotify-shuffle: cache reconciliation, sampling and playlist replacement

    A shallow embedding of [get_liked_songs.py] and [update_true_shuffle.py]
    (with the copies of the playlist helpers in [src/utils.py], which are
    the same code).  Python values of JSON shape are a data type, exceptions
    are an error monad over an explicit world (cache file, remote service,
    request log, standard output, random tape), and the functions of the
    Python standard library the scripts call ([json], [datetime]) are an
    interface with one executable reference instance. *)

From Stdlib Require Import List String Ascii ZArith Lia Bool Arith Permutation.
Import ListNotations.

Local Open Scope list_scope.
Set Warnings "-register-all".

(** ** Python values *)

(** What [json.load] produces and what the Spotify client returns: [None],
    booleans, integers, strings, lists and dicts with string keys.  A dict
    keeps its insertion order, so it is an association list. *)
Inductive value : Type :=
| VNone
| VBool (b : bool)
| VInt (z : Z)
| VStr (s : string)
| VList (l : list value)
| VDict (kv : list (string * value)).

(** The exception classes the scripts raise, catch or let through.  All of
    them derive from [Exception]; [JSONDecodeError] derives from
    [ValueError]. *)
Inductive exn : Type :=
| KeyError (key : string)
| TypeError
| AttributeError
| ValueError
| JSONDecodeError
| SpotifyException (http_status : Z)
| ConnectionError.

Definition is_KeyError (e : exn) : bool :=
  match e with KeyError _ => true | _ => false end.

Definition is_ValueError (e : exn) : bool :=
  match e with ValueError | JSONDecodeError => true | _ => false end.

Definition is_AttributeError (e : exn) : bool :=
  match e with AttributeError => true | _ => false end.

Definition is_JSONDecodeError (e : exn) : bool :=
  match e with JSONDecodeError => true | _ => false end.

Inductive result (A : Type) : Type :=
| Ok (a : A)
| Raise (e : exn).

Arguments Ok {A} a.
Arguments Raise {A} e.

(** *** Operations on values, with the exception Python raises *)

Fixpoint lookup (k : string) (kv : list (string * value)) : option value :=
  match kv with
  | [] => None
  | (k', v) :: rest => if String.eqb k k' then Some v else lookup k rest
  end.

(** [d[k] = v] on a dict: replaces the value of an existing key in place,
    appends a new key. *)
Fixpoint assign (k : string) (v : value) (kv : list (string * value))
  : list (string * value) :=
  match kv with
  | [] => [(k, v)]
  | (k', v') :: rest =>
      if String.eqb k k' then (k', v) :: rest else (k', v') :: assign k v rest
  end.

(** [v[k]] with a string subscript. *)
Definition subscript (v : value) (k : string) : result value :=
  match v with
  | VDict kv => match lookup k kv with Some x => Ok x | None => Raise (KeyError k) end
  | _ => Raise TypeError
  end.

(** [v.get(k, default)]. *)
Definition py_get (v : value) (k : string) (default : value) : result value :=
  match v with
  | VDict kv => Ok (match lookup k kv with Some x => x | None => default end)
  | _ => Raise AttributeError
  end.

(** [len(v)]. *)
Definition py_len (v : value) : result Z :=
  match v with
  | VStr s => Ok (Z.of_nat (String.length s))
  | VList l => Ok (Z.of_nat (List.length l))
  | VDict kv => Ok (Z.of_nat (List.length kv))
  | _ => Raise TypeError
  end.

(** Truth value of [v] in a condition. *)
Definition truthy (v : value) : bool :=
  match v with
  | VNone => false
  | VBool b => b
  | VInt z => negb (Z.eqb z 0)
  | VStr s => negb (String.eqb s EmptyString)
  | VList l => match l with [] => false | _ => true end
  | VDict kv => match kv with [] => false | _ => true end
  end.

Definition is_str (c : ascii) (v : value) : bool :=
  match v with
  | VStr (String c' EmptyString) => Ascii.eqb c c'
  | _ => false
  end.

Fixpoint str_contains (c : ascii) (s : string) : bool :=
  match s with
  | EmptyString => false
  | String c' rest => Ascii.eqb c c' || str_contains c rest
  end.

Fixpoint str_count (c : ascii) (s : string) : Z :=
  match s with
  | EmptyString => 0
  | String c' rest => ((if Ascii.eqb c c' then 1 else 0) + str_count c rest)%Z
  end.

Fixpoint str_replace (c : ascii) (by_ : string) (s : string) : string :=
  match s with
  | EmptyString => EmptyString
  | String c' rest =>
      if Ascii.eqb c c' then (by_ ++ str_replace c by_ rest)%string
      else String c' (str_replace c by_ rest)
  end.

(** [c in v] for a one-character string [c]. *)
Definition py_in (c : ascii) (v : value) : result bool :=
  match v with
  | VStr s => Ok (str_contains c s)
  | VList l => Ok (existsb (is_str c) l)
  | VDict kv => Ok (existsb (fun p => String.eqb (String c EmptyString) (fst p)) kv)
  | _ => Raise TypeError
  end.

(** [v.count(c)]. *)
Definition py_count (c : ascii) (v : value) : result Z :=
  match v with
  | VStr s => Ok (str_count c s)
  | VList l => Ok (Z.of_nat (List.length (filter (is_str c) l)))
  | _ => Raise AttributeError
  end.

(** [v.replace(c, by_)]. *)
Definition py_replace (c : ascii) (by_ : string) (v : value) : result value :=
  match v with
  | VStr s => Ok (VStr (str_replace c by_ s))
  | _ => Raise AttributeError
  end.

(** [v != b] for a Python bool [b]; [True == 1] and [False == 0] hold. *)
Definition differs_from_bool (v : value) (b : bool) : bool :=
  match v with
  | VBool x => negb (Bool.eqb x b)
  | VInt z => negb (Z.eqb z (Z.b2z b))
  | _ => true
  end.

(** The elements of a sequence: a list's items, a string's characters. *)
Definition elements (v : value) : result (list value) :=
  match v with
  | VList l => Ok l
  | VStr s => Ok (map (fun c => VStr (String c EmptyString)) (list_ascii_of_string s))
  | _ => Raise TypeError
  end.

(** ** Dates *)

(** A [datetime]: the wall-clock reading in microseconds since
    1970-01-01T00:00:00 and, when aware, its UTC offset in microseconds. *)
Record datetime : Type := {
  wall : Z;
  tzinfo : option Z
}.

(** [dt.replace(tzinfo=timezone.utc)]. *)
Definition replace_tzinfo_utc (dt : datetime) : datetime :=
  {| wall := wall dt; tzinfo := Some 0%Z |}.

(** [a > b]: aware datetimes compare by instant, naive ones by wall clock,
    and a naive one does not compare with an aware one. *)
Definition datetime_gt (a b : datetime) : result bool :=
  match tzinfo a, tzinfo b with
  | Some oa, Some ob => Ok (Z.gtb (wall a - oa) (wall b - ob))
  | None, None => Ok (Z.gtb (wall a) (wall b))
  | _, _ => Raise TypeError
  end.

(** ** The standard library the scripts call *)

Class PyLib : Type := {
  (** [datetime.fromisoformat] on a string; [None] stands for [ValueError]. *)
  fromisoformat : string -> option datetime;
  (** [json.load] on the text of a file; [None] stands for
      [json.JSONDecodeError]. *)
  json_load : string -> option value;
  (** [json.dump(obj, f, indent=2, ensure_ascii=False)]: the text written. *)
  json_dump : value -> string
}.

(** ** The world the scripts run in *)

(** One page of a paginated listing.  With the remote collection fixed for
    the length of a pass, the [next] link of a page determines the pages it
    leads to; [page_next = []] is [results['next']] being [None]. *)
Record page : Type := {
  page_items : list value;
  page_next : list (list value)
}.

(** A playlist of the remote service: the fields of its playlist object and
    its member items. *)
Record playlist : Type := {
  pl_info : list (string * value);
  pl_members : list value
}.

(** The requests the Spotify client sends. *)
Inductive request : Type :=
| CurrentUserSavedTracks (limit : nat)
| NextPage
| GetPlaylist (playlist_id : value)
| PlaylistChangeDetails (playlist_id : value) (public : option bool)
    (description : option string)
| CurrentUser
| UserPlaylistCreate (user : value) (name : string) (public : bool)
    (description : string)
| PlaylistItems (playlist_id : value) (limit : nat)
| PlaylistRemoveAllOccurrencesOfItems (playlist_id : value) (uris : list value)
| PlaylistAddItems (playlist_id : value) (uris : list value).

(** A piece of a printed line: an f-string is kept as its literal text and
    the values interpolated into it. *)
Inductive piece : Type :=
| Lit (s : string)
| Num (z : Z)
| Val (v : value)
| Exc (e : exn).

Record world : Type := {
  (** the text of [liked_songs_cache.json]; [None] when the file does not
      exist *)
  disk : option string;
  (** [datetime.now(timezone.utc).isoformat()] *)
  now : string;
  (** the user's saved tracks on the remote service *)
  liked : list value;
  (** the remote playlists, by ID *)
  playlists : list (string * playlist);
  (** the ID of the authenticated user *)
  user_id : string;
  (** the IDs the service gives to the playlists it creates next *)
  new_ids : list string;
  (** the transport: one entry per request still to come, [Some e] when
      that request fails with [e]; past the end every request goes
      through *)
  faults : list (option exn);
  (** the requests sent so far, oldest first *)
  calls : list request;
  (** the lines printed so far, oldest first *)
  stdout : list (list piece);
  (** the numbers the random generator draws next *)
  tape : list nat
}.

Definition set_disk (d : option string) (w : world) : world :=
  {| disk := d; now := now w; liked := liked w; playlists := playlists w;
     user_id := user_id w; new_ids := new_ids w; faults := faults w;
     calls := calls w; stdout := stdout w; tape := tape w |}.

Definition set_playlists (ps : list (string * playlist)) (w : world) : world :=
  {| disk := disk w; now := now w; liked := liked w; playlists := ps;
     user_id := user_id w; new_ids := new_ids w; faults := faults w;
     calls := calls w; stdout := stdout w; tape := tape w |}.

Definition set_new_ids (ids : list string) (w : world) : world :=
  {| disk := disk w; now := now w; liked := liked w; playlists := playlists w;
     user_id := user_id w; new_ids := ids; faults := faults w;
     calls := calls w; stdout := stdout w; tape := tape w |}.

Definition set_faults (fs : list (option exn)) (w : world) : world :=
  {| disk := disk w; now := now w; liked := liked w; playlists := playlists w;
     user_id := user_id w; new_ids := new_ids w; faults := fs;
     calls := calls w; stdout := stdout w; tape := tape w |}.

Definition set_calls (cs : list request) (w : world) : world :=
  {| disk := disk w; now := now w; liked := liked w; playlists := playlists w;
     user_id := user_id w; new_ids := new_ids w; faults := faults w;
     calls := cs; stdout := stdout w; tape := tape w |}.

Definition set_stdout (out : list (list piece)) (w : world) : world :=
  {| disk := disk w; now := now w; liked := liked w; playlists := playlists w;
     user_id := user_id w; new_ids := new_ids w; faults := faults w;
     calls := calls w; stdout := out; tape := tape w |}.

Definition set_tape (t : list nat) (w : world) : world :=
  {| disk := disk w; now := now w; liked := liked w; playlists := playlists w;
     user_id := user_id w; new_ids := new_ids w; faults := faults w;
     calls := calls w; stdout := stdout w; tape := t |}.

(** ** Computations: state and exceptions *)

Definition M (A : Type) : Type := world -> result A * world.

Definition ret {A : Type} (a : A) : M A := fun w => (Ok a, w).

Definition raise {A : Type} (e : exn) : M A := fun w => (Raise e, w).

Definition bind {A B : Type} (m : M A) (k : A -> M B) : M B :=
  fun w =>
    match m w with
    | (Ok a, w') => k a w'
    | (Raise e, w') => (Raise e, w')
    end.

Declare Scope py_scope.
Delimit Scope py_scope with py.
Notation "x <- m ;; k" := (bind m (fun x => k))
  (at level 61, m at next level, right associativity) : py_scope.
Notation "m ;; k" := (bind m (fun _ => k))
  (at level 61, right associativity) : py_scope.
Local Open Scope py_scope.

(** A pure operation that may raise, run as a computation. *)
Definition lift {A : Type} (r : result A) : M A := fun w => (r, w).

(** [try: body  except (classes): handler]: the handler runs in the world
    the body left behind, for the exceptions [catches] accepts. *)
Definition try_except {A : Type} (body : M A) (catches : exn -> bool)
    (handler : exn -> M A) : M A :=
  fun w =>
    match body w with
    | (Ok a, w') => (Ok a, w')
    | (Raise e, w') => if catches e then handler e w' else (Raise e, w')
    end.

Definition print (line : list piece) : M unit :=
  fun w => (Ok tt, set_stdout (stdout w ++ [line]) w).

(** [for x in xs: body x]. *)
Fixpoint for_each {A : Type} (xs : list A) (body : A -> M unit) : M unit :=
  match xs with
  | [] => ret tt
  | x :: rest => body x ;; for_each rest body
  end.

(** ** Slices, ranges and pages *)

(** [l[i:j]] for [0 <= i <= j]. *)
Definition slice {A : Type} (l : list A) (i j : nat) : list A :=
  firstn (j - i) (skipn i l).

(** [range(start, stop, step)] for a positive step; [fuel] bounds the
    number of elements. *)
Fixpoint range_from (fuel start stop step : nat) : list nat :=
  match fuel with
  | O => []
  | S fuel' =>
      if start <? stop then start :: range_from fuel' (start + step) stop step
      else []
  end.

Definition py_range (start stop step : nat) : list nat :=
  range_from stop start stop step.

(** The pages of a listing of [l] with [limit] items per page. *)
Fixpoint pages_from (fuel limit : nat) (l : list value) : list (list value) :=
  match fuel with
  | O => []
  | S fuel' =>
      match l with
      | [] => []
      | _ :: _ => firstn limit l :: pages_from fuel' limit (skipn limit l)
      end
  end.

Definition pages (limit : nat) (l : list value) : list (list value) :=
  pages_from (List.length l) limit l.

(** The first page of a listing: an empty collection still has one page. *)
Definition first_page (limit : nat) (l : list value) : page :=
  match pages limit l with
  | [] => {| page_items := []; page_next := [] |}
  | p :: rest => {| page_items := p; page_next := rest |}
  end.

(** Pure operations chain in [result]. *)
Definition bindr {A B : Type} (r : result A) (k : A -> result B) : result B :=
  match r with
  | Ok a => k a
  | Raise e => Raise e
  end.

Notation "x <~ r ;; k" := (bindr r (fun x => k))
  (at level 61, r at next level, right associativity) : py_scope.

(** [[f(x) for x in xs]]: the first exception ends the comprehension. *)
Fixpoint comprehension {A B : Type} (f : A -> result B) (xs : list A)
  : result (list B) :=
  match xs with
  | [] => Ok []
  | x :: rest => y <~ f x ;; ys <~ comprehension f rest ;; Ok (y :: ys)
  end.

(** ** The Spotify client *)

(** One request: it is logged, then the transport lets it through or fails
    it, and the service answers the ones that got through. *)
Definition send {A : Type} (rq : request) (serve : M A) : M A :=
  fun w =>
    let w1 := set_calls (calls w ++ [rq]) w in
    match faults w1 with
    | Some e :: fs => (Raise e, set_faults fs w1)
    | None :: fs => serve (set_faults fs w1)
    | [] => serve w1
    end.

(** [get_spotify_client()]: building the client sends nothing; the handle
    [sp] is the world itself. *)
Definition get_spotify_client : M unit := ret tt.

(** [sp.current_user_saved_tracks(limit=limit)]. *)
Definition current_user_saved_tracks (limit : nat) : M page :=
  send (CurrentUserSavedTracks limit) (fun w => (Ok (first_page limit (liked w)), w)).

(** [sp.next(results)] where [results['next']] leads to the pages
    [p :: rest]: one request, answered with the page [p]. *)
Definition sp_next (p : list value) (rest : list (list value)) : M page :=
  send NextPage (ret {| page_items := p; page_next := rest |}).

(** [while results['next']: results = sp.next(results);
    tracks.extend(results['items'])], from the link [nxt] of the current
    page. *)
Fixpoint extend_while_next (nxt : list (list value)) (tracks : list value)
  : M (list value) :=
  match nxt with
  | [] => ret tracks
  | p :: rest =>
      results <- sp_next p rest ;;
      extend_while_next rest (tracks ++ page_items results)
  end.

Fixpoint find_playlist (id : string) (ps : list (string * playlist))
  : option playlist :=
  match ps with
  | [] => None
  | (id', p) :: rest => if String.eqb id id' then Some p else find_playlist id rest
  end.

Definition playlist_of (playlist_id : value) (w : world) : option playlist :=
  match playlist_id with
  | VStr id => find_playlist id (playlists w)
  | _ => None
  end.

Fixpoint update_playlist (id : string) (f : playlist -> playlist)
    (ps : list (string * playlist)) : list (string * playlist) :=
  match ps with
  | [] => []
  | (id', p) :: rest =>
      if String.eqb id id' then (id', f p) :: rest
      else (id', p) :: update_playlist id f rest
  end.

(** A request about the playlist [playlist_id]: 404 when there is none. *)
Definition on_playlist {A : Type} (playlist_id : value)
    (answer : string -> playlist -> M A) : M A :=
  fun w =>
    match playlist_id with
    | VStr id =>
        match find_playlist id (playlists w) with
        | Some p => answer id p w
        | None => (Raise (SpotifyException 404), w)
        end
    | _ => (Raise (SpotifyException 404), w)
    end.

Definition modify_playlist (id : string) (f : playlist -> playlist) : M unit :=
  fun w => (Ok tt, set_playlists (update_playlist id f (playlists w)) w).

(** [sp.playlist(playlist_id)]. *)
Definition sp_playlist (playlist_id : value) : M value :=
  send (GetPlaylist playlist_id)
       (on_playlist playlist_id (fun _ p => ret (VDict (pl_info p)))).

Definition change_details (public : option bool) (description : option string)
    (p : playlist) : playlist :=
  let info1 := match public with
               | Some b => assign "public" (VBool b) (pl_info p)
               | None => pl_info p
               end in
  let info2 := match description with
               | Some d => assign "description" (VStr d) info1
               | None => info1
               end in
  {| pl_info := info2; pl_members := pl_members p |}.

(** [sp.playlist_change_details(playlist_id, public=..., description=...)]. *)
Definition playlist_change_details (playlist_id : value) (public : option bool)
    (description : option string) : M unit :=
  send (PlaylistChangeDetails playlist_id public description)
       (on_playlist playlist_id
          (fun id _ => modify_playlist id (change_details public description))).

(** [sp.current_user()]. *)
Definition current_user : M value :=
  send CurrentUser (fun w => (Ok (VDict [("id"%string, VStr (user_id w))]), w)).

Definition playlist_url (id : string) : string :=
  ("https://open.spotify.com/playlist/" ++ id)%string.

Definition new_playlist_info (id : string) (name : string) (public : bool)
    (description : string) : list (string * value) :=
  [("id"%string, VStr id);
   ("name"%string, VStr name);
   ("description"%string, VStr description);
   ("public"%string, VBool public);
   ("external_urls"%string, VDict [("spotify"%string, VStr (playlist_url id))])].

(** [sp.user_playlist_create(user=..., name=..., public=..., description=...)]:
    the service creates an empty playlist under a new ID and answers with
    its playlist object. *)
Definition user_playlist_create (user : value) (name : string) (public : bool)
    (description : string) : M value :=
  send (UserPlaylistCreate user name public description)
       (fun w =>
          let id := hd "new"%string (new_ids w) in
          let info := new_playlist_info id name public description in
          let p := {| pl_info := info; pl_members := [] |} in
          (Ok (VDict info),
           set_new_ids (tl (new_ids w)) (set_playlists (playlists w ++ [(id, p)]) w))).

(** [sp.playlist_items(playlist_id, limit=limit)]. *)
Definition playlist_items (playlist_id : value) (limit : nat) : M page :=
  send (PlaylistItems playlist_id limit)
       (on_playlist playlist_id (fun _ p => ret (first_page limit (pl_members p)))).

(** The URI of a member item, when it has a track with one. *)
Definition member_uri (item : value) : option value :=
  match subscript item "track" with
  | Ok t => match subscript t "uri" with Ok u => Some u | Raise _ => None end
  | Raise _ => None
  end.

Definition value_is_str (s : string) (v : value) : bool :=
  match v with VStr s' => String.eqb s s' | _ => false end.

Definition uri_in (uris : list value) (item : value) : bool :=
  match member_uri item with
  | Some (VStr u) => existsb (value_is_str u) uris
  | _ => false
  end.

(** The service takes at most 100 URIs in one request. *)
Definition batch_ceiling : nat := 100.

(** [sp.playlist_remove_all_occurrences_of_items(playlist_id, uris)]. *)
Definition playlist_remove_all_occurrences_of_items (playlist_id : value)
    (uris : list value) : M unit :=
  send (PlaylistRemoveAllOccurrencesOfItems playlist_id uris)
       (if batch_ceiling <? List.length uris then raise (SpotifyException 400)
        else on_playlist playlist_id
               (fun id _ =>
                  modify_playlist id
                    (fun p => {| pl_info := pl_info p;
                                 pl_members :=
                                   filter (fun it => negb (uri_in uris it))
                                          (pl_members p) |}))).

Definition new_member (added_at : string) (uri : value) : value :=
  VDict [("added_at"%string, VStr added_at);
         ("track"%string, VDict [("uri"%string, uri)])].

(** [sp.playlist_add_items(playlist_id, uris)]. *)
Definition playlist_add_items (playlist_id : value) (uris : list value) : M unit :=
  send (PlaylistAddItems playlist_id uris)
       (if batch_ceiling <? List.length uris then raise (SpotifyException 400)
        else fun w =>
               on_playlist playlist_id
                 (fun id _ =>
                    modify_playlist id
                      (fun p => {| pl_info := pl_info p;
                                   pl_members :=
                                     pl_members p ++ map (new_member (now w)) uris |}))
                 w).

(** ** get_liked_songs.py *)

Section GetLikedSongs.

Context {lib : PyLib}.

Local Open Scope string_scope.

(** [datetime.fromisoformat(v)]: [TypeError] unless [v] is a string. *)
Definition datetime_fromisoformat (v : value) : result datetime :=
  match v with
  | VStr s => match fromisoformat s with
              | Some dt => Ok dt
              | None => Raise ValueError
              end
  | _ => Raise TypeError
  end.

(** [if dt.tzinfo is None: dt = dt.replace(tzinfo=timezone.utc)]. *)
Definition ensure_aware (dt : datetime) : datetime :=
  match tzinfo dt with
  | None => replace_tzinfo_utc dt
  | Some _ => dt
  end.

(** The snapshot [save_liked_songs_to_disk] builds. *)
Definition cache_data (timestamp : string) (tracks : list value) : value :=
  VDict [("timestamp", VStr timestamp);
         ("total_count", VInt (Z.of_nat (List.length tracks)));
         ("tracks", VList tracks)].

Definition save_liked_songs_to_disk (tracks : list value) : M unit :=
  fun w =>
    let cache := cache_data (now w) tracks in
    print [Lit "Saved "; Num (Z.of_nat (List.length tracks));
           Lit " liked songs to liked_songs_cache.json"]
          (set_disk (Some (json_dump cache)) w).

(** Returns the pair [(tracks, timestamp)]. *)
Definition load_liked_songs_from_disk : M (value * value) :=
  fun w =>
    match disk w with
    | None => (Ok (VNone, VNone), w)
    | Some text =>
        try_except
          (cache <- lift (match json_load text with
                          | Some v => Ok v
                          | None => Raise JSONDecodeError
                          end) ;;
           tracks <- lift (py_get cache "tracks" (VList [])) ;;
           timestamp <- lift (py_get cache "timestamp" (VStr EmptyString)) ;;
           ret (tracks, timestamp))
          (fun e => is_JSONDecodeError e || is_KeyError e)
          (fun e =>
             print [Lit "Error reading cache file: "; Exc e] ;;
             ret (VNone, VNone))
          w
    end.

(** The body of the first [try] of [get_new_liked_songs_since]: the cache
    timestamp as an aware datetime. *)
Definition parse_since (since_timestamp : value) : result datetime :=
  z <~ py_in "Z" since_timestamp ;;
  has_tz <~ (if z then Ok true
             else p <~ py_in "+" since_timestamp ;;
                  if p then Ok true
                  else n <~ py_count "-" since_timestamp ;; Ok (2 <? n)%Z) ;;
  since_dt <~ (if has_tz
               then s <~ py_replace "Z" "+00:00" since_timestamp ;;
                    datetime_fromisoformat s
               else dt <~ datetime_fromisoformat since_timestamp ;;
                    Ok (replace_tzinfo_utc dt)) ;;
  Ok (ensure_aware since_dt).

(** The body of the [try] inside the loop: whether [item] is appended to
    [new_tracks]. *)
Definition added_after (since_dt : datetime) (item : value) : result bool :=
  added_at_str <~ subscript item "added_at" ;;
  z <~ py_in "Z" added_at_str ;;
  added_at <~ (if z
               then s <~ py_replace "Z" "+00:00" added_at_str ;;
                    datetime_fromisoformat s
               else
                 p <~ py_in "+" added_at_str ;;
                 has_tz <~ (if p then Ok true
                            else n <~ py_count "-" added_at_str ;; Ok (2 <? n)%Z) ;;
                 if has_tz then datetime_fromisoformat added_at_str
                 else dt <~ datetime_fromisoformat added_at_str ;;
                      Ok (replace_tzinfo_utc dt)) ;;
  datetime_gt (ensure_aware added_at) since_dt.

(** [for item in all_tracks: try: ... except (ValueError, KeyError):
    continue], with [new_tracks] as built so far. *)
Fixpoint filter_new_tracks (since_dt : datetime) (all_tracks new_tracks : list value)
  : result (list value) :=
  match all_tracks with
  | [] => Ok new_tracks
  | item :: rest =>
      match added_after since_dt item with
      | Ok true => filter_new_tracks since_dt rest (new_tracks ++ [item])
      | Ok false => filter_new_tracks since_dt rest new_tracks
      | Raise e =>
          if is_ValueError e || is_KeyError e
          then filter_new_tracks since_dt rest new_tracks
          else Raise e
      end
  end.

(** Returns [Some new_tracks], or [None] for Python's [None]. *)
Definition get_new_liked_songs_since (since_timestamp : value)
  : M (option (list value)) :=
  match since_timestamp with
  | VNone => ret None
  | _ =>
      results <- current_user_saved_tracks 50 ;;
      all_tracks <- extend_while_next (page_next results) (page_items results) ;;
      parsed <- try_except
                  (since_dt <- lift (parse_since since_timestamp) ;;
                   ret (Some since_dt))
                  (fun e => is_ValueError e || is_AttributeError e)
                  (fun e =>
                     print [Lit "Error parsing cache timestamp: "; Exc e] ;;
                     ret None) ;;
      match parsed with
      | None => ret None
      | Some since_dt =>
          new_tracks <- lift (filter_new_tracks since_dt all_tracks []) ;;
          ret (Some new_tracks)
      end
  end.

(** The tail of [get_liked_songs], from [# Fetch all liked songs from API]:
    every path that does not return the cached list ends here. *)
Definition fetch_all_liked_songs (save_to_disk : bool) : M value :=
  get_spotify_client ;;
  print [Lit "Fetching liked songs from Spotify API..."] ;;
  results <- current_user_saved_tracks 50 ;;
  tracks <- extend_while_next (page_next results) (page_items results) ;;
  (if save_to_disk then save_liked_songs_to_disk tracks else ret tt) ;;
  ret (VList tracks).

Definition get_liked_songs (save_to_disk use_cache : bool) : M value :=
  if use_cache then
    loaded <- load_liked_songs_from_disk ;;
    let cached_tracks := fst loaded in
    let cache_timestamp := snd loaded in
    match cached_tracks with
    | VNone => fetch_all_liked_songs save_to_disk
    | _ =>
        n <- lift (py_len cached_tracks) ;;
        print [Lit "Loaded "; Num n; Lit " liked songs from cache (saved at ";
               Val cache_timestamp; Lit ")"] ;;
        get_spotify_client ;;
        new_tracks <- get_new_liked_songs_since cache_timestamp ;;
        match new_tracks with
        | Some new_tracks =>
            if (0 <? List.length new_tracks)%nat then
              print [Lit "Found "; Num (Z.of_nat (List.length new_tracks));
                     Lit " new liked songs since cache. Updating cache..."] ;;
              fetch_all_liked_songs save_to_disk
            else
              print [Lit "No new liked songs since cache. Using cached data (no API calls needed)."] ;;
              ret cached_tracks
        | None =>
            print [Lit "Could not check for new songs. Fetching all liked songs..."] ;;
            fetch_all_liked_songs save_to_disk
        end
    end
  else fetch_all_liked_songs save_to_disk.

(** [[item['track']['uri'] for item in tracks]]. *)
Definition get_track_uris (tracks : list value) : result (list value) :=
  comprehension (fun item => t <~ subscript item "track" ;; subscript t "uri") tracks.

End GetLikedSongs.

(** ** random.sample *)

(** [pool[j] = x]. *)
Fixpoint set_nth {A : Type} (j : nat) (x : A) (l : list A) {struct l} : list A :=
  match l, j with
  | [], _ => []
  | _ :: t, O => x :: t
  | h :: t, S j' => h :: set_nth j' x t
  end.

(** [randbelow(m)] from a drawn number. *)
Definition randbelow (m : nat) (drawn : nat) : nat := drawn mod m.

(** The selection loop of [random.sample], in its variant that works on a
    copy of the population: with [m] items still in the pool,
    [j = randbelow(m); result[i] = pool[j]; pool[j] = pool[m - 1]] and the
    pool shrinks by its last place. *)
Fixpoint sample_loop {A : Type} (k : nat) (pool : list A) (t : list nat)
  : list A * list nat :=
  match k, pool with
  | S k', p0 :: _ =>
      let j := randbelow (List.length pool) (hd O t) in
      let picked := nth j pool p0 in
      let pool' := removelast (set_nth j (last pool p0) pool) in
      let (rest, t') := sample_loop k' pool' (tl t) in
      (picked :: rest, t')
  | _, _ => ([], t)
  end.

(** [random.sample(population, k)]: [TypeError] unless the population is a
    sequence, [ValueError] unless [0 <= k <= len(population)]. *)
Definition random_sample (population : value) (k : Z) : M (list value) :=
  fun w =>
    match elements population with
    | Raise e => (Raise e, w)
    | Ok pool =>
        if ((k <? 0) || (Z.of_nat (List.length pool) <? k))%Z
        then (Raise ValueError, w)
        else let (picked, t') := sample_loop (Z.to_nat k) pool (tape w) in
             (Ok picked, set_tape t' w)
    end.

(** ** update_true_shuffle.py *)

Section UpdateTrueShuffle.

Context {lib : PyLib}.

Local Open Scope string_scope.

(** The [try] of [get_or_create_playlist]: the playlist found by its ID,
    with its privacy brought to [public]. *)
Definition lookup_playlist (playlist_id : value) (playlist_name : string)
    (public : bool) : M value :=
  playlist <- sp_playlist playlist_id ;;
  print [Lit "Found playlist: "; Lit playlist_name] ;;
  current <- lift (py_get playlist "public" VNone) ;;
  playlist <- (if differs_from_bool current public then
                 print [Lit "Updating playlist privacy to ";
                        Lit (if public then "public" else "private");
                        Lit "..."] ;;
                 playlist_change_details playlist_id (Some public) None ;;
                 sp_playlist playlist_id
               else ret playlist) ;;
  print [Lit "Playlist ID: "; Val playlist_id] ;;
  url <- lift (urls <~ subscript playlist "external_urls" ;;
               subscript urls "spotify") ;;
  print [Lit "Playlist URL: "; Val url] ;;
  ret playlist.

(** The [except Exception as e] of [get_or_create_playlist]: a new
    playlist. *)
Definition create_playlist_instead (playlist_name : string) (description : string)
    (public : bool) (e : exn) : M value :=
  print [Lit "Playlist not found or error accessing it: "; Exc e] ;;
  print [Lit "Creating new playlist: "; Lit playlist_name; Lit "..."] ;;
  me <- current_user ;;
  user <- lift (subscript me "id") ;;
  playlist <- user_playlist_create user playlist_name public description ;;
  print [Lit "Created playlist: "; Lit playlist_name; Lit " (private: ";
         Val (VBool (negb public)); Lit ")"] ;;
  id <- lift (subscript playlist "id") ;;
  print [Lit "Playlist ID: "; Val id] ;;
  url <- lift (urls <~ subscript playlist "external_urls" ;;
               subscript urls "spotify") ;;
  print [Lit "Playlist URL: "; Val url] ;;
  id <- lift (subscript playlist "id") ;;
  print [Lit "Note: Update TRUE_SHUFFLE_PLAYLIST_ID in the script to: "; Val id] ;;
  ret playlist.

Definition get_or_create_playlist (playlist_id : value) (playlist_name : string)
    (description : string) (public : bool) : M value :=
  try_except (lookup_playlist playlist_id playlist_name public)
             (fun _ => true)
             (create_playlist_instead playlist_name description public).

(** [[item['track']['uri'] for item in tracks_to_remove
     if item['track'] and item['track']['uri']]]. *)
Fixpoint valid_track_uris (tracks_to_remove : list value) : result (list value) :=
  match tracks_to_remove with
  | [] => Ok []
  | item :: rest =>
      t <~ subscript item "track" ;;
      keep <~ (if truthy t then
                 t' <~ subscript item "track" ;;
                 u <~ subscript t' "uri" ;;
                 Ok (truthy u)
               else Ok false) ;;
      if keep then
        t' <~ subscript item "track" ;;
        u <~ subscript t' "uri" ;;
        us <~ valid_track_uris rest ;;
        Ok (u :: us)
      else valid_track_uris rest
  end.

(** [for i in range(0, len(uris), 100): batch = uris[i:i + 100];
    request(batch); after(i, batch)]. *)
Definition in_batches (uris : list value) (request : list value -> M unit)
    (after : nat -> list value -> M unit) : M unit :=
  for_each (py_range 0 (List.length uris) 100)
           (fun i =>
              let batch := slice uris i (i + 100) in
              request batch ;; after i batch).

Definition clear_playlist (playlist_id : value) : M unit :=
  results <- playlist_items playlist_id 100 ;;
  tracks_to_remove <- extend_while_next (page_next results) ([] ++ page_items results) ;;
  match tracks_to_remove with
  | [] => print [Lit "Playlist is already empty."]
  | _ :: _ =>
      track_uris <- lift (valid_track_uris tracks_to_remove) ;;
      match track_uris with
      | [] => print [Lit "No valid tracks to remove."]
      | _ :: _ =>
          in_batches track_uris
            (playlist_remove_all_occurrences_of_items playlist_id)
            (fun _ _ => ret tt) ;;
          print [Lit "Removed "; Num (Z.of_nat (List.length track_uris));
                 Lit " tracks from the playlist."]
      end
  end.

(** The selection step of [update_true_shuffle], from [# Check if we have
    enough songs] to [random.sample]: the tracks selected and the count
    in effect. *)
Definition select_random_songs (liked_tracks : value) (num_songs : Z)
  : M (list value * Z) :=
  n <- lift (py_len liked_tracks) ;;
  num_songs <- (if (n <? num_songs)%Z then
                  print [Lit "Warning: You only have "; Num n;
                         Lit " liked songs, but requested "; Num num_songs;
                         Lit "."] ;;
                  print [Lit "Using all "; Num n; Lit " songs instead."] ;;
                  ret n
                else ret num_songs) ;;
  print [] ;;
  print [Lit "Selecting "; Num num_songs; Lit " random songs..."] ;;
  random_tracks <- random_sample liked_tracks num_songs ;;
  ret (random_tracks, num_songs).

(** The population step of [update_true_shuffle], from [# Add tracks to
    playlist] to the end of its loop. *)
Definition add_tracks (playlist_id : value) (track_uris : list value) : M unit :=
  print [] ;;
  print [Lit "Adding "; Num (Z.of_nat (List.length track_uris));
         Lit " tracks to the playlist..."] ;;
  in_batches track_uris
    (playlist_add_items playlist_id)
    (fun i batch =>
       print [Lit "Added batch "; Num (Z.of_nat (i / 100 + 1)); Lit " (";
              Num (Z.of_nat (List.length batch)); Lit " tracks)"]).

Definition banner : list piece :=
  [Lit "================================================================================"].

(** [TRUE_SHUFFLE_PLAYLIST_ID] is read from the environment when the module
    is loaded; here it is the first argument. *)
Definition update_true_shuffle (TRUE_SHUFFLE_PLAYLIST_ID : string) (num_songs : Z)
  : M unit :=
  print banner ;;
  print [Lit "Updating True Shuffle playlist"] ;;
  print banner ;;
  get_spotify_client ;;
  playlist <- get_or_create_playlist (VStr TRUE_SHUFFLE_PLAYLIST_ID) "True Shuffle"
                "A daily shuffled selection of 150 random songs from your liked songs"
                false ;;
  playlist_id <- lift (subscript playlist "id") ;;
  print [] ;;
  print [Lit "Clearing existing tracks from playlist..."] ;;
  clear_playlist playlist_id ;;
  print [] ;;
  print [Lit "Fetching your liked songs..."] ;;
  liked_tracks <- get_liked_songs true true ;;
  n <- lift (py_len liked_tracks) ;;
  print [Lit "Found "; Num n; Lit " liked songs."] ;;
  selected <- select_random_songs liked_tracks num_songs ;;
  track_uris <- lift (get_track_uris (fst selected)) ;;
  add_tracks playlist_id track_uris ;;
  print [] ;;
  print banner ;;
  print [Lit "True Shuffle playlist updated successfully!"] ;;
  url <- lift (urls <~ subscript playlist "external_urls" ;;
               subscript urls "spotify") ;;
  print [Lit "Playlist URL: "; Val url] ;;
  print banner.

End UpdateTrueShuffle.

(** ** A reference instance of the standard library

    Executable versions of the three library functions, for the formats the
    scripts meet: ISO-8601 dates as [datetime.isoformat] and the Spotify
    service write them, and JSON texts over the values above (integers for
    numbers, the two-character escapes in strings). *)

Module Reference.

Local Open Scope string_scope.
Local Open Scope Z_scope.

Definition digit (c : ascii) : option Z :=
  let n := nat_of_ascii c in
  if ((48 <=? n) && (n <=? 57))%nat then Some (Z.of_nat (n - 48)) else None.

(** Exactly [n] decimal digits at the head of [s]. *)
Fixpoint digits (n : nat) (acc : Z) (s : string) : option (Z * string) :=
  match n with
  | O => Some (acc, s)
  | S n' =>
      match s with
      | String c rest =>
          match digit c with
          | Some d => digits n' (10 * acc + d) rest
          | None => None
          end
      | EmptyString => None
      end
  end.

Definition expect (c : ascii) (s : string) : option string :=
  match s with
  | String c' rest => if Ascii.eqb c c' then Some rest else None
  | EmptyString => None
  end.

Definition is_leap (y : Z) : bool :=
  ((y mod 4 =? 0) && negb (y mod 100 =? 0)) || (y mod 400 =? 0).

Definition days_in_month (y m : Z) : Z :=
  if m =? 2 then (if is_leap y then 29 else 28)
  else if (m =? 4) || (m =? 6) || (m =? 9) || (m =? 11) then 30
  else 31.

(** Days from 1970-01-01 to the civil date [y]-[m]-[d]. *)
Definition days_from_civil (y m d : Z) : Z :=
  let y' := if m <=? 2 then y - 1 else y in
  let era := y' / 400 in
  let yoe := y' - era * 400 in
  let mp := (m + 9) mod 12 in
  let doy := (153 * mp + 2) / 5 + d - 1 in
  let doe := yoe * 365 + yoe / 4 - yoe / 100 + doy in
  era * 146097 + doe - 719468.

(** [.fff] or [.ffffff] after the seconds, in microseconds. *)
Definition fraction (s : string) : option (Z * string) :=
  match s with
  | String "." rest =>
      match digits 6 0 rest with
      | Some r => Some r
      | None =>
          match digits 3 0 rest with
          | Some (ms, rest') => Some (1000 * ms, rest')
          | None => None
          end
      end
  | _ => Some (0, s)
  end.

(** [+HH:MM] or [-HH:MM] at the end of the text, in microseconds. *)
Definition utc_offset (s : string) : option (option Z) :=
  match s with
  | EmptyString => Some None
  | String sign rest =>
      match digits 2 0 rest with
      | Some (hh, rest1) =>
          match expect ":" rest1 with
          | Some rest2 =>
              match digits 2 0 rest2 with
              | Some (mm, EmptyString) =>
                  if (hh <? 24) && (mm <? 60) then
                    let off := (hh * 60 + mm) * 60 * 1000000 in
                    if Ascii.eqb sign "+" then Some (Some off)
                    else if Ascii.eqb sign "-" then Some (Some (- off))
                    else None
                  else None
              | _ => None
              end
          | None => None
          end
      | None => None
      end
  end.

(** [HH:MM[:SS[.fff[fff]]]][+HH:MM]: microseconds into the day and the
    offset. *)
Definition time_of_day (s : string) : option (Z * option Z) :=
  match digits 2 0 s with
  | Some (hh, rest1) =>
      match expect ":" rest1 with
      | Some rest2 =>
          match digits 2 0 rest2 with
          | Some (mm, rest3) =>
              let seconds :=
                match expect ":" rest3 with
                | Some rest4 =>
                    match digits 2 0 rest4 with
                    | Some (ss, rest5) =>
                        match fraction rest5 with
                        | Some (us, rest6) => Some (ss, us, rest6)
                        | None => None
                        end
                    | None => None
                    end
                | None => Some (0, 0, rest3)
                end in
              match seconds with
              | Some (ss, us, rest7) =>
                  match utc_offset rest7 with
                  | Some off =>
                      if (hh <? 24) && (mm <? 60) && (ss <? 60)
                      then Some (((hh * 60 + mm) * 60 + ss) * 1000000 + us, off)
                      else None
                  | None => None
                  end
              | None => None
              end
          | None => None
          end
      | None => None
      end
  | None => None
  end.

(** [YYYY-MM-DD], then nothing or one separator character and a time. *)
Definition fromisoformat (s : string) : option datetime :=
  match digits 4 0 s with
  | Some (y, rest1) =>
      match expect "-" rest1 with
      | Some rest2 =>
          match digits 2 0 rest2 with
          | Some (m, rest3) =>
              match expect "-" rest3 with
              | Some rest4 =>
                  match digits 2 0 rest4 with
                  | Some (d, rest5) =>
                      if (1 <=? y) && (1 <=? m) && (m <=? 12) && (1 <=? d)
                         && (d <=? days_in_month y m)
                      then
                        let midnight := days_from_civil y m d * 86400000000 in
                        match rest5 with
                        | EmptyString => Some {| wall := midnight; tzinfo := None |}
                        | String _ rest6 =>
                            match time_of_day rest6 with
                            | Some (us, off) =>
                                Some {| wall := midnight + us; tzinfo := off |}
                            | None => None
                            end
                        end
                      else None
                  | None => None
                  end
              | None => None
              end
          | None => None
          end
      | None => None
      end
  | None => None
  end.

(** *** JSON *)

Definition digit_char (d : Z) : ascii := ascii_of_nat (48 + Z.to_nat d).

(** The decimal digits of [n >= 0] in front of [acc]; [fuel] bounds their
    number. *)
Fixpoint digits_of (fuel : nat) (n : Z) (acc : string) : string :=
  match fuel with
  | O => acc
  | S fuel' =>
      let acc' := String (digit_char (n mod 10)) acc in
      if n <? 10 then acc' else digits_of fuel' (n / 10) acc'
  end.

Definition decimal (z : Z) : string :=
  if z <? 0
  then String "-" (digits_of (S (Z.to_nat (Z.log2 (- z)))) (- z) EmptyString)
  else digits_of (S (Z.to_nat (Z.log2 z))) z EmptyString.

Definition newline : string := String (ascii_of_nat 10) EmptyString.

Fixpoint spaces (n : nat) : string :=
  match n with
  | O => EmptyString
  | S n' => String " " (spaces n')
  end.

(** The double quote and the backslash. *)
Definition dquote : ascii := ascii_of_nat 34.
Definition backslash : ascii := ascii_of_nat 92.

Fixpoint escape (s : string) : string :=
  match s with
  | EmptyString => EmptyString
  | String c rest =>
      let rest' := escape rest in
      if Ascii.eqb c dquote then String backslash (String dquote rest')
      else if Ascii.eqb c backslash then String backslash (String backslash rest')
      else if Ascii.eqb c (ascii_of_nat 10) then String backslash (String "n" rest')
      else if Ascii.eqb c (ascii_of_nat 13) then String backslash (String "r" rest')
      else if Ascii.eqb c (ascii_of_nat 9) then String backslash (String "t" rest')
      else String c rest'
  end.

Definition quote (s : string) : string :=
  String dquote (escape s ++ String dquote EmptyString).

Fixpoint join (sep : string) (parts : list string) : string :=
  match parts with
  | [] => EmptyString
  | [p] => p
  | p :: rest => p ++ sep ++ join sep rest
  end.

(** The text of [v] at nesting depth [depth], two spaces per level. *)
Fixpoint dump (depth : nat) (v : value) : string :=
  let inner := newline ++ spaces (2 * S depth) in
  let outer := newline ++ spaces (2 * depth) in
  match v with
  | VNone => "null"
  | VBool true => "true"
  | VBool false => "false"
  | VInt z => decimal z
  | VStr s => quote s
  | VList [] => "[]"
  | VList l =>
      "[" ++ inner ++ join ("," ++ inner) (map (dump (S depth)) l) ++ outer ++ "]"
  | VDict [] => "{}"
  | VDict kv =>
      "{" ++ inner
          ++ join ("," ++ inner)
                  (map (fun p : string * value =>
                        let (k, x) := p in quote k ++ ": " ++ dump (S depth) x) kv)
          ++ outer ++ "}"
  end.

Definition json_dump (v : value) : string := dump 0 v.

Definition is_space (c : ascii) : bool :=
  let n := nat_of_ascii c in
  ((n =? 32) || (n =? 10) || (n =? 13) || (n =? 9))%nat.

Fixpoint skip_spaces (s : string) : string :=
  match s with
  | String c rest => if is_space c then skip_spaces rest else s
  | EmptyString => s
  end.

Fixpoint strip_prefix (p s : string) : option string :=
  match p, s with
  | EmptyString, _ => Some s
  | String a p', String b s' => if Ascii.eqb a b then strip_prefix p' s' else None
  | String _ _, EmptyString => None
  end.

Definition unescape (c : ascii) : option ascii :=
  if Ascii.eqb c dquote then Some c
  else if Ascii.eqb c backslash then Some c
  else if Ascii.eqb c "/" then Some c
  else if Ascii.eqb c "n" then Some (ascii_of_nat 10)
  else if Ascii.eqb c "r" then Some (ascii_of_nat 13)
  else if Ascii.eqb c "t" then Some (ascii_of_nat 9)
  else if Ascii.eqb c "b" then Some (ascii_of_nat 8)
  else if Ascii.eqb c "f" then Some (ascii_of_nat 12)
  else None.

(** The characters of a string literal, after its opening quote. *)
Fixpoint string_body (s : string) : option (string * string) :=
  match s with
  | EmptyString => None
  | String c rest =>
      if Ascii.eqb c dquote then Some (EmptyString, rest)
      else if Ascii.eqb c backslash then
        match rest with
        | String e rest' =>
            match unescape e, string_body rest' with
            | Some c', Some (body, after) => Some (String c' body, after)
            | _, _ => None
            end
        | EmptyString => None
        end
      else
        match string_body rest with
        | Some (body, after) => Some (String c body, after)
        | None => None
        end
  end.

(** The longest run of digits at the head of [s]. *)
Fixpoint natural (acc : Z) (any : bool) (s : string) : option (Z * string) :=
  match s with
  | String c rest =>
      match digit c with
      | Some d => natural (10 * acc + d) true rest
      | None => if any then Some (acc, s) else None
      end
  | EmptyString => if any then Some (acc, s) else None
  end.

Definition number (s : string) : option (value * string) :=
  match s with
  | String c rest =>
      if Ascii.eqb c "-" then
        match natural 0 false rest with
        | Some (n, after) => Some (VInt (- n), after)
        | None => None
        end
      else
        match natural 0 false s with
        | Some (n, after) => Some (VInt n, after)
        | None => None
        end
  | EmptyString => None
  end.

(** [null], [true], [false] or a number. *)
Definition literal (s : string) : option (value * string) :=
  match strip_prefix "null" s, strip_prefix "true" s, strip_prefix "false" s with
  | Some after, _, _ => Some (VNone, after)
  | _, Some after, _ => Some (VBool true, after)
  | _, _, Some after => Some (VBool false, after)
  | _, _, _ => number s
  end.

Fixpoint parse_value (fuel : nat) (s : string) : option (value * string) :=
  match fuel with
  | O => None
  | S fuel' =>
      match skip_spaces s with
      | EmptyString => None
      | String c rest =>
          if Ascii.eqb c "[" then
            match skip_spaces rest with
            | EmptyString => None
            | String c' after =>
                if Ascii.eqb c' "]" then Some (VList [], after)
                else
                  match parse_elements fuel' rest with
                  | Some (l, after') => Some (VList l, after')
                  | None => None
                  end
            end
          else if Ascii.eqb c "{" then
            match skip_spaces rest with
            | EmptyString => None
            | String c' after =>
                if Ascii.eqb c' "}" then Some (VDict [], after)
                else
                  match parse_members fuel' rest with
                  | Some (kv, after') => Some (VDict kv, after')
                  | None => None
                  end
            end
          else if Ascii.eqb c dquote then
            match string_body rest with
            | Some (body, after) => Some (VStr body, after)
            | None => None
            end
          else literal (String c rest)
      end
  end

with parse_elements (fuel : nat) (s : string) : option (list value * string) :=
  match fuel with
  | O => None
  | S fuel' =>
      match parse_value fuel' s with
      | Some (v, after) =>
          match skip_spaces after with
          | EmptyString => None
          | String c rest =>
              if Ascii.eqb c "," then
                match parse_elements fuel' rest with
                | Some (l, after') => Some (v :: l, after')
                | None => None
                end
              else if Ascii.eqb c "]" then Some ([v], rest)
              else None
          end
      | None => None
      end
  end

with parse_members (fuel : nat) (s : string)
  : option (list (string * value) * string) :=
  match fuel with
  | O => None
  | S fuel' =>
      match expect dquote (skip_spaces s) with
      | Some rest =>
          match string_body rest with
          | Some (key, after_key) =>
              match expect ":" (skip_spaces after_key) with
              | Some rest' =>
                  match parse_value fuel' rest' with
                  | Some (v, after) =>
                      match skip_spaces after with
                      | EmptyString => None
                      | String c rest'' =>
                          if Ascii.eqb c "," then
                            match parse_members fuel' rest'' with
                            | Some (kv, after') => Some ((key, v) :: kv, after')
                            | None => None
                            end
                          else if Ascii.eqb c "}" then Some ([(key, v)], rest'')
                          else None
                      end
                  | None => None
                  end
              | None => None
              end
          | None => None
          end
      | None => None
      end
  end.

Definition json_load (text : string) : option value :=
  match parse_value (S (String.length text)) text with
  | Some (v, after) =>
      match skip_spaces after with
      | EmptyString => Some v
      | String _ _ => None
      end
  | None => None
  end.

(** *** Vocabulary of the round trip *)

(** A text that does not go on with a digit. *)
Definition no_digit (s : string) : Prop :=
  match s with
  | String c _ => digit c = None
  | EmptyString => True
  end.

(** A run of white space: the parser skips it where a token may start. *)
Definition blank (ws : string) : Prop :=
  forall s, skip_spaces (ws ++ s) = skip_spaces s.

(** Where a value written starts: not with white space, and not with the
    bracket or brace that closes a container. *)
Definition starts_value (s : string) : Prop :=
  exists c r, s = String c r
              /\ is_space c = false
              /\ Ascii.eqb c "]" = false
              /\ Ascii.eqb c "}" = false.

(** The fuel a value takes to read: one for each value, and one more for
    each place in a container. *)
Fixpoint value_size (v : value) : nat :=
  match v with
  | VList l => S (list_sum (map (fun x => S (value_size x)) l))
  | VDict kv => S (list_sum (map (fun p : string * value => S (value_size (snd p))) kv))
  | _ => 1
  end.

(** The text of one member of a dict, its value at depth [depth]. *)
Definition member_text (depth : nat) (p : string * value) : string :=
  let (k, x) := p in quote k ++ ": " ++ dump depth x.

End Reference.

#[export] Instance reference_lib : PyLib := {
  fromisoformat := Reference.fromisoformat;
  json_load := Reference.json_load;
  json_dump := Reference.json_dump
}.

(** ** Vocabulary of the properties *)

(** The requests of one paginated pass over the saved tracks [l]: the first
    page, then one request per further page. *)
Definition saved_tracks_pass (l : list value) : list request :=
  CurrentUserSavedTracks 50
  :: repeat NextPage (List.length (page_next (first_page 50 l))).

(** The requests of one paginated pass over the members [l] of the
    playlist [playlist_id]. *)
Definition playlist_items_pass (playlist_id : value) (l : list value)
  : list request :=
  PlaylistItems playlist_id 100
  :: repeat NextPage (List.length (page_next (first_page 100 l))).

(** [ceil(n / d)]. *)
Definition ceil_div (n d : nat) : nat := (n + (d - 1)) / d.

(** The instant of a datetime on the UTC time line, a naive one read as
    UTC. *)
Definition instant (dt : datetime) : Z :=
  match tzinfo dt with
  | Some offset => (wall dt - offset)%Z
  | None => wall dt
  end.

Section Vocabulary.

Context {lib : PyLib}.

Local Open Scope string_scope.

(** The Timestamp Normalizer of the specification: a text in trailing-Z,
    explicit-offset or naive notation, as an instant in UTC. *)
Definition normalize (s : string) : option Z :=
  match fromisoformat (str_replace "Z" "+00:00" s) with
  | Some dt => Some (instant dt)
  | None => None
  end.

(** The instant an item was added at, when it has an added-at text that
    parses. *)
Definition added_at_instant (item : value) : option Z :=
  match subscript item "added_at" with
  | Ok (VStr s) => normalize s
  | _ => None
  end.

(** An item counts as new when its added-at instant strictly exceeds the
    cache instant. *)
Definition is_new (cache_instant : Z) (item : value) : bool :=
  match added_at_instant item with
  | Some t => (cache_instant <? t)%Z
  | None => false
  end.

(** A timestamp text whose UTC offset, when it has one, shows in the text
    as a Z, a plus sign or a third hyphen: the notations the scripts tell
    apart (trailing-Z, explicit offset, naive). *)
Definition offset_shows (s : string) : bool :=
  str_contains "Z" s || str_contains "+" s || (2 <? str_count "-" s)%Z
  || match fromisoformat s with
     | Some dt => match tzinfo dt with None => true | Some _ => false end
     | None => true
     end.

(** An item record of the data model: a dict whose added-at field, when
    there is one, is a timestamp text in one of these notations. *)
Definition item_record (item : value) : bool :=
  match item with
  | VDict kv =>
      match lookup "added_at" kv with
      | None => true
      | Some (VStr s) => offset_shows s
      | Some _ => false
      end
  | _ => false
  end.

(** What the change check computes from the cache timestamp and the
    fetched tracks, once the pass went through. *)
Definition change_check (since_timestamp : value) (all_tracks : list value)
  : result (option (list value)) :=
  match since_timestamp with
  | VNone => Ok None
  | _ =>
      match parse_since since_timestamp with
      | Ok since_dt =>
          new_tracks <~ filter_new_tracks since_dt all_tracks [] ;;
          Ok (Some new_tracks)
      | Raise e =>
          if is_ValueError e || is_AttributeError e then Ok None else Raise e
      end
  end.

End Vocabulary.

(** Two worlds that differ at most in the request log and in what was
    printed. *)
Definition same_state (w w' : world) : Prop :=
  disk w' = disk w /\ now w' = now w /\ liked w' = liked w
  /\ playlists w' = playlists w /\ user_id w' = user_id w
  /\ new_ids w' = new_ids w /\ faults w' = faults w /\ tape w' = tape w.

(** ** Sample worlds

    Small concrete runs, with the reference library. *)

Module Sample.

Local Open Scope string_scope.

(** A saved-track item as the service returns it. *)
Definition track (n : Z) (added_at : string) : value :=
  VDict [("added_at", VStr added_at);
         ("track", VDict [("uri", VStr ("spotify:track:" ++ Reference.decimal n))])].

(** Ten tracks saved in 2023. *)
Definition ten_tracks : list value :=
  map (fun n => track n "2023-06-01T12:00:00Z") [1; 2; 3; 4; 5; 6; 7; 8; 9; 10]%Z.

(** The instant T0 the cache was captured at, and a later instant T1. *)
Definition T0 : string := "2024-03-01T08:00:00.000000+00:00".
Definition T1 : string := "2024-03-02T08:00:00Z".

(** The same collection after one more track was saved at T1; the service
    lists the newest first. *)
Definition eleven_tracks : list value := track 11 T1 :: ten_tracks.

(** A world with the given cache file and remote collection, a transport
    that lets every request through and nothing sent or printed yet. *)
Definition world_of (file : option string) (remote : list value) : world :=
  {| disk := file;
     now := "2024-03-03T08:00:00.000000+00:00";
     liked := remote;
     playlists := [];
     user_id := "user";
     new_ids := ["fresh"];
     faults := [];
     calls := [];
     stdout := [];
     tape := [] |}.

(** The cache holds the ten tracks captured at T0. *)
Definition snapshot_T0 : string := json_dump (cache_data T0 ten_tracks).

(** Nothing changed on the remote side since T0. *)
Definition unchanged : world := world_of (Some snapshot_T0) ten_tracks.

(** One track was added at T1, after T0. *)
Definition one_added : world := world_of (Some snapshot_T0) eleven_tracks.

(** The cache file carries a timestamp that does not parse. *)
Definition bad_timestamp : world :=
  world_of (Some (json_dump (cache_data "yesterday" ten_tracks))) ten_tracks.

(** The cache file holds JSON text that is not a snapshot: a list. *)
Definition not_a_snapshot : world :=
  world_of (Some (String "[" (String "]" EmptyString))) ten_tracks.

(** The cache file holds text that is not JSON. *)
Definition not_json : world := world_of (Some "{ timestamp: ") ten_tracks.

(** Five tracks and a random tape, for the selection step. *)
Definition five_tracks : list value := firstn 5 ten_tracks.

Definition shuffling : world :=
  set_tape [7; 3; 11; 0; 2]%nat (world_of None five_tracks).

(** The destination playlist, private, with the given members. *)
Definition destination (members : list value) : playlist :=
  {| pl_info := new_playlist_info "dest" "True Shuffle" false "desc";
     pl_members := members |}.

(** A member whose track is no longer available: the service lists it with
    a null track. *)
Definition removed_member : value :=
  VDict [("added_at", VStr T0); ("track", VNone)].

(** A destination whose only member has no track. *)
Definition stale_destination : world :=
  set_playlists [("dest", destination [removed_member])] (world_of None five_tracks).

(** A destination with three members, two of them with a track. *)
Definition small_destination : world :=
  set_playlists
    [("dest", destination [track 1 T0; removed_member; track 2 T0])]
    (world_of None five_tracks).

(** The destination exists, and the first request fails in transit. *)
Definition flaky : world :=
  set_faults [Some ConnectionError]
    (set_playlists [("dest", destination [track 1 T0])] (world_of None five_tracks)).

(** Saved tracks of every kind: added after T0, without an added-at field,
    with one that does not parse, added before T0, added at T0 sharp, and
    added after T0 by a clock five hours behind UTC. *)
Definition mixed_tracks : list value :=
  [track 1 T1;
   VDict [("track", VDict [("uri", VStr "spotify:track:2")])];
   track 3 "last week";
   track 4 "2023-06-01T12:00:00Z";
   track 5 "2024-03-01T08:00:00Z";
   track 6 "2024-03-01T03:00:01-05:00"].

Definition mixed : world := world_of (Some snapshot_T0) mixed_tracks.

(** A saved track whose added-at field is null. *)
Definition undated : world :=
  world_of (Some snapshot_T0) [VDict [("added_at", VNone);
                                      ("track", VDict [("uri", VStr "spotify:track:1")])]].

(** A daily run: no cache file yet, ten saved tracks, and a destination
    with one track and one stale member. *)
Definition daily : world :=
  set_tape [7; 3; 11; 0; 2]%nat
    (set_playlists [("dest", destination [track 1 T0; removed_member])]
       (world_of None ten_tracks)).

End Sample.

(** A computation that leaves the remote collection of saved tracks as it
    found it, however it ends. *)
Definition keeps_liked {A : Type} (m : M A) : Prop :=
  forall w r w', m w = (r, w') -> liked w' = liked w.

(** The requests that remove a batch, and those that append one. *)
Definition is_removal (rq : request) : bool :=
  match rq with
  | PlaylistRemoveAllOccurrencesOfItems _ _ => true
  | _ => false
  end.

Definition is_append (rq : request) : bool :=
  match rq with
  | PlaylistAddItems _ _ => true
  | _ => false
  end.

(** A world whose transport lets every request through and whose service
    has the playlist [id]. *)
Definition serves_playlist (id : string) (w : world) : Prop :=
  faults w = [] /\ exists p, find_playlist id (playlists w) = Some p.

(** ** More of get_liked_songs.py *)

Section CreatePlaylist.

Local Open Scope string_scope.

(** [create_playlist(name, description, public, track_uris)]; the default
    [track_uris=None] is [None] here. *)
Definition create_playlist (name description : string) (public : bool)
    (track_uris : option (list value)) : M value :=
  get_spotify_client ;;
  me <- current_user ;;
  user <- lift (subscript me "id") ;;
  playlist <- user_playlist_create user name public description ;;
  print [] ;;
  print [Lit "Created playlist: "; Lit name] ;;
  id <- lift (subscript playlist "id") ;;
  print [Lit "Playlist ID: "; Val id] ;;
  url <- lift (urls <~ subscript playlist "external_urls" ;;
               subscript urls "spotify") ;;
  print [Lit "Playlist URL: "; Val url] ;;
  match track_uris with
  | Some (u :: us) =>
      in_batches (u :: us)
        (fun batch =>
           id <- lift (subscript playlist "id") ;;
           playlist_add_items id batch)
        (fun _ _ => ret tt) ;;
      print [Lit "Added "; Num (Z.of_nat (List.length (u :: us)));
             Lit " tracks to the playlist"] ;;
      ret playlist
  | _ => ret playlist
  end.

End CreatePlaylist.

(** ** Vocabulary of the further properties *)

(** The requests that only list saved tracks: the first page by fifty,
    and the pages after it. *)
Definition is_listing (rq : request) : bool :=
  match rq with
  | CurrentUserSavedTracks limit => Nat.eqb limit 50
  | NextPage => true
  | _ => false
  end.

(** A computation whose every run, however it ends, takes a world to one
    related to it by [R]. *)
Definition respects {A : Type} (R : world -> world -> Prop) (m : M A) : Prop :=
  forall w r w', m w = (r, w') -> R w w'.

(** [w'] comes from [w] by listing saved tracks at most: the remote
    service, the random tape and the clock are as they were, and the
    requests sent since are listings. *)
Definition only_listed (w w' : world) : Prop :=
  now w' = now w /\ liked w' = liked w /\ playlists w' = playlists w
  /\ user_id w' = user_id w /\ new_ids w' = new_ids w /\ tape w' = tape w
  /\ exists sent, calls w' = calls w ++ sent /\ forallb is_listing sent = true.

Section FurtherVocabulary.

Context {lib : PyLib}.

Local Open Scope string_scope.

(** The cache file in [w'] is the one of [w], or, when [save_to_disk] is
    set, the complete snapshot of the remote collection of [w]. *)
Definition cache_kept_or_complete (save_to_disk : bool) (w w' : world) : Prop :=
  now w' = now w /\ liked w' = liked w
  /\ (disk w' = disk w
      \/ (save_to_disk = true
          /\ disk w' = Some (json_dump (cache_data (now w) (liked w))))).

End FurtherVocabulary.

(** [w'] differs from [w] in its playlists, request log and output at
    most. *)
Definition playlists_aside (w w' : world) : Prop :=
  disk w' = disk w /\ now w' = now w /\ liked w' = liked w
  /\ user_id w' = user_id w /\ new_ids w' = new_ids w /\ tape w' = tape w.

(** The URI a member item is removed by: the URI of its track, when the
    track and the URI are truthy. *)
Definition valid_uri (item : value) : option value :=
  match subscript item "track" with
  | Ok t =>
      if truthy t then
        match subscript t "uri" with
        | Ok u => if truthy u then Some u else None
        | Raise _ => None
        end
      else None
  | Raise _ => None
  end.

(** A member item as the service lists it: a dict with a track that is
    null or a dict with a URI string. *)
Definition member_record (item : value) : bool :=
  match subscript item "track" with
  | Ok VNone => true
  | Ok (VDict kv) =>
      match lookup "uri" kv with
      | Some (VStr _) => true
      | _ => false
      end
  | _ => false
  end.

(** A playlist object as the service answers it for the playlist [id],
    with its visibility, its ID and its URL. *)
Definition playlist_record (id : string) (info : list (string * value)) : Prop :=
  lookup "id" info = Some (VStr id)
  /\ (exists b, lookup "public" info = Some (VBool b))
  /\ exists urls url,
       lookup "external_urls" info = Some (VDict urls)
       /\ lookup "spotify" urls = Some url.

(** A computation whose runs that raise take a world to one related to it
    by [R]. *)
Definition failing {A : Type} (R : world -> world -> Prop) (m : M A) : Prop :=
  forall w e w', m w = (Raise e, w') -> R w w'.

(** The world [w] lets every request through, its clock reads [t] and it
    holds the playlist [p] under [id]. *)
Definition serving (id : string) (t : string) (p : playlist) (w : world) : Prop :=
  faults w = [] /\ now w = t /\ find_playlist id (playlists w) = Some p.

(** The playlist after the service removed every occurrence of [uris],
    and after it appended [uris] at the instant [added_at]. *)
Definition without (uris : list value) (p : playlist) : playlist :=
  {| pl_info := pl_info p;
     pl_members := filter (fun it => negb (uri_in uris it)) (pl_members p) |}.

Definition with_added (added_at : string) (uris : list value) (p : playlist)
  : playlist :=
  {| pl_info := pl_info p;
     pl_members := pl_members p ++ map (new_member added_at) uris |}.

(** A member is usable when it has a URI to be removed by. *)
Definition usable (item : value) : bool :=
  match valid_uri item with Some _ => true | None => false end.

Definition usable_uris (members : list value) : list value :=
  flat_map (fun item => match valid_uri item with Some u => [u] | None => [] end)
           members.

(** The playlist without its usable members. *)
Definition cleared (p : playlist) : playlist :=
  {| pl_info := pl_info p;
     pl_members := filter (fun item => negb (usable item)) (pl_members p) |}.

(** ** More sample worlds *)

Module Cases.

Local Open Scope string_scope.

(** One track was added since the snapshot, and the second request fails
    in transit. *)
Definition interrupted : world :=
  set_faults [None; Some ConnectionError] Sample.one_added.

(** A destination with a member that has no [track] field. *)
Definition malformed_destination : world :=
  set_playlists
    [("dest", Sample.destination [Sample.track 1 Sample.T0;
                                  VDict [("added_at", VStr Sample.T0)]])]
    (Sample.world_of None Sample.five_tracks).

(** A saved track whose added-at field is null, and a collection that
    holds it between ten good records; the cache was captured at T0. *)
Definition undated_record : value :=
  VDict [("added_at", VNone);
         ("track", VDict [("uri", VStr "spotify:track:11")])].

Definition one_undated : world :=
  Sample.world_of (Some Sample.snapshot_T0)
    (Sample.five_tracks ++ undated_record :: skipn 5 Sample.ten_tracks).

(** The URIs of the ten tracks. *)
Definition ten_uris : list value :=
  map (fun n => VStr ("spotify:track:" ++ Reference.decimal n))
      [1; 2; 3; 4; 5; 6; 7; 8; 9; 10]%Z.

(** 150 URIs: two batches. *)
Definition many_uris : list value :=
  map (fun i => VStr ("spotify:track:" ++ Reference.decimal (Z.of_nat i))) (seq 1 150).

(** The second request fails in transit. *)
Definition second_fails : world :=
  set_faults [None; Some ConnectionError] Sample.small_destination.

End Cases.

(** * Properties *)

(** ** Pages and batches *)

Lemma pages_from_fuel (limit : nat) :
  1 <= limit ->
  forall fuel fuel' l,
    List.length l <= fuel -> List.length l <= fuel' ->
    pages_from fuel limit l = pages_from fuel' limit l.
Proof.
  intros Hlimit.
  induction fuel as [|fuel IH]; intros fuel' l Hl Hl'.
  - destruct l; [destruct fuel'; reflexivity | cbn [List.length] in Hl; lia].
  - destruct l as [|x l]; [destruct fuel'; reflexivity|].
    destruct fuel' as [|fuel']; [cbn [List.length] in Hl'; lia|].
    cbn [pages_from]. f_equal.
    assert (Hskip : List.length (skipn limit (x :: l)) <= List.length l).
    { rewrite length_skipn. cbn [List.length]. lia. }
    cbn [List.length] in Hl, Hl'.
    apply IH; lia.
Qed.

Lemma pages_from_enough (limit : nat) :
  1 <= limit ->
  forall fuel l, List.length l <= fuel ->
                 pages_from fuel limit l = pages limit l.
Proof.
  intros Hlimit fuel l Hl. unfold pages.
  apply pages_from_fuel; [exact Hlimit | exact Hl | lia].
Qed.

Lemma pages_cons (limit : nat) (x : value) (l : list value) :
  1 <= limit ->
  pages limit (x :: l) = firstn limit (x :: l) :: pages limit (skipn limit (x :: l)).
Proof.
  intros Hlimit. unfold pages at 1. cbn [pages_from List.length].
  f_equal. apply pages_from_enough; [exact Hlimit|].
  rewrite length_skipn. cbn [List.length]. lia.
Qed.

Lemma pages_nil (limit : nat) : pages limit [] = [].
Proof. reflexivity. Qed.

Lemma pages_concat (limit : nat) :
  1 <= limit -> forall l, List.concat (pages limit l) = l.
Proof.
  intros Hlimit l.
  remember (List.length l) as n eqn:Hn.
  revert l Hn. induction n as [n IH] using lt_wf_ind. intros l Hn.
  destruct l as [|x l]; [reflexivity|].
  rewrite pages_cons by exact Hlimit. cbn [List.concat].
  rewrite (IH (List.length (skipn limit (x :: l)))).
  - apply firstn_skipn.
  - rewrite length_skipn. subst n. cbn [List.length]. lia.
  - reflexivity.
Qed.

Lemma pages_bounded (limit : nat) :
  1 <= limit ->
  forall l, Forall (fun p => 1 <= List.length p <= limit) (pages limit l).
Proof.
  intros Hlimit l.
  remember (List.length l) as n eqn:Hn.
  revert l Hn. induction n as [n IH] using lt_wf_ind. intros l Hn.
  destruct l as [|x l]; [constructor|].
  rewrite pages_cons by exact Hlimit. constructor.
  - rewrite length_firstn. cbn [List.length]. lia.
  - apply (IH (List.length (skipn limit (x :: l)))).
    + rewrite length_skipn. subst n. cbn [List.length]. lia.
    + reflexivity.
Qed.

Lemma pages_length (limit : nat) :
  1 <= limit ->
  forall l, List.length (pages limit l) = ceil_div (List.length l) limit.
Proof.
  intros Hlimit l. unfold ceil_div.
  remember (List.length l) as n eqn:Hn.
  revert l Hn. induction n as [n IH] using lt_wf_ind. intros l Hn.
  destruct l as [|x l].
  - subst n. simpl. symmetry. apply Nat.div_small. lia.
  - rewrite pages_cons by exact Hlimit. cbn [List.length].
    rewrite (IH (List.length (skipn limit (x :: l))) ltac:(rewrite length_skipn; subst n; cbn [List.length]; lia)
                (skipn limit (x :: l)) eq_refl).
    rewrite length_skipn. rewrite <- Hn.
    destruct (Nat.le_gt_cases n limit) as [Hle|Hgt].
    + replace (n - limit) with 0 by lia. simpl.
      rewrite (Nat.div_small (limit - 1) limit) by lia.
      assert (H1 : 1 <= n) by (subst n; simpl; lia).
      replace (n + (limit - 1)) with ((n - 1) + 1 * limit) by lia.
      rewrite Nat.div_add by lia.
      rewrite (Nat.div_small (n - 1) limit) by lia. reflexivity.
    + replace (n + (limit - 1)) with ((n - limit + (limit - 1)) + 1 * limit) by lia.
      rewrite Nat.div_add by lia. lia.
Qed.

Lemma range_slices (A : Type) (n : nat) (l : list A) :
  1 <= n ->
  forall fuel start,
    List.length l - start <= fuel ->
    map (fun i => slice l i (i + n)) (range_from fuel start (List.length l) n)
    = map (fun i => firstn n (skipn i l)) (range_from fuel start (List.length l) n).
Proof.
  intros Hn fuel start _. apply map_ext. intros i. unfold slice.
  replace (i + n - i) with n by lia. reflexivity.
Qed.

Lemma range_pages (n : nat) (l : list value) :
  1 <= n ->
  forall fuel start,
    List.length l - start <= fuel ->
    map (fun i => firstn n (skipn i l)) (range_from fuel start (List.length l) n)
    = pages n (skipn start l).
Proof.
  intros Hn. induction fuel as [|fuel IH]; intros start Hfuel.
  - cbn [range_from map].
    rewrite skipn_all2 by lia. reflexivity.
  - cbn [range_from].
    destruct (Nat.ltb_spec start (List.length l)) as [Hlt|Hge].
    + cbn [map].
      destruct (skipn start l) as [|x rest] eqn:Hskip.
      { assert (Hlen : List.length (skipn start l) = 0) by (rewrite Hskip; reflexivity).
        rewrite length_skipn in Hlen. lia. }
      rewrite pages_cons by exact Hn. f_equal.
      rewrite IH by lia.
      rewrite <- Hskip. rewrite skipn_skipn.
      replace (n + start) with (start + n) by lia. reflexivity.
    + cbn [map]. rewrite skipn_all2 by lia. reflexivity.
Qed.

(** The batches [uris[i:i + 100]] for [i] in [range(0, len(uris), 100)] are
    the pages of [uris] by hundreds. *)
Lemma batches_pages (uris : list value) :
  map (fun i => slice uris i (i + 100)) (py_range 0 (List.length uris) 100)
  = pages 100 uris.
Proof.
  unfold py_range.
  rewrite range_slices by lia.
  rewrite range_pages by lia.
  reflexivity.
Qed.

(** ** Running computations *)

Lemma bind_ok (A B : Type) (m : M A) (k : A -> M B) (w w' : world) (a : A) :
  m w = (Ok a, w') -> bind m k w = k a w'.
Proof. intros H. unfold bind. rewrite H. reflexivity. Qed.

Lemma bind_raise (A B : Type) (m : M A) (k : A -> M B) (w w' : world) (e : exn) :
  m w = (Raise e, w') -> bind m k w = (Raise e, w').
Proof. intros H. unfold bind. rewrite H. reflexivity. Qed.

Lemma bind_inv (A B : Type) (m : M A) (k : A -> M B) (w w' : world) (b : B) :
  bind m k w = (Ok b, w') ->
  exists a w1, m w = (Ok a, w1) /\ k a w1 = (Ok b, w').
Proof.
  unfold bind. destruct (m w) as [[a|e] w1]; intros H.
  - exists a, w1. split; [reflexivity | exact H].
  - discriminate H.
Qed.

Lemma send_reliable (A : Type) (rq : request) (serve : M A) (w : world) :
  faults w = [] -> send rq serve w = serve (set_calls (calls w ++ [rq]) w).
Proof. intros H. unfold send. cbn. rewrite H. reflexivity. Qed.

(** In a world where every request goes through, the pagination loop
    collects the items of all further pages with one request per page. *)
Lemma extend_while_next_reliable (nxt : list (list value)) :
  forall (tracks : list value) (w : world),
    faults w = [] ->
    extend_while_next nxt tracks w
    = (Ok (tracks ++ List.concat nxt),
       set_calls (calls w ++ repeat NextPage (List.length nxt)) w).
Proof.
  induction nxt as [|p rest IH]; intros tracks w Hw.
  - cbn. rewrite !app_nil_r. destruct w; reflexivity.
  - cbn [extend_while_next].
    erewrite bind_ok
      by (unfold sp_next; rewrite send_reliable by exact Hw; reflexivity).
    rewrite IH by exact Hw. cbn.
    rewrite <- !app_assoc. reflexivity.
Qed.

Lemma first_page_all (limit : nat) (l : list value) :
  1 <= limit ->
  page_items (first_page limit l) ++ List.concat (page_next (first_page limit l)) = l.
Proof.
  intros Hlimit. unfold first_page.
  pose proof (pages_concat limit Hlimit l) as H.
  destruct (pages limit l) as [|p rest]; cbn in *; exact H.
Qed.

Lemma first_page_next_length (limit : nat) (l : list value) :
  1 <= limit ->
  List.length (page_next (first_page limit l)) = ceil_div (List.length l) limit - 1.
Proof.
  intros Hlimit. unfold first_page.
  pose proof (pages_length limit Hlimit l) as H.
  destruct (pages limit l) as [|p rest]; cbn in *; lia.
Qed.

(** The number of requests of one pass over [n] saved tracks:
    [ceil(n / 50)], and one for an empty collection. *)
Lemma saved_tracks_pass_length (l : list value) :
  List.length (saved_tracks_pass l) = Nat.max 1 (ceil_div (List.length l) 50).
Proof.
  unfold saved_tracks_pass. cbn [List.length]. rewrite repeat_length.
  rewrite first_page_next_length by lia. lia.
Qed.

(** One full paginated pass over the saved tracks, as both
    [get_new_liked_songs_since] and [get_liked_songs] make it. *)
Lemma saved_tracks_pass_reliable (w : world) :
  faults w = [] ->
  bind (current_user_saved_tracks 50)
       (fun results => extend_while_next (page_next results) (page_items results)) w
  = (Ok (liked w), set_calls (calls w ++ saved_tracks_pass (liked w)) w).
Proof.
  intros Hw.
  erewrite bind_ok
    by (unfold current_user_saved_tracks; rewrite send_reliable by exact Hw; reflexivity).
  rewrite extend_while_next_reliable by exact Hw.
  cbn. rewrite first_page_all by lia.
  unfold saved_tracks_pass. rewrite <- app_assoc. reflexivity.
Qed.

Lemma saved_tracks_pass_then (B : Type) (k : list value -> M B) (w : world) :
  faults w = [] ->
  bind (current_user_saved_tracks 50)
       (fun results =>
          bind (extend_while_next (page_next results) (page_items results)) k) w
  = k (liked w) (set_calls (calls w ++ saved_tracks_pass (liked w)) w).
Proof.
  intros Hw.
  pose proof (saved_tracks_pass_reliable w Hw) as H.
  unfold bind in *.
  destruct (current_user_saved_tracks 50 w) as [[results|e] w1]; [|discriminate H].
  rewrite H. reflexivity.
Qed.

Lemma same_state_refl (w : world) : same_state w w.
Proof. unfold same_state. repeat split; reflexivity. Qed.

Lemma same_state_trans (w1 w2 w3 : world) :
  same_state w1 w2 -> same_state w2 w3 -> same_state w1 w3.
Proof.
  unfold same_state. intros H12 H23.
  destruct H12 as (?&?&?&?&?&?&?&?), H23 as (?&?&?&?&?&?&?&?).
  repeat split; congruence.
Qed.

(** ** The change check *)

Section ChangeCheck.

Context {lib : PyLib}.

(** With every request going through, the change check is one pass over
    the saved tracks followed by [change_check] on what was fetched; with
    no timestamp there is no pass. *)
Lemma get_new_liked_songs_since_reliable (since_timestamp : value) (w : world) :
  faults w = [] ->
  exists w',
    get_new_liked_songs_since since_timestamp w
    = (change_check since_timestamp (liked w), w')
    /\ calls w' = calls w ++ match since_timestamp with
                             | VNone => []
                             | _ => saved_tracks_pass (liked w)
                             end
    /\ same_state w w'.
Proof.
  intros Hw.
  assert (Hgen :
    exists w',
      bind (current_user_saved_tracks 50)
        (fun results =>
           bind (extend_while_next (page_next results) (page_items results))
             (fun all_tracks =>
                bind (try_except
                        (bind (lift (parse_since since_timestamp))
                              (fun since_dt => ret (Some since_dt)))
                        (fun e => is_ValueError e || is_AttributeError e)
                        (fun e =>
                           bind (print [Lit "Error parsing cache timestamp: "; Exc e])
                                (fun _ => ret None)))
                  (fun parsed =>
                     match parsed with
                     | None => ret None
                     | Some since_dt =>
                         bind (lift (filter_new_tracks since_dt all_tracks []))
                              (fun new_tracks => ret (Some new_tracks))
                     end))) w
      = (match parse_since since_timestamp with
         | Ok since_dt =>
             bindr (filter_new_tracks since_dt (liked w) [])
                   (fun new_tracks => Ok (Some new_tracks))
         | Raise e =>
             if is_ValueError e || is_AttributeError e then Ok None else Raise e
         end, w')
      /\ calls w' = calls w ++ saved_tracks_pass (liked w)
      /\ same_state w w').
  { rewrite saved_tracks_pass_then by exact Hw.
    unfold try_except, bind, lift, print, ret.
    destruct (parse_since since_timestamp) as [since_dt|e].
    - destruct (filter_new_tracks since_dt (liked w) []) as [new_tracks|e'];
        cbn; eexists; (split; [reflexivity|]); cbn;
        (split; [reflexivity | unfold same_state; cbn; repeat split; reflexivity]).
    - destruct (is_ValueError e || is_AttributeError e);
        cbn; eexists; (split; [reflexivity|]); cbn;
        (split; [reflexivity | unfold same_state; cbn; repeat split; reflexivity]). }
  destruct since_timestamp; try exact Hgen.
  exists w. cbn. rewrite app_nil_r.
  split; [reflexivity | split; [reflexivity | apply same_state_refl]].
Qed.

End ChangeCheck.

(** ** New items *)

Section NewItems.

Context {lib : PyLib}.

Local Open Scope string_scope.

Lemma str_replace_absent (c : ascii) (by_ s : string) :
  str_contains c s = false -> str_replace c by_ s = s.
Proof.
  induction s as [|c' s IH]; cbn; [reflexivity|].
  destruct (Ascii.eqb c c'); cbn; [discriminate|].
  intros H. rewrite IH by exact H. reflexivity.
Qed.

Lemma instant_ensure_aware (dt : datetime) : instant (ensure_aware dt) = instant dt.
Proof.
  unfold ensure_aware, instant.
  destruct (tzinfo dt) as [o|] eqn:H; cbn; rewrite ?H; [reflexivity | lia].
Qed.

Lemma ensure_aware_aware (dt : datetime) :
  exists offset, tzinfo (ensure_aware dt) = Some offset.
Proof.
  unfold ensure_aware. destruct (tzinfo dt) as [o|] eqn:H.
  - exists o. exact H.
  - exists 0%Z. reflexivity.
Qed.

(** Two aware datetimes compare by their instants, without error. *)
Lemma datetime_gt_aware (a b : datetime) :
  (exists o, tzinfo b = Some o) ->
  datetime_gt (ensure_aware a) b = Ok (instant b <? instant a)%Z.
Proof.
  intros [ob Hb]. unfold datetime_gt, ensure_aware, instant. rewrite Hb.
  destruct (tzinfo a) as [oa|] eqn:Ha; cbn; rewrite ?Ha;
    rewrite Z.gtb_ltb; rewrite ?Z.sub_0_r; reflexivity.
Qed.

(** The cache timestamp as the scripts read it is the normalizer's
    instant. *)
Lemma parse_since_normalize (s : string) :
  offset_shows s = true ->
  match normalize s with
  | Some t => exists dt, parse_since (VStr s) = Ok dt /\ instant dt = t
                         /\ exists o, tzinfo dt = Some o
  | None => parse_since (VStr s) = Raise ValueError
  end.
Proof.
  unfold offset_shows, normalize, parse_since. cbn.
  destruct (str_contains "Z" s) eqn:Hz; cbn.
  - intros _. destruct (fromisoformat (str_replace "Z" "+00:00" s)) as [dt|]; cbn.
    + exists (ensure_aware dt).
      split; [reflexivity | split; [apply instant_ensure_aware | apply ensure_aware_aware]].
    + reflexivity.
  - rewrite (str_replace_absent _ _ _ Hz).
    destruct (str_contains "+" s) eqn:Hp; cbn.
    + intros _. destruct (fromisoformat s) as [dt|]; cbn.
      * exists (ensure_aware dt).
        split; [reflexivity | split; [apply instant_ensure_aware | apply ensure_aware_aware]].
      * reflexivity.
    + destruct (2 <? str_count "-" s)%Z eqn:Hc; cbn.
      * intros _. destruct (fromisoformat s) as [dt|]; cbn.
        -- exists (ensure_aware dt).
           split; [reflexivity | split; [apply instant_ensure_aware | apply ensure_aware_aware]].
        -- reflexivity.
      * destruct (fromisoformat s) as [dt|]; cbn; [|reflexivity].
        destruct (tzinfo dt) eqn:Htz; [discriminate|]. intros _.
        exists (replace_tzinfo_utc dt).
        split; [reflexivity|]. split.
        -- unfold instant. cbn. rewrite Htz. lia.
        -- exists 0%Z. reflexivity.
Qed.

(** What the [try] in the loop does with one item record: it compares the
    normalized instants, and a missing or unparseable field raises one of
    the two exceptions the loop catches. *)
Lemma added_after_record (since_dt : datetime) (item : value) :
  item_record item = true ->
  (exists o, tzinfo since_dt = Some o) ->
  match added_after since_dt item with
  | Ok b => b = is_new (instant since_dt) item
  | Raise e => is_ValueError e || is_KeyError e = true
               /\ is_new (instant since_dt) item = false
  end.
Proof.
  intros Hrec Haware.
  destruct item as [| | | |l|kv]; try discriminate Hrec.
  unfold item_record in Hrec.
  unfold added_after, is_new, added_at_instant, subscript.
  destruct (lookup "added_at" kv) as [v|]; [|cbn; split; reflexivity].
  destruct v as [| | |s| |]; try discriminate Hrec.
  unfold offset_shows in Hrec. unfold normalize. cbn.
  destruct (str_contains "Z" s) eqn:Hz; cbn.
  - destruct (fromisoformat (str_replace "Z" "+00:00" s)) as [dt|]; cbn.
    + rewrite datetime_gt_aware by exact Haware. reflexivity.
    + split; reflexivity.
  - rewrite (str_replace_absent _ _ _ Hz).
    cbn in Hrec.
    destruct (str_contains "+" s) eqn:Hp; cbn.
    + destruct (fromisoformat s) as [dt|]; cbn.
      * rewrite datetime_gt_aware by exact Haware. reflexivity.
      * split; reflexivity.
    + destruct (2 <? str_count "-" s)%Z eqn:Hc; cbn.
      * destruct (fromisoformat s) as [dt|]; cbn.
        -- rewrite datetime_gt_aware by exact Haware. reflexivity.
        -- split; reflexivity.
      * cbn in Hrec.
        destruct (fromisoformat s) as [dt|]; cbn; [|split; reflexivity].
        destruct (tzinfo dt) eqn:Htz; [discriminate|].
        destruct Haware as [o Ho]. rewrite Ho.
        unfold instant. rewrite Ho, Htz.
        rewrite Z.gtb_ltb, Z.sub_0_r. reflexivity.
Qed.

(** The loop over item records is a filter: it keeps the new items, in
    their order, after what it had. *)
Lemma filter_new_tracks_records (since_dt : datetime) (all_tracks : list value) :
  forallb item_record all_tracks = true ->
  (exists o, tzinfo since_dt = Some o) ->
  forall new_tracks,
    filter_new_tracks since_dt all_tracks new_tracks
    = Ok (new_tracks ++ filter (is_new (instant since_dt)) all_tracks)%list.
Proof.
  intros Hall Haware.
  induction all_tracks as [|item rest IH]; intros new_tracks.
  - cbn. rewrite app_nil_r. reflexivity.
  - cbn [forallb] in Hall. apply andb_true_iff in Hall. destruct Hall as [Hitem Hrest].
    cbn [filter_new_tracks filter].
    pose proof (added_after_record since_dt item Hitem Haware) as H.
    destruct (added_after since_dt item) as [b|e].
    + rewrite <- H. destruct b.
      * rewrite IH by exact Hrest. rewrite <- app_assoc. reflexivity.
      * apply IH. exact Hrest.
    + destruct H as [Hcaught Hnot]. rewrite Hcaught, Hnot.
      apply IH. exact Hrest.
Qed.

End NewItems.

(** ** The cache store and the controller *)

Section Controller.

Context {lib : PyLib}.

Local Open Scope string_scope.

(** A snapshot that loads leaves the world as it was: only the path
    through the [except] prints. *)
Lemma load_snapshot_unchanged (w : world) (tracks timestamp : value) :
  fst (load_liked_songs_from_disk w) = Ok (tracks, timestamp) ->
  tracks <> VNone ->
  load_liked_songs_from_disk w = (Ok (tracks, timestamp), w).
Proof.
  unfold load_liked_songs_from_disk.
  destruct (disk w) as [text|].
  - unfold try_except, bind, lift, ret, print.
    destruct (json_load text) as [cache|]; cbn.
    + destruct cache; cbn; try discriminate.
      intros H _. inversion H. reflexivity.
    + intros H Hne. inversion H. subst. contradiction Hne. reflexivity.
  - cbn. intros H Hne. inversion H. subst. contradiction Hne. reflexivity.
Qed.

(** What a snapshot that loads says about the file: it holds JSON text of
    a dict, and the pair returned is read from its two keys. *)
Lemma load_snapshot_inv (w : world) (tracks timestamp : value) :
  fst (load_liked_songs_from_disk w) = Ok (tracks, timestamp) ->
  tracks <> VNone ->
  exists text kv,
    disk w = Some text /\ json_load text = Some (VDict kv)
    /\ py_get (VDict kv) "tracks" (VList []) = Ok tracks
    /\ py_get (VDict kv) "timestamp" (VStr EmptyString) = Ok timestamp.
Proof.
  unfold load_liked_songs_from_disk.
  destruct (disk w) as [text|] eqn:Hdisk.
  - unfold try_except, bind, lift, ret, print.
    destruct (json_load text) as [cache|] eqn:Hload; cbn.
    + destruct cache; cbn; try discriminate.
      intros H _. inversion H. exists text, kv. repeat split; solve [reflexivity | exact Hload].
    + intros H Hne. inversion H. subst. contradiction Hne. reflexivity.
  - cbn. intros H Hne. inversion H. subst. contradiction Hne. reflexivity.
Qed.

(** The full fetch with every request going through: one pass, the
    snapshot written when asked for, the fetched list returned. *)
Lemma fetch_all_liked_songs_reliable (save_to_disk : bool) (w : world) :
  faults w = [] ->
  exists w',
    fetch_all_liked_songs save_to_disk w = (Ok (VList (liked w)), w')
    /\ calls w' = (calls w ++ saved_tracks_pass (liked w))%list
    /\ disk w' = (if save_to_disk
                  then Some (json_dump (cache_data (now w) (liked w)))
                  else disk w)
    /\ liked w' = liked w /\ faults w' = [].
Proof.
  intros Hw. unfold fetch_all_liked_songs, get_spotify_client.
  unfold bind at 1. cbn [ret].
  unfold bind at 1. unfold print at 1.
  rewrite saved_tracks_pass_then by exact Hw.
  destruct save_to_disk.
  - unfold bind, save_liked_songs_to_disk, print, ret. cbn.
    eexists. split; [reflexivity|]. cbn. repeat split; try reflexivity. exact Hw.
  - unfold bind, ret. cbn.
    eexists. split; [reflexivity|]. cbn. repeat split; try reflexivity. exact Hw.
Qed.

(** The controller with a snapshot on disk and every request going
    through: the outcome of the change check decides between the cached
    list, at the cost of the check alone, and a full fetch after it. *)
Lemma get_liked_songs_with_snapshot (save_to_disk : bool) (w : world)
    (tracks timestamp : value) (n : Z) :
  faults w = [] ->
  fst (load_liked_songs_from_disk w) = Ok (tracks, timestamp) ->
  tracks <> VNone ->
  py_len tracks = Ok n ->
  exists r w',
    get_liked_songs save_to_disk true w = (r, w')
    /\ let check := match timestamp with
                    | VNone => []
                    | _ => saved_tracks_pass (liked w)
                    end in
       match change_check timestamp (liked w) with
       | Ok (Some []) =>
           r = Ok tracks /\ calls w' = (calls w ++ check)%list /\ disk w' = disk w
       | Ok _ =>
           r = Ok (VList (liked w))
           /\ calls w' = (calls w ++ check ++ saved_tracks_pass (liked w))%list
           /\ disk w' = (if save_to_disk
                         then Some (json_dump (cache_data (now w) (liked w)))
                         else disk w)
       | Raise e => r = Raise e
       end.
Proof.
  intros Hw Hload Hne Hlen.
  pose proof (load_snapshot_unchanged w tracks timestamp Hload Hne) as Hrun.
  unfold get_liked_songs.
  rewrite (bind_ok _ _ _ _ _ _ _ Hrun). cbn [fst snd].
  set (wp := set_stdout
               (stdout w ++ [[Lit "Loaded "; Num n;
                              Lit " liked songs from cache (saved at ";
                              Val timestamp; Lit ")"]])%list w).
  assert (Hwp : faults wp = []) by exact Hw.
  destruct (get_new_liked_songs_since_reliable timestamp wp Hwp)
    as (w2 & Hnew & Hcalls & Hsame).
  change (liked wp) with (liked w) in Hnew, Hcalls.
  change (calls wp) with (calls w) in Hcalls.
  assert (Hcont :
    exists r w',
      bind (lift (py_len tracks))
        (fun n0 =>
           bind (print [Lit "Loaded "; Num n0;
                        Lit " liked songs from cache (saved at ";
                        Val timestamp; Lit ")"])
             (fun _ =>
                bind get_spotify_client
                  (fun _ =>
                     bind (get_new_liked_songs_since timestamp)
                       (fun new_tracks =>
                          match new_tracks with
                          | Some new_tracks0 =>
                              if (0 <? List.length new_tracks0)%nat
                              then
                                bind (print [Lit "Found ";
                                             Num (Z.of_nat (List.length new_tracks0));
                                             Lit " new liked songs since cache. Updating cache..."])
                                     (fun _ => fetch_all_liked_songs save_to_disk)
                              else
                                bind (print [Lit "No new liked songs since cache. Using cached data (no API calls needed)."])
                                     (fun _ => ret tracks)
                          | None =>
                              bind (print [Lit "Could not check for new songs. Fetching all liked songs..."])
                                   (fun _ => fetch_all_liked_songs save_to_disk)
                          end)))) w = (r, w')
      /\ let check := match timestamp with
                      | VNone => []
                      | _ => saved_tracks_pass (liked w)
                      end in
         match change_check timestamp (liked w) with
         | Ok (Some []) =>
             r = Ok tracks /\ calls w' = (calls w ++ check)%list /\ disk w' = disk w
         | Ok _ =>
             r = Ok (VList (liked w))
             /\ calls w' = (calls w ++ check ++ saved_tracks_pass (liked w))%list
             /\ disk w' = (if save_to_disk
                           then Some (json_dump (cache_data (now w) (liked w)))
                           else disk w)
         | Raise e => r = Raise e
         end).
  { unfold bind at 1. unfold lift at 1. rewrite Hlen.
    unfold bind at 1. unfold print at 1. fold wp.
    unfold bind at 1. unfold get_spotify_client, ret at 1.
    unfold bind at 1. rewrite Hnew.
    destruct Hsame as (Hd & Hn & Hl & _ & _ & _ & Hf & _).
    change (disk wp) with (disk w) in Hd. change (now wp) with (now w) in Hn.
    change (liked wp) with (liked w) in Hl. change (faults wp) with (faults w) in Hf.
    destruct (change_check timestamp (liked w)) as [[new_tracks|]|e].
    - destruct new_tracks as [|x new_tracks].
      + cbn [List.length Nat.ltb Nat.leb].
        unfold bind, print, ret. cbn.
        eexists _, _. split; [reflexivity|]. cbn.
        repeat split; [exact Hcalls | exact Hd].
      + cbn [List.length Nat.ltb Nat.leb].
        unfold bind at 1. unfold print at 1.
        match goal with
        | |- context [fetch_all_liked_songs save_to_disk ?w3] =>
            destruct (fetch_all_liked_songs_reliable save_to_disk w3)
              as (w4 & Hfetch & Hc4 & Hd4 & _ & _);
              [cbn; rewrite Hf; exact Hw|];
              rewrite Hfetch; cbn in Hc4, Hd4
        end.
        eexists _, _. split; [reflexivity|].
        cbn [liked set_stdout]. rewrite Hl, Hn, Hd in *.
        rewrite Hcalls in Hc4. rewrite <- app_assoc in Hc4.
        repeat split; [exact Hc4 | exact Hd4].
    - unfold bind at 1. unfold print at 1.
      match goal with
      | |- context [fetch_all_liked_songs save_to_disk ?w3] =>
          destruct (fetch_all_liked_songs_reliable save_to_disk w3)
            as (w4 & Hfetch & Hc4 & Hd4 & _ & _);
            [cbn; rewrite Hf; exact Hw|];
            rewrite Hfetch; cbn in Hc4, Hd4
      end.
      eexists _, _. split; [reflexivity|].
      cbn [liked set_stdout]. rewrite Hl, Hn, Hd in *.
      rewrite Hcalls in Hc4. rewrite <- app_assoc in Hc4.
      repeat split; [exact Hc4 | exact Hd4].
    - eexists _, _. split; reflexivity. }
  destruct tracks; [contradiction Hne; reflexivity | exact Hcont ..].
Qed.

End Controller.

(** ** The controller: what it returns and what it sends *)

Section ControllerRuns.

Context {lib : PyLib}.

Local Open Scope string_scope.

(** C1.  With a snapshot on disk and a change check that finds no new item,
    [get_liked_songs] (with [use_cache=True]) returns the cached items as
    they are, in their order; the requests it sends are those of the
    single paginated pass of the change check, and the cache file is left
    as it was. *)
Theorem cache_served_when_nothing_new (save_to_disk : bool) (w : world)
    (cached : list value) (timestamp : value) :
  faults w = [] ->
  fst (load_liked_songs_from_disk w) = Ok (VList cached, timestamp) ->
  fst (get_new_liked_songs_since timestamp w) = Ok (Some []) ->
  exists w',
    get_liked_songs save_to_disk true w = (Ok (VList cached), w')
    /\ calls w' = (calls w ++ saved_tracks_pass (liked w))%list
    /\ disk w' = disk w.
Proof.
  intros Hw Hload Hcheck.
  destruct (get_new_liked_songs_since_reliable timestamp w Hw) as (w1 & Hnew & _ & _).
  rewrite Hnew in Hcheck. cbn [fst] in Hcheck.
  destruct (get_liked_songs_with_snapshot save_to_disk w (VList cached) timestamp
              (Z.of_nat (List.length cached)) Hw Hload ltac:(discriminate) eq_refl)
    as (r & w' & Hrun & Hcases).
  rewrite Hcheck in Hcases. cbn zeta in Hcases.
  destruct Hcases as (Hr & Hcalls & Hdisk). subst r.
  exists w'. split; [exact Hrun|]. split; [|exact Hdisk].
  destruct timestamp; try exact Hcalls.
  cbn in Hcheck. discriminate Hcheck.
Qed.

(** C2, as amended.  With a snapshot captured at T0 on disk and at least
    one remote item added strictly after T0, [get_liked_songs] returns all
    current remote items and writes them as the new snapshot, and it makes
    two paginated passes over the remote collection: the pass of the
    change check, then one full fetch. *)
Theorem refresh_when_new_items (w : world) (cached : list value)
    (s0 : string) (t0 : Z) :
  faults w = [] ->
  fst (load_liked_songs_from_disk w) = Ok (VList cached, VStr s0) ->
  offset_shows s0 = true ->
  normalize s0 = Some t0 ->
  forallb item_record (liked w) = true ->
  existsb (is_new t0) (liked w) = true ->
  exists w',
    get_liked_songs true true w = (Ok (VList (liked w)), w')
    /\ calls w' = (calls w ++ saved_tracks_pass (liked w)
                           ++ saved_tracks_pass (liked w))%list
    /\ disk w' = Some (json_dump (cache_data (now w) (liked w))).
Proof.
  intros Hw Hload Hshows Hnorm Hrecords Hnew.
  destruct (get_liked_songs_with_snapshot true w (VList cached) (VStr s0)
              (Z.of_nat (List.length cached)) Hw Hload ltac:(discriminate) eq_refl)
    as (r & w' & Hrun & Hcases).
  pose proof (parse_since_normalize s0 Hshows) as Hparse.
  rewrite Hnorm in Hparse. destruct Hparse as (dt & Hdt & Hinst & Haware).
  unfold change_check in Hcases. rewrite Hdt in Hcases.
  rewrite (filter_new_tracks_records dt (liked w) Hrecords Haware) in Hcases.
  rewrite Hinst in Hcases. cbn in Hcases.
  destruct (filter (is_new t0) (liked w)) as [|x rest] eqn:Hfilter.
  - exfalso. apply existsb_exists in Hnew. destruct Hnew as (item & Hin & Hitem).
    assert (Hin' : In item (filter (is_new t0) (liked w)))
      by (apply filter_In; split; assumption).
    rewrite Hfilter in Hin'. exact Hin'.
  - destruct Hcases as (Hr & Hcalls & Hdisk). subst r.
    exists w'. repeat split; assumption.
Qed.

(** C4.  With a snapshot on disk and a change check that comes back
    indeterminate ([None]), [get_liked_songs] does not serve the cached
    items: after the requests of the check (none when the timestamp is
    [None], one pass when it does not parse) it makes a full paginated
    fetch, writes the new snapshot when [save_to_disk] is set (the
    default) and returns the fetched items. *)
Theorem refetch_when_indeterminate (save_to_disk : bool) (w : world)
    (cached : list value) (timestamp : value) :
  faults w = [] ->
  fst (load_liked_songs_from_disk w) = Ok (VList cached, timestamp) ->
  fst (get_new_liked_songs_since timestamp w) = Ok None ->
  exists w',
    get_liked_songs save_to_disk true w = (Ok (VList (liked w)), w')
    /\ calls w' = (calls w ++ match timestamp with
                              | VNone => []
                              | _ => saved_tracks_pass (liked w)
                              end
                           ++ saved_tracks_pass (liked w))%list
    /\ disk w' = (if save_to_disk
                  then Some (json_dump (cache_data (now w) (liked w)))
                  else disk w).
Proof.
  intros Hw Hload Hcheck.
  destruct (get_new_liked_songs_since_reliable timestamp w Hw) as (w1 & Hnew & _ & _).
  rewrite Hnew in Hcheck. cbn [fst] in Hcheck.
  destruct (get_liked_songs_with_snapshot save_to_disk w (VList cached) timestamp
              (Z.of_nat (List.length cached)) Hw Hload ltac:(discriminate) eq_refl)
    as (r & w' & Hrun & Hcases).
  rewrite Hcheck in Hcases. cbn zeta in Hcases.
  destruct Hcases as (Hr & Hcalls & Hdisk). subst r.
  exists w'. split; [exact Hrun|]. split; [exact Hcalls | exact Hdisk].
Qed.

End ControllerRuns.

Local Open Scope string_scope.

Lemma cache_served_when_nothing_new_witness :
  faults Sample.unchanged = []
  /\ fst (load_liked_songs_from_disk Sample.unchanged)
     = Ok (VList Sample.ten_tracks, VStr Sample.T0)
  /\ fst (get_new_liked_songs_since (VStr Sample.T0) Sample.unchanged) = Ok (Some [])
  /\ exists w',
       get_liked_songs true true Sample.unchanged = (Ok (VList Sample.ten_tracks), w')
       /\ calls w' = [CurrentUserSavedTracks 50]
       /\ disk w' = Some Sample.snapshot_T0.
Proof.
  split; [reflexivity|].
  split; [vm_compute; reflexivity|].
  split; [vm_compute; reflexivity|].
  apply (cache_served_when_nothing_new true Sample.unchanged Sample.ten_tracks
           (VStr Sample.T0)).
  - reflexivity.
  - vm_compute. reflexivity.
  - vm_compute. reflexivity.
Defined.

(** The scenario of C2 run on the code: ten items cached at T0, one item
    added at T1 > T0.  The result has eleven items, and the requests are
    those of two passes, not of one. *)
Lemma refresh_makes_two_passes :
  exists w',
    get_liked_songs true true Sample.one_added = (Ok (VList Sample.eleven_tracks), w')
    /\ List.length Sample.eleven_tracks = 11
    /\ calls w' = [CurrentUserSavedTracks 50; CurrentUserSavedTracks 50]
    /\ calls w' <> saved_tracks_pass (liked Sample.one_added).
Proof.
  eexists. split; [vm_compute; reflexivity|].
  split; [reflexivity|]. split; [reflexivity|].
  vm_compute. discriminate.
Qed.

Lemma refresh_when_new_items_witness :
  faults Sample.one_added = []
  /\ fst (load_liked_songs_from_disk Sample.one_added)
     = Ok (VList Sample.ten_tracks, VStr Sample.T0)
  /\ offset_shows Sample.T0 = true
  /\ normalize Sample.T0 = Some 1709280000000000%Z
  /\ forallb item_record (liked Sample.one_added) = true
  /\ existsb (is_new 1709280000000000%Z) (liked Sample.one_added) = true
  /\ exists w',
       get_liked_songs true true Sample.one_added = (Ok (VList Sample.eleven_tracks), w')
       /\ calls w' = [CurrentUserSavedTracks 50; CurrentUserSavedTracks 50]
       /\ disk w' = Some (json_dump (cache_data (now Sample.one_added) Sample.eleven_tracks)).
Proof.
  split; [reflexivity|].
  split; [vm_compute; reflexivity|].
  split; [vm_compute; reflexivity|].
  split; [vm_compute; reflexivity|].
  split; [vm_compute; reflexivity|].
  split; [vm_compute; reflexivity|].
  apply (refresh_when_new_items Sample.one_added Sample.ten_tracks Sample.T0
           1709280000000000%Z);
    vm_compute; reflexivity.
Defined.

Lemma refetch_when_indeterminate_witness :
  faults Sample.bad_timestamp = []
  /\ fst (load_liked_songs_from_disk Sample.bad_timestamp)
     = Ok (VList Sample.ten_tracks, VStr "yesterday")
  /\ fst (get_new_liked_songs_since (VStr "yesterday") Sample.bad_timestamp) = Ok None
  /\ exists w',
       get_liked_songs true true Sample.bad_timestamp = (Ok (VList Sample.ten_tracks), w')
       /\ calls w' = [CurrentUserSavedTracks 50; CurrentUserSavedTracks 50]
       /\ disk w' = Some (json_dump (cache_data (now Sample.bad_timestamp) Sample.ten_tracks)).
Proof.
  split; [reflexivity|].
  split; [vm_compute; reflexivity|].
  split; [vm_compute; reflexivity|].
  apply (refetch_when_indeterminate true Sample.bad_timestamp Sample.ten_tracks
           (VStr "yesterday"));
    vm_compute; reflexivity.
Defined.

Local Close Scope string_scope.

(** ** Runs with any transport *)

Lemma keeps_liked_ret (A : Type) (a : A) : keeps_liked (ret a).
Proof. intros w r w' H. inversion H. reflexivity. Qed.

Lemma keeps_liked_raise (A : Type) (e : exn) : keeps_liked (@raise A e).
Proof. intros w r w' H. inversion H. reflexivity. Qed.

Lemma keeps_liked_lift (A : Type) (x : result A) : keeps_liked (lift x).
Proof. intros w r w' H. inversion H. reflexivity. Qed.

Lemma keeps_liked_print (line : list piece) : keeps_liked (print line).
Proof. intros w r w' H. inversion H. reflexivity. Qed.

Lemma keeps_liked_bind (A B : Type) (m : M A) (k : A -> M B) :
  keeps_liked m -> (forall a, keeps_liked (k a)) -> keeps_liked (bind m k).
Proof.
  intros Hm Hk w r w' H. unfold bind in H.
  destruct (m w) as [[a|e] w1] eqn:Hmw.
  - rewrite (Hk a _ _ _ H). exact (Hm _ _ _ Hmw).
  - inversion H. subst. exact (Hm _ _ _ Hmw).
Qed.

Lemma keeps_liked_try_except (A : Type) (body : M A) (catches : exn -> bool)
    (handler : exn -> M A) :
  keeps_liked body -> (forall e, keeps_liked (handler e)) ->
  keeps_liked (try_except body catches handler).
Proof.
  intros Hb Hh w r w' H. unfold try_except in H.
  destruct (body w) as [[a|e] w1] eqn:Hbw.
  - inversion H. subst. exact (Hb _ _ _ Hbw).
  - destruct (catches e).
    + rewrite (Hh e _ _ _ H). exact (Hb _ _ _ Hbw).
    + inversion H. subst. exact (Hb _ _ _ Hbw).
Qed.

Lemma keeps_liked_send (A : Type) (rq : request) (serve : M A) :
  keeps_liked serve -> keeps_liked (send rq serve).
Proof.
  intros Hs w r w' H. unfold send in H. cbn in H.
  destruct (faults w) as [|[e|] fs].
  - exact (Hs _ _ _ H).
  - inversion H. reflexivity.
  - exact (Hs _ _ _ H).
Qed.

Lemma send_ok (A : Type) (rq : request) (serve : M A) (w w' : world) (a : A) :
  send rq serve w = (Ok a, w') ->
  exists w1, liked w1 = liked w /\ serve w1 = (Ok a, w').
Proof.
  unfold send. cbn. intros H.
  destruct (faults w) as [|[e|] fs].
  - eexists. split; [|exact H]. reflexivity.
  - discriminate H.
  - eexists. split; [|exact H]. reflexivity.
Qed.

Lemma keeps_liked_current_user_saved_tracks (limit : nat) :
  keeps_liked (current_user_saved_tracks limit).
Proof.
  apply keeps_liked_send. intros w r w' H. inversion H. reflexivity.
Qed.

Lemma current_user_saved_tracks_ok (limit : nat) (w w' : world) (results : page) :
  current_user_saved_tracks limit w = (Ok results, w') ->
  results = first_page limit (liked w).
Proof.
  intros H. apply send_ok in H. destruct H as (w1 & Hl & H).
  inversion H. subst. congruence.
Qed.

Lemma keeps_liked_extend_while_next (nxt : list (list value)) :
  forall tracks, keeps_liked (extend_while_next nxt tracks).
Proof.
  induction nxt as [|p rest IH]; intros tracks.
  - apply keeps_liked_ret.
  - cbn [extend_while_next]. apply keeps_liked_bind.
    + apply keeps_liked_send. apply keeps_liked_ret.
    + intros results. apply IH.
Qed.

(** Whatever the transport does, a pagination loop that comes to its end
    has collected the items of all further pages. *)
Lemma extend_while_next_ok (nxt : list (list value)) :
  forall tracks w w' all_tracks,
    extend_while_next nxt tracks w = (Ok all_tracks, w') ->
    all_tracks = tracks ++ List.concat nxt.
Proof.
  induction nxt as [|p rest IH]; intros tracks w w' all_tracks H.
  - inversion H. cbn. rewrite app_nil_r. reflexivity.
  - cbn [extend_while_next] in H. apply bind_inv in H.
    destruct H as (results & w1 & Hnext & H).
    apply send_ok in Hnext. destruct Hnext as (w0 & _ & Hnext).
    inversion Hnext. subst results.
    apply IH in H. cbn in *. rewrite H, <- app_assoc. reflexivity.
Qed.

(** A pass that comes to its end has fetched the whole collection. *)
Lemma saved_tracks_pass_ok (w w' : world) (all_tracks : list value) :
  bind (current_user_saved_tracks 50)
       (fun results => extend_while_next (page_next results) (page_items results)) w
  = (Ok all_tracks, w') ->
  all_tracks = liked w.
Proof.
  intros H. apply bind_inv in H. destruct H as (results & w1 & Hfirst & Hrest).
  apply current_user_saved_tracks_ok in Hfirst. subst results.
  apply extend_while_next_ok in Hrest. rewrite Hrest.
  apply first_page_all. lia.
Qed.

Section AnyTransport.

Context {lib : PyLib}.

Lemma keeps_liked_load : keeps_liked load_liked_songs_from_disk.
Proof.
  intros w r w' H. unfold load_liked_songs_from_disk in H.
  destruct (disk w) as [text|].
  - revert H. apply keeps_liked_try_except.
    + repeat (apply keeps_liked_bind; [apply keeps_liked_lift | intros ?]).
      apply keeps_liked_ret.
    + intros e. apply keeps_liked_bind; [apply keeps_liked_print | intros ?].
      apply keeps_liked_ret.
  - inversion H. reflexivity.
Qed.

Lemma keeps_liked_get_new_liked_songs_since (since_timestamp : value) :
  keeps_liked (get_new_liked_songs_since since_timestamp).
Proof.
  assert (Hgen : keeps_liked
    (bind (current_user_saved_tracks 50)
       (fun results =>
          bind (extend_while_next (page_next results) (page_items results))
            (fun all_tracks =>
               bind (try_except
                       (bind (lift (parse_since since_timestamp))
                             (fun since_dt => ret (Some since_dt)))
                       (fun e => is_ValueError e || is_AttributeError e)
                       (fun e =>
                          bind (print [Lit "Error parsing cache timestamp: "; Exc e])
                               (fun _ => ret None)))
                 (fun parsed =>
                    match parsed with
                    | None => ret None
                    | Some since_dt =>
                        bind (lift (filter_new_tracks since_dt all_tracks []))
                             (fun new_tracks => ret (Some new_tracks))
                    end))))).
  { apply keeps_liked_bind; [apply keeps_liked_current_user_saved_tracks | intros results].
    apply keeps_liked_bind; [apply keeps_liked_extend_while_next | intros all_tracks].
    apply keeps_liked_bind.
    - apply keeps_liked_try_except.
      + apply keeps_liked_bind; [apply keeps_liked_lift | intros ?; apply keeps_liked_ret].
      + intros e. apply keeps_liked_bind; [apply keeps_liked_print | intros ?; apply keeps_liked_ret].
    - intros [since_dt|]; [|apply keeps_liked_ret].
      apply keeps_liked_bind; [apply keeps_liked_lift | intros ?; apply keeps_liked_ret]. }
  destruct since_timestamp; try exact Hgen. apply keeps_liked_ret.
Qed.

(** Every full fetch that returns returns the whole remote collection. *)
Lemma fetch_all_liked_songs_ok (save_to_disk : bool) (w w' : world) (r : value) :
  fetch_all_liked_songs save_to_disk w = (Ok r, w') -> r = VList (liked w).
Proof.
  unfold fetch_all_liked_songs, get_spotify_client. intros H.
  unfold bind at 1 in H. unfold ret at 1 in H.
  unfold bind at 1 in H. unfold print at 1 in H.
  apply bind_inv in H. destruct H as (results & w3 & Hfirst & H).
  apply bind_inv in H. destruct H as (tracks & w4 & Hrest & H).
  assert (Hall : tracks = liked w).
  { apply (saved_tracks_pass_ok
             (set_stdout (stdout w ++ [[Lit "Fetching liked songs from Spotify API..."]]) w)
             w4).
    unfold bind. rewrite Hfirst. exact Hrest. }
  apply bind_inv in H. destruct H as (u & w5 & Hsave & H).
  inversion H. subst. reflexivity.
Qed.

End AnyTransport.

Section SourceOfResult.

Context {lib : PyLib}.

Local Open Scope string_scope.

(** The continuation of [get_liked_songs] after a snapshot was loaded:
    what it returns is the list it was given or the whole remote
    collection. *)
Lemma after_snapshot_cached_or_fresh (save_to_disk : bool)
    (tracks timestamp : value) (w w' : world) (r : value) :
  bind (lift (py_len tracks))
    (fun n =>
       bind (print [Lit "Loaded "; Num n;
                    Lit " liked songs from cache (saved at ";
                    Val timestamp; Lit ")"])
         (fun _ =>
            bind get_spotify_client
              (fun _ =>
                 bind (get_new_liked_songs_since timestamp)
                   (fun new_tracks =>
                      match new_tracks with
                      | Some new_tracks0 =>
                          if (0 <? List.length new_tracks0)%nat
                          then
                            bind (print [Lit "Found ";
                                         Num (Z.of_nat (List.length new_tracks0));
                                         Lit " new liked songs since cache. Updating cache..."])
                                 (fun _ => fetch_all_liked_songs save_to_disk)
                          else
                            bind (print [Lit "No new liked songs since cache. Using cached data (no API calls needed)."])
                                 (fun _ => ret tracks)
                      | None =>
                          bind (print [Lit "Could not check for new songs. Fetching all liked songs..."])
                               (fun _ => fetch_all_liked_songs save_to_disk)
                      end)))) w = (Ok r, w') ->
  r = tracks \/ r = VList (liked w).
Proof.
  intros H.
  apply bind_inv in H. destruct H as (n & w1 & Hlen & H).
  assert (Hw1 : w1 = w) by (unfold lift in Hlen; inversion Hlen; reflexivity).
  subst w1.
  unfold bind at 1 in H. unfold print at 1 in H.
  unfold bind at 1 in H. unfold get_spotify_client, ret at 1 in H.
  apply bind_inv in H. destruct H as (new_tracks & w2 & Hnew & H).
  apply keeps_liked_get_new_liked_songs_since in Hnew. cbn [liked set_stdout] in Hnew.
  destruct new_tracks as [new_tracks|].
  - destruct (0 <? List.length new_tracks)%nat.
    + unfold bind at 1 in H. unfold print at 1 in H.
      apply fetch_all_liked_songs_ok in H. cbn [liked set_stdout] in H.
      right. rewrite H, Hnew. reflexivity.
    + unfold bind, print, ret in H. inversion H. left. reflexivity.
  - unfold bind at 1 in H. unfold print at 1 in H.
    apply fetch_all_liked_songs_ok in H. cbn [liked set_stdout] in H.
    right. rewrite H, Hnew. reflexivity.
Qed.

(** C9.  Whenever [get_liked_songs] returns, what it returns is wholly one
    of two lists: the items of the snapshot loaded from the cache file, or
    the items of one full fetch of the remote collection. *)
Theorem result_is_cached_or_fresh (save_to_disk use_cache : bool)
    (w w' : world) (r : value) :
  get_liked_songs save_to_disk use_cache w = (Ok r, w') ->
  (use_cache = true
   /\ exists timestamp, fst (load_liked_songs_from_disk w) = Ok (r, timestamp))
  \/ r = VList (liked w).
Proof.
  unfold get_liked_songs. destruct use_cache.
  - intros H. apply bind_inv in H. destruct H as ([tracks timestamp] & w1 & Hload & H).
    cbn [fst snd] in H.
    pose proof (keeps_liked_load _ _ _ Hload) as Hliked.
    assert (Hcases : r = tracks \/ r = VList (liked w1)).
    { destruct tracks;
        [right; exact (fetch_all_liked_songs_ok _ _ _ _ H)
        | exact (after_snapshot_cached_or_fresh _ _ _ _ _ _ H) ..]. }
    destruct Hcases as [Hr|Hr].
    + left. split; [reflexivity|]. exists timestamp. rewrite Hload, Hr. reflexivity.
    + right. rewrite Hr, Hliked. reflexivity.
  - intros H. right. exact (fetch_all_liked_songs_ok _ _ _ _ H).
Qed.

End SourceOfResult.

Lemma result_is_cached_or_fresh_witness :
  get_liked_songs true true Sample.one_added
  = (Ok (VList Sample.eleven_tracks), snd (get_liked_songs true true Sample.one_added))
  /\ ((true = true
       /\ exists timestamp,
            fst (load_liked_songs_from_disk Sample.one_added)
            = Ok (VList Sample.eleven_tracks, timestamp))
      \/ VList Sample.eleven_tracks = VList (liked Sample.one_added)).
Proof.
  split; [vm_compute; reflexivity|].
  apply (result_is_cached_or_fresh true true Sample.one_added
           (snd (get_liked_songs true true Sample.one_added))
           (VList Sample.eleven_tracks)).
  vm_compute. reflexivity.
Defined.

(** ** The cache file *)

Section CacheFile.

Context {lib : PyLib}.

Local Open Scope string_scope.

(** Text that [json.load] rejects reads as no cache at all, apart from the
    line printed. *)
Lemma load_undecodable_as_absent (w : world) (text : string) :
  disk w = Some text ->
  json_load text = None ->
  load_liked_songs_from_disk w
  = (Ok (VNone, VNone),
     set_stdout (stdout w ++ [[Lit "Error reading cache file: "; Exc JSONDecodeError]])%list w).
Proof.
  intros Hdisk Hload. unfold load_liked_songs_from_disk. rewrite Hdisk.
  unfold try_except, bind, lift. rewrite Hload. reflexivity.
Qed.

(** Text that [json.load] reads as anything but a dict makes
    [load_liked_songs_from_disk] raise: [AttributeError] is not among the
    exceptions it catches. *)
Lemma load_not_a_dict_raises (w : world) (text : string) (v : value) :
  disk w = Some text ->
  json_load text = Some v ->
  (forall kv, v <> VDict kv) ->
  load_liked_songs_from_disk w = (Raise AttributeError, w).
Proof.
  intros Hdisk Hload Hv. unfold load_liked_songs_from_disk. rewrite Hdisk.
  unfold try_except, bind, lift. rewrite Hload.
  destruct v; try reflexivity. contradiction (Hv kv). reflexivity.
Qed.

(** With undecodable text in the cache file and every request going
    through, the controller makes the full fetch. *)
Lemma get_liked_songs_undecodable (save_to_disk : bool) (w : world) (text : string) :
  faults w = [] ->
  disk w = Some text ->
  json_load text = None ->
  exists w',
    get_liked_songs save_to_disk true w = (Ok (VList (liked w)), w')
    /\ calls w' = (calls w ++ saved_tracks_pass (liked w))%list.
Proof.
  intros Hw Hdisk Hload. unfold get_liked_songs.
  rewrite (bind_ok _ _ _ _ _ _ _ (load_undecodable_as_absent w text Hdisk Hload)).
  cbn [fst snd].
  match goal with
  | |- context [fetch_all_liked_songs save_to_disk ?w1] =>
      destruct (fetch_all_liked_songs_reliable save_to_disk w1 Hw)
        as (w' & Hrun & Hcalls & _)
  end.
  exists w'. split; [exact Hrun | exact Hcalls].
Qed.

(** With any JSON library that reads back the snapshot it wrote,
    [save_liked_songs_to_disk] followed by [load_liked_songs_from_disk]
    yields the same tracks in the same order (with the timestamp of the
    save), and the snapshot in the file has [total_count] equal to the
    number of tracks. *)
Lemma save_then_load_with_codec (tracks : list value) (w : world) :
  json_load (json_dump (cache_data (now w) tracks)) = Some (cache_data (now w) tracks) ->
  exists w1 text snapshot,
    save_liked_songs_to_disk tracks w = (Ok tt, w1)
    /\ disk w1 = Some text
    /\ json_load text = Some snapshot
    /\ subscript snapshot "tracks" = Ok (VList tracks)
    /\ subscript snapshot "total_count" = Ok (VInt (Z.of_nat (List.length tracks)))
    /\ load_liked_songs_from_disk w1 = (Ok (VList tracks, VStr (now w)), w1).
Proof.
  intros Hcodec.
  eexists _, _, _. split; [reflexivity|].
  split; [reflexivity|]. split; [exact Hcodec|].
  split; [reflexivity|]. split; [reflexivity|].
  unfold load_liked_songs_from_disk. cbn [disk set_disk set_stdout].
  unfold try_except, bind, lift. rewrite Hcodec. reflexivity.
Qed.

End CacheFile.

Lemma save_then_load_with_codec_example :
  json_load (json_dump (cache_data (now Sample.unchanged) Sample.eleven_tracks))
  = Some (cache_data (now Sample.unchanged) Sample.eleven_tracks)
  /\ exists w1 text snapshot,
       save_liked_songs_to_disk Sample.eleven_tracks Sample.unchanged = (Ok tt, w1)
       /\ disk w1 = Some text
       /\ json_load text = Some snapshot
       /\ subscript snapshot "tracks" = Ok (VList Sample.eleven_tracks)
       /\ subscript snapshot "total_count" = Ok (VInt 11)
       /\ load_liked_songs_from_disk w1
          = (Ok (VList Sample.eleven_tracks, VStr (now Sample.unchanged)), w1).
Proof.
  split; [vm_compute; reflexivity|].
  apply (save_then_load_with_codec Sample.eleven_tracks Sample.unchanged).
  vm_compute. reflexivity.
Qed.

(** C5, on the code.  A cache file whose text is the JSON list [[]] is not
    a snapshot, yet [load_liked_songs_from_disk] does not answer as for a
    missing file: it raises [AttributeError], and [get_liked_songs] raises
    with it before any request is sent.  Text that is not JSON at all is
    read as a missing file and leads to the full fetch. *)
Theorem malformed_cache_not_a_dict_raises :
  json_load (String "[" (String "]" EmptyString)) = Some (VList [])
  /\ fst (load_liked_songs_from_disk Sample.not_a_snapshot) = Raise AttributeError
  /\ fst (get_liked_songs true true Sample.not_a_snapshot) = Raise AttributeError
  /\ calls (snd (get_liked_songs true true Sample.not_a_snapshot)) = []
  /\ fst (load_liked_songs_from_disk Sample.not_json) = Ok (VNone, VNone)
  /\ fst (get_liked_songs true true Sample.not_json) = Ok (VList Sample.ten_tracks).
Proof.
  repeat split; vm_compute; reflexivity.
Qed.

(** ** Sampling without replacement *)

Section Sampling.

Variable A : Type.

Lemma set_nth_length (j : nat) (x : A) (l : list A) :
  List.length (set_nth j x l) = List.length l.
Proof.
  revert j. induction l as [|h t IH]; intros j; [reflexivity|].
  destruct j; cbn; [reflexivity | rewrite IH; reflexivity].
Qed.

Lemma removelast_cons (h : A) (l : list A) :
  l <> [] -> removelast (h :: l) = h :: removelast l.
Proof. destruct l; [contradiction | reflexivity]. Qed.

(** One step of the loop takes one item out of the pool: the item picked
    and the pool left are, together, the pool as it was. *)
Lemma pick_permutation (pool : list A) :
  forall (j : nat) (d1 d2 : A),
    j < List.length pool ->
    Permutation (nth j pool d1 :: removelast (set_nth j (last pool d2) pool)) pool.
Proof.
  induction pool as [|h t IH]; intros j d1 d2 Hj; [cbn in Hj; lia|].
  destruct t as [|h2 t2].
  - destruct j; [cbn; apply Permutation_refl | cbn in Hj; lia].
  - assert (Hlast : last (h :: h2 :: t2) d2 = last (h2 :: t2) d2) by reflexivity.
    rewrite Hlast.
    destruct j as [|j].
    + cbn [nth set_nth].
      rewrite removelast_cons by discriminate.
      apply perm_skip.
      rewrite (app_removelast_last d2 (l := h2 :: t2)) at 3 by discriminate.
      apply Permutation_cons_append.
    + cbn [nth set_nth].
      rewrite removelast_cons.
      * eapply perm_trans; [apply perm_swap|]. apply perm_skip.
        apply IH. cbn [List.length] in *. lia.
      * intros Hnil. destruct j; discriminate Hnil.
Qed.

(** The loop returns [k] items which, with some rest, make up the pool:
    every place of the pool is drawn at most once. *)
Lemma sample_loop_permutation (k : nat) :
  forall (pool : list A) (t : list nat),
    k <= List.length pool ->
    exists rest,
      Permutation (fst (sample_loop k pool t) ++ rest) pool
      /\ List.length (fst (sample_loop k pool t)) = k.
Proof.
  induction k as [|k IH]; intros pool t Hk.
  - exists pool. split; [apply Permutation_refl | reflexivity].
  - destruct pool as [|p0 pool0]; [cbn in Hk; lia|].
    cbn [sample_loop].
    set (pool := p0 :: pool0) in *.
    set (j := randbelow (List.length pool) (hd 0 t)).
    assert (Hj : j < List.length pool).
    { unfold j, randbelow. apply Nat.mod_upper_bound. unfold pool. cbn. lia. }
    pose proof (pick_permutation pool j p0 p0 Hj) as Hpick.
    set (pool' := removelast (set_nth j (last pool p0) pool)) in *.
    assert (Hlen : List.length pool = S (List.length pool')).
    { rewrite <- (Permutation_length Hpick). reflexivity. }
    destruct (IH pool' (tl t) ltac:(lia)) as (rest & Hperm & Hcount).
    destruct (sample_loop k pool' (tl t)) as [picked t'].
    cbn [fst] in *.
    exists rest. split.
    + cbn [app]. eapply perm_trans; [apply perm_skip; exact Hperm | exact Hpick].
    + cbn [List.length]. rewrite Hcount. reflexivity.
Qed.

Lemma sample_loop_NoDup (k : nat) (pool : list A) (t : list nat) :
  k <= List.length pool ->
  NoDup pool ->
  NoDup (fst (sample_loop k pool t))
  /\ incl (fst (sample_loop k pool t)) pool.
Proof.
  intros Hk Hnodup.
  destruct (sample_loop_permutation k pool t Hk) as (rest & Hperm & _).
  split.
  - apply (NoDup_app_remove_r _ rest).
    apply (Permutation_NoDup (Permutation_sym Hperm) Hnodup).
  - intros x Hx. apply (Permutation_in _ Hperm). apply in_or_app. left. exact Hx.
Qed.

(** Drawing as many items as the pool has returns the pool, rearranged. *)
Lemma sample_loop_all (pool : list A) (t : list nat) :
  Permutation (fst (sample_loop (List.length pool) pool t)) pool.
Proof.
  destruct (sample_loop_permutation (List.length pool) pool t (le_n _))
    as (rest & Hperm & Hcount).
  pose proof (Permutation_length Hperm) as Hlen.
  rewrite length_app, Hcount in Hlen.
  destruct rest; [|cbn in Hlen; lia].
  rewrite app_nil_r in Hperm. exact Hperm.
Qed.

End Sampling.

Lemma last_map (A B : Type) (f : A -> B) (l : list A) (d : A) :
  last (map f l) (f d) = f (last l d).
Proof.
  induction l as [|h t IH]; [reflexivity|].
  destruct t; [reflexivity|]. exact IH.
Qed.

Lemma set_nth_map (A B : Type) (f : A -> B) (j : nat) (x : A) (l : list A) :
  set_nth j (f x) (map f l) = map f (set_nth j x l).
Proof.
  revert j. induction l as [|h t IH]; intros j; [reflexivity|].
  destruct j; cbn; [reflexivity | rewrite IH; reflexivity].
Qed.

Lemma removelast_map (A B : Type) (f : A -> B) (l : list A) :
  removelast (map f l) = map f (removelast l).
Proof.
  induction l as [|h t IH]; [reflexivity|].
  destruct t; [reflexivity|].
  cbn [map] in *. rewrite removelast_cons by discriminate.
  rewrite IH. reflexivity.
Qed.

Lemma sample_loop_step (A : Type) (k : nat) (p0 : A) (pool0 : list A) (t : list nat) :
  sample_loop (S k) (p0 :: pool0) t
  = let pool := p0 :: pool0 in
    let j := randbelow (List.length pool) (hd 0 t) in
    let pool' := removelast (set_nth j (last pool p0) pool) in
    (nth j pool p0 :: fst (sample_loop k pool' (tl t)),
     snd (sample_loop k pool' (tl t))).
Proof.
  cbn [sample_loop].
  destruct (sample_loop k
              (removelast
                 (set_nth (randbelow (List.length (p0 :: pool0)) (hd 0 t))
                          (last (p0 :: pool0) p0) (p0 :: pool0)))
              (tl t)) as [picked t'].
  reflexivity.
Qed.

(** The loop looks at places only: sampling the images of a pool is taking
    the images of the sample. *)
Lemma sample_loop_map (A B : Type) (f : A -> B) (k : nat) :
  forall (pool : list A) (t : list nat),
    sample_loop k (map f pool) t
    = (map f (fst (sample_loop k pool t)), snd (sample_loop k pool t)).
Proof.
  induction k as [|k IH]; intros pool t.
  - destruct pool; reflexivity.
  - destruct pool as [|p0 pool0]; [reflexivity|].
    cbn [map]. rewrite !sample_loop_step. cbn zeta. cbn [fst snd].
    change (f p0 :: map f pool0) with (map f (p0 :: pool0)).
    rewrite length_map, map_nth, last_map, set_nth_map, removelast_map, IH.
    reflexivity.
Qed.

Lemma map_nth_seq (A : Type) (l : list A) (d : A) :
  map (fun i => nth i l d) (seq 0 (List.length l)) = l.
Proof.
  induction l as [|h t IH]; [reflexivity|].
  cbn [List.length seq map nth]. f_equal.
  rewrite <- seq_shift, map_map. exact IH.
Qed.

(** The sample of a list, by the places drawn: [k] distinct places of the
    list, and the items at these places. *)
Lemma sample_loop_positions (items : list value) (k : nat) (t : list nat) :
  k <= List.length items ->
  let positions := fst (sample_loop k (seq 0 (List.length items)) t) in
  fst (sample_loop k items t) = map (fun i => nth i items VNone) positions
  /\ NoDup positions
  /\ Forall (fun i => i < List.length items) positions
  /\ List.length positions = k.
Proof.
  intros Hk positions.
  assert (Hk' : k <= List.length (seq 0 (List.length items)))
    by (rewrite length_seq; exact Hk).
  split; [|split; [|split]].
  - rewrite <- (map_nth_seq _ items VNone) at 1.
    rewrite sample_loop_map. reflexivity.
  - apply sample_loop_NoDup; [exact Hk' | apply seq_NoDup].
  - apply Forall_forall. intros i Hi.
    apply (proj2 (sample_loop_NoDup _ k _ t Hk' (seq_NoDup _ _))) in Hi.
    apply in_seq in Hi. lia.
  - destruct (sample_loop_permutation _ k _ t Hk') as (_ & _ & Hcount). exact Hcount.
Qed.

Section Selection.

Context {lib : PyLib}.

Local Open Scope string_scope.

(** C7.  For a list of items and a requested count [k >= 0], the selection
    step returns the items at distinct places of the list, as many as the
    count in effect.  When [k <= len(items)] the count in effect is [k]
    and nothing but the progress line is printed.  When [k > len(items)]
    the count is clamped to [len(items)], all the items are returned (in
    the order drawn), and the step prints a warning and goes on: it does
    not raise. *)
Theorem selection_distinct_positions (items : list value) (k : Z) (w : world) :
  (0 <= k)%Z ->
  let n := Z.of_nat (List.length items) in
  let effective := Z.min k n in
  exists positions w',
    select_random_songs (VList items) k w
    = (Ok (map (fun i => nth i items VNone) positions, effective), w')
    /\ NoDup positions
    /\ Forall (fun i => (i < List.length items)%nat) positions
    /\ Z.of_nat (List.length positions) = effective
    /\ ((k <= n)%Z ->
        stdout w' = (stdout w ++ [[]; [Lit "Selecting "; Num k;
                                       Lit " random songs..."]])%list)
    /\ ((n < k)%Z ->
        Permutation (map (fun i => nth i items VNone) positions) items
        /\ stdout w'
           = (stdout w
              ++ [[Lit "Warning: You only have "; Num n;
                   Lit " liked songs, but requested "; Num k; Lit "."];
                  [Lit "Using all "; Num n; Lit " songs instead."];
                  [];
                  [Lit "Selecting "; Num n; Lit " random songs..."]])%list).
Proof.
  intros Hk n effective.
  assert (Hle : (Z.to_nat effective <= List.length items)%nat) by (unfold effective, n; lia).
  destruct (sample_loop_positions items (Z.to_nat effective) (tape w) Hle)
    as (Hsel & Hnodup & Hbound & Hcount).
  set (positions := fst (sample_loop (Z.to_nat effective)
                           (seq 0 (List.length items)) (tape w))) in *.
  exists positions.
  unfold select_random_songs, bind, lift, print, ret, random_sample.
  cbn [py_len elements]. fold n.
  destruct (Z.ltb_spec n k) as [Hlt|Hge].
  - assert (Heff : effective = n) by (unfold effective; lia).
    cbn [tape set_stdout stdout].
    replace ((n <? 0)%Z || (n <? n)%Z) with false
      by (symmetry; apply orb_false_iff; split; apply Z.ltb_ge; unfold n; lia).
    rewrite <- Heff.
    destruct (sample_loop (Z.to_nat effective) items (tape w)) as [picked t'] eqn:Hs.
    cbn [fst] in Hsel. subst picked.
    eexists. split; [reflexivity|].
    split; [exact Hnodup|]. split; [exact Hbound|].
    split; [rewrite Hcount; lia|].
    split; [intros Hcontra; lia|].
    intros _. split.
    + assert (Hall : Z.to_nat effective = List.length items) by (unfold n in Heff; lia).
      pose proof (sample_loop_all _ items (tape w)) as Hperm.
      rewrite <- Hall, Hs in Hperm. exact Hperm.
    + cbn. rewrite Heff, <- !app_assoc. reflexivity.
  - assert (Heff : effective = k) by (unfold effective; lia).
    cbn [tape set_stdout stdout].
    replace ((k <? 0)%Z || (n <? k)%Z) with false
      by (symmetry; apply orb_false_iff; split; apply Z.ltb_ge; lia).
    rewrite <- Heff.
    destruct (sample_loop (Z.to_nat effective) items (tape w)) as [picked t'] eqn:Hs.
    cbn [fst] in Hsel. subst picked.
    eexists. split; [reflexivity|].
    split; [exact Hnodup|]. split; [exact Hbound|].
    split; [rewrite Hcount; lia|].
    split; [|intros Hcontra; lia].
    intros _. cbn. rewrite Heff, <- !app_assoc. reflexivity.
Qed.

End Selection.

(** ** Batched replacement *)

Lemma find_playlist_update (id : string) (f : playlist -> playlist)
    (ps : list (string * playlist)) (p : playlist) :
  find_playlist id ps = Some p ->
  find_playlist id (update_playlist id f ps) = Some (f p).
Proof.
  induction ps as [|[id' q] rest IH]; cbn; [discriminate|].
  destruct (String.eqb id id') eqn:Heq; cbn; rewrite Heq.
  - intros H. inversion H. reflexivity.
  - exact IH.
Qed.

Lemma slice_length (A : Type) (l : list A) (i n : nat) :
  List.length (slice l i (i + n)) <= n.
Proof.
  unfold slice. rewrite length_firstn. lia.
Qed.

(** A removal request of at most 100 URIs goes through. *)
Lemma remove_batch_reliable (id : string) (batch : list value) (w : world) :
  serves_playlist id w ->
  List.length batch <= 100 ->
  exists w',
    playlist_remove_all_occurrences_of_items (VStr id) batch w = (Ok tt, w')
    /\ calls w' = calls w ++ [PlaylistRemoveAllOccurrencesOfItems (VStr id) batch]
    /\ serves_playlist id w'.
Proof.
  intros [Hw [p Hp]] Hlen.
  unfold playlist_remove_all_occurrences_of_items.
  rewrite send_reliable by exact Hw.
  unfold batch_ceiling.
  destruct (Nat.ltb_spec 100 (List.length batch)) as [Hgt|_]; [lia|].
  unfold on_playlist. cbn [playlists set_calls]. rewrite Hp.
  unfold modify_playlist. cbn [playlists set_calls].
  eexists. split; [reflexivity|]. cbn.
  split; [reflexivity|]. split; [exact Hw|].
  eexists. apply find_playlist_update. exact Hp.
Qed.

(** An append request of at most 100 URIs goes through. *)
Lemma add_batch_reliable (id : string) (batch : list value) (w : world) :
  serves_playlist id w ->
  List.length batch <= 100 ->
  exists w',
    playlist_add_items (VStr id) batch w = (Ok tt, w')
    /\ calls w' = calls w ++ [PlaylistAddItems (VStr id) batch]
    /\ serves_playlist id w'.
Proof.
  intros [Hw [p Hp]] Hlen.
  unfold playlist_add_items.
  rewrite send_reliable by exact Hw.
  unfold batch_ceiling.
  destruct (Nat.ltb_spec 100 (List.length batch)) as [Hgt|_]; [lia|].
  unfold on_playlist. cbn [playlists set_calls]. rewrite Hp.
  unfold modify_playlist. cbn [playlists set_calls].
  eexists. split; [reflexivity|]. cbn.
  split; [reflexivity|]. split; [exact Hw|].
  eexists. apply find_playlist_update. exact Hp.
Qed.

Section Batches.

Variable id : string.
Variable issue : list value -> M unit.
Variable sent : list value -> request.
Variable after : nat -> list value -> M unit.

Hypothesis issue_reliable :
  forall batch w,
    serves_playlist id w ->
    List.length batch <= 100 ->
    exists w',
      issue batch w = (Ok tt, w')
      /\ calls w' = calls w ++ [sent batch]
      /\ serves_playlist id w'.

Hypothesis after_prints :
  forall i batch w,
    exists out, after i batch w = (Ok tt, set_stdout out w).

Lemma serves_playlist_printed (out : list (list piece)) (w : world) :
  serves_playlist id w -> serves_playlist id (set_stdout out w).
Proof. intros H. exact H. Qed.

Lemma for_each_batch_reliable (uris : list value) (starts : list nat) :
  forall w,
    serves_playlist id w ->
    exists w',
      for_each starts
        (fun i => bind (issue (slice uris i (i + 100)))
                       (fun _ => after i (slice uris i (i + 100)))) w
      = (Ok tt, w')
      /\ calls w' = calls w ++ map (fun i => sent (slice uris i (i + 100))) starts
      /\ serves_playlist id w'.
Proof.
  induction starts as [|i rest IH]; intros w Hserves.
  - exists w. cbn. rewrite app_nil_r. repeat split; try reflexivity; apply Hserves.
  - cbn [for_each map].
    destruct (issue_reliable (slice uris i (i + 100)) w Hserves (slice_length _ _ _ _))
      as (w1 & Hrq & Hcalls1 & Hserves1).
    destruct (after_prints i (slice uris i (i + 100)) w1) as (out & Hafter).
    destruct (IH (set_stdout out w1) (serves_playlist_printed out w1 Hserves1))
      as (w' & Hrest & Hcalls & Hserves').
    exists w'. split; [|split; [|exact Hserves']].
    + unfold bind at 1. unfold bind at 1. rewrite Hrq, Hafter. exact Hrest.
    + rewrite Hcalls. cbn [calls set_stdout]. rewrite Hcalls1, <- app_assoc. reflexivity.
Qed.

(** The batch loop sends the pages of the URI list by hundreds, one request
    per page, in order. *)
Lemma in_batches_reliable (uris : list value) (w : world) :
  serves_playlist id w ->
  exists w',
    in_batches uris issue after w = (Ok tt, w')
    /\ calls w' = calls w ++ map sent (pages 100 uris)
    /\ serves_playlist id w'.
Proof.
  intros Hserves. unfold in_batches.
  destruct (for_each_batch_reliable uris (py_range 0 (List.length uris) 100) w Hserves)
    as (w' & Hrun & Hcalls & Hserves').
  exists w'. split; [exact Hrun|]. split; [|exact Hserves'].
  rewrite Hcalls. rewrite <- (batches_pages uris), map_map. reflexivity.
Qed.

End Batches.

Lemma valid_track_uris_length (members valid : list value) :
  valid_track_uris members = Ok valid ->
  List.length valid <= List.length members.
Proof.
  revert valid. induction members as [|item rest IH]; intros valid H.
  - inversion H. cbn. lia.
  - cbn [valid_track_uris] in H. unfold bindr in H.
    destruct (subscript item "track") as [t|e]; [|discriminate H].
    destruct (truthy t).
    + destruct (subscript t "uri") as [u|e]; [|discriminate H].
      destruct (truthy u).
      * destruct (valid_track_uris rest) as [us|e]; [|discriminate H].
        inversion H. cbn [List.length]. specialize (IH us eq_refl). lia.
      * specialize (IH valid H). cbn [List.length]. lia.
    + specialize (IH valid H). cbn [List.length]. lia.
Qed.

Lemma playlist_items_pass_reliable (id : string) (p : playlist) (w : world) :
  faults w = [] ->
  find_playlist id (playlists w) = Some p ->
  bind (playlist_items (VStr id) 100)
       (fun results =>
          extend_while_next (page_next results) ([] ++ page_items results)) w
  = (Ok (pl_members p),
     set_calls (calls w ++ playlist_items_pass (VStr id) (pl_members p)) w).
Proof.
  intros Hw Hp.
  assert (Hfirst : playlist_items (VStr id) 100 w
                   = (Ok (first_page 100 (pl_members p)),
                      set_calls (calls w ++ [PlaylistItems (VStr id) 100]) w)).
  { unfold playlist_items. rewrite send_reliable by exact Hw.
    unfold on_playlist. cbn [playlists set_calls]. rewrite Hp. reflexivity. }
  rewrite (bind_ok _ _ _ _ _ _ _ Hfirst).
  rewrite extend_while_next_reliable by exact Hw.
  cbn [app calls set_calls]. rewrite first_page_all by lia.
  unfold playlist_items_pass. rewrite <- app_assoc. reflexivity.
Qed.

Lemma nothing_printed (w : world) :
  exists out, ret tt w = (Ok tt, set_stdout out w).
Proof. exists (stdout w). destruct w. reflexivity. Qed.

Lemma line_printed (line : list piece) (w : world) :
  exists out, print line w = (Ok tt, set_stdout out w).
Proof. eexists. reflexivity. Qed.

Section Replacement.

Context {lib : PyLib}.

Local Open Scope string_scope.

(** Clearing, with every request going through: one pass over the
    members, then the valid URIs removed by hundreds. *)
Lemma clear_playlist_reliable (id : string) (p : playlist) (valid : list value)
    (w : world) :
  faults w = [] ->
  find_playlist id (playlists w) = Some p ->
  valid_track_uris (pl_members p) = Ok valid ->
  exists w',
    clear_playlist (VStr id) w = (Ok tt, w')
    /\ calls w' = (calls w ++ playlist_items_pass (VStr id) (pl_members p)
                           ++ map (PlaylistRemoveAllOccurrencesOfItems (VStr id))
                                  (pages 100 valid))%list
    /\ serves_playlist id w'.
Proof.
  intros Hw Hp Hvalid.
  pose proof (playlist_items_pass_reliable id p w Hw Hp) as Hpass.
  unfold clear_playlist.
  set (w1 := set_calls (calls w ++ playlist_items_pass (VStr id) (pl_members p))%list w) in *.
  assert (Hserves1 : serves_playlist id w1) by (split; [exact Hw | exists p; exact Hp]).
  assert (Hshape : forall (B : Type) (k : list value -> M B),
             bind (playlist_items (VStr id) 100)
                  (fun results =>
                     bind (extend_while_next (page_next results) ([] ++ page_items results)) k) w
             = k (pl_members p) w1).
  { intros B k. unfold bind in *.
    destruct (playlist_items (VStr id) 100 w) as [[results|e] w0]; [|discriminate Hpass].
    rewrite Hpass. reflexivity. }
  rewrite Hshape.
  destruct (pl_members p) as [|item rest] eqn:Hmembers.
  - cbn in Hvalid. inversion Hvalid. subst valid.
    eexists. split; [reflexivity|]. cbn [calls set_stdout].
    split; [|exact Hserves1].
    unfold w1. cbn [calls set_calls map pages pages_from List.length]. rewrite app_nil_r. reflexivity.
  - unfold bind at 1. unfold lift at 1. rewrite Hvalid.
    destruct valid as [|u us] eqn:Hus.
    + eexists. split; [reflexivity|]. cbn [calls set_stdout].
      split; [|exact Hserves1].
      unfold w1. cbn [calls set_calls map pages pages_from List.length]. rewrite app_nil_r. reflexivity.
    + rewrite <- Hus in *.
      destruct (in_batches_reliable id
                  (playlist_remove_all_occurrences_of_items (VStr id))
                  (PlaylistRemoveAllOccurrencesOfItems (VStr id))
                  (fun _ _ => ret tt)
                  (remove_batch_reliable id)
                  (fun _ _ w0 => nothing_printed w0)
                  valid w1 Hserves1)
        as (w2 & Hrun & Hcalls & Hserves2).
      unfold bind at 1. rewrite Hrun.
      eexists. split; [reflexivity|]. cbn [calls set_stdout].
      split; [|exact Hserves2].
      rewrite Hcalls. unfold w1. cbn [calls set_calls]. rewrite <- app_assoc. reflexivity.
Qed.

(** Populating, with every request going through: the URIs appended by
    hundreds. *)
Lemma add_tracks_reliable (id : string) (track_uris : list value) (w : world) :
  serves_playlist id w ->
  exists w',
    add_tracks (VStr id) track_uris w = (Ok tt, w')
    /\ calls w' = (calls w ++ map (PlaylistAddItems (VStr id)) (pages 100 track_uris))%list
    /\ serves_playlist id w'.
Proof.
  intros Hserves. unfold add_tracks.
  unfold bind at 1. unfold print at 1.
  unfold bind at 1. unfold print at 1.
  match goal with
  | |- context [in_batches _ _ _ ?w1] =>
      destruct (in_batches_reliable id
                  (playlist_add_items (VStr id))
                  (PlaylistAddItems (VStr id))
                  (fun i batch =>
                     print [Lit "Added batch "; Num (Z.of_nat (i / 100 + 1)); Lit " (";
                            Num (Z.of_nat (List.length batch)); Lit " tracks)"])
                  (add_batch_reliable id)
                  (fun i batch w0 => line_printed _ w0)
                  track_uris w1 Hserves)
        as (w2 & Hrun & Hcalls & Hserves2)
  end.
  exists w2. split; [exact Hrun|]. split; [exact Hcalls | exact Hserves2].
Qed.

(** C8, as amended.  For a destination playlist whose members have the
    valid track URIs [valid] and a URI list [track_uris], clearing then
    populating sends [ceil(len(valid) / 100)] removal requests and
    [ceil(len(track_uris) / 100)] append requests, each with at most 100
    URIs, and the batches are the two lists cut in their order.  The
    members without a track are passed over, so [valid] can be shorter
    than the member list. *)
Theorem replacement_batches (id : string) (p : playlist)
    (valid track_uris : list value) (w : world) :
  faults w = [] ->
  find_playlist id (playlists w) = Some p ->
  valid_track_uris (pl_members p) = Ok valid ->
  exists w1 w2 removals appends,
    clear_playlist (VStr id) w = (Ok tt, w1)
    /\ add_tracks (VStr id) track_uris w1 = (Ok tt, w2)
    /\ calls w2 = (calls w ++ playlist_items_pass (VStr id) (pl_members p)
                           ++ map (PlaylistRemoveAllOccurrencesOfItems (VStr id)) removals
                           ++ map (PlaylistAddItems (VStr id)) appends)%list
    /\ List.length removals = ceil_div (List.length valid) 100
    /\ List.length appends = ceil_div (List.length track_uris) 100
    /\ Forall (fun batch => 1 <= List.length batch <= 100) (removals ++ appends)%list
    /\ List.concat removals = valid
    /\ List.concat appends = track_uris
    /\ List.length valid <= List.length (pl_members p).
Proof.
  intros Hw Hp Hvalid.
  destruct (clear_playlist_reliable id p valid w Hw Hp Hvalid)
    as (w1 & Hclear & Hcalls1 & Hserves1).
  destruct (add_tracks_reliable id track_uris w1 Hserves1)
    as (w2 & Hadd & Hcalls2 & _).
  exists w1, w2, (pages 100 valid), (pages 100 track_uris).
  split; [exact Hclear|]. split; [exact Hadd|].
  split; [rewrite Hcalls2, Hcalls1, <- !app_assoc; reflexivity|].
  split; [apply pages_length; lia|].
  split; [apply pages_length; lia|].
  split; [apply Forall_app; split; apply pages_bounded; lia|].
  split; [apply pages_concat; lia|].
  split; [apply pages_concat; lia|].
  apply valid_track_uris_length. exact Hvalid.
Qed.

End Replacement.

Local Open Scope string_scope.

(** The count of C8 as stated, on the code: the destination has one member,
    so [ceil(1 / 100) = 1] removal batch would be due, but its track is
    null and the flow sends no removal request. *)
Lemma stale_member_not_removed :
  playlist_of (VStr "dest") Sample.stale_destination
  = Some (Sample.destination [Sample.removed_member])
  /\ ceil_div (List.length [Sample.removed_member]) 100 = 1
  /\ fst (clear_playlist (VStr "dest") Sample.stale_destination) = Ok tt
  /\ calls (snd (clear_playlist (VStr "dest") Sample.stale_destination))
     = [PlaylistItems (VStr "dest") 100]
  /\ List.length (filter is_removal
                    (calls (snd (clear_playlist (VStr "dest") Sample.stale_destination))))
     <> ceil_div (List.length [Sample.removed_member]) 100.
Proof.
  repeat split; try (vm_compute; reflexivity).
  vm_compute. discriminate.
Qed.

Lemma replacement_batches_witness :
  faults Sample.small_destination = []
  /\ find_playlist "dest" (playlists Sample.small_destination)
     = Some (Sample.destination
               [Sample.track 1 Sample.T0; Sample.removed_member; Sample.track 2 Sample.T0])
  /\ valid_track_uris
       [Sample.track 1 Sample.T0; Sample.removed_member; Sample.track 2 Sample.T0]
     = Ok [VStr "spotify:track:1"; VStr "spotify:track:2"]
  /\ exists w1 w2 removals appends,
       clear_playlist (VStr "dest") Sample.small_destination = (Ok tt, w1)
       /\ add_tracks (VStr "dest") [VStr "spotify:track:7"] w1 = (Ok tt, w2)
       /\ calls w2 = ([] ++ [PlaylistItems (VStr "dest") 100]
                         ++ map (PlaylistRemoveAllOccurrencesOfItems (VStr "dest")) removals
                         ++ map (PlaylistAddItems (VStr "dest")) appends)%list
       /\ List.length removals = 1
       /\ List.length appends = 1
       /\ Forall (fun batch => 1 <= List.length batch <= 100) (removals ++ appends)%list
       /\ List.concat removals = [VStr "spotify:track:1"; VStr "spotify:track:2"]
       /\ List.concat appends = [VStr "spotify:track:7"]
       /\ 2 <= 3.
Proof.
  split; [reflexivity|].
  split; [vm_compute; reflexivity|].
  split; [vm_compute; reflexivity|].
  apply (replacement_batches "dest"
           (Sample.destination
              [Sample.track 1 Sample.T0; Sample.removed_member; Sample.track 2 Sample.T0])
           [VStr "spotify:track:1"; VStr "spotify:track:2"]
           [VStr "spotify:track:7"]
           Sample.small_destination);
    vm_compute; reflexivity.
Defined.

(** ** The change check and the playlist lookup *)

Section Detection.

Context {lib : PyLib}.

Local Open Scope string_scope.

(** Over the item records of the data model.  For a cache timestamp that
    normalizes to the instant [t0] and a fetched list of item records, the
    new-item list is exactly the items whose added-at field parses and,
    normalized to UTC, strictly exceeds [t0], in the order fetched.  An
    item without the field or with a text that does not parse is passed
    over as not new. *)
Theorem new_items_are_those_added_after (w : world) (s0 : string) (t0 : Z) :
  faults w = [] ->
  offset_shows s0 = true ->
  normalize s0 = Some t0 ->
  forallb item_record (liked w) = true ->
  exists w',
    get_new_liked_songs_since (VStr s0) w
    = (Ok (Some (filter (is_new t0) (liked w))), w')
    /\ calls w' = (calls w ++ saved_tracks_pass (liked w))%list.
Proof.
  intros Hw Hshows Hnorm Hrecords.
  destruct (get_new_liked_songs_since_reliable (VStr s0) w Hw)
    as (w' & Hrun & Hcalls & _).
  exists w'. split; [|exact Hcalls].
  rewrite Hrun. f_equal.
  pose proof (parse_since_normalize s0 Hshows) as Hparse.
  rewrite Hnorm in Hparse. destruct Hparse as (dt & Hdt & Hinst & Haware).
  unfold change_check. rewrite Hdt.
  rewrite (filter_new_tracks_records dt (liked w) Hrecords Haware).
  rewrite Hinst. reflexivity.
Qed.

(** C10.  Whatever exception the lookup of the destination playlist ends
    with, a failure in transit as much as a missing playlist,
    [get_or_create_playlist] catches it and goes on as the creation path;
    when the two requests of that path go through, it asks for the current
    user, creates a new playlist with the given name, visibility and
    description, and returns the record of the playlist created. *)
Theorem lookup_failure_creates_playlist (playlist_id : value)
    (playlist_name description : string) (public : bool)
    (w w1 : world) (e : exn) :
  lookup_playlist playlist_id playlist_name public w = (Raise e, w1) ->
  get_or_create_playlist playlist_id playlist_name description public w
  = create_playlist_instead playlist_name description public e w1
  /\ (faults w1 = [] ->
      let id := hd "new" (new_ids w1) in
      let created := new_playlist_info id playlist_name public description in
      exists w',
        get_or_create_playlist playlist_id playlist_name description public w
        = (Ok (VDict created), w')
        /\ calls w' = (calls w1 ++ [CurrentUser;
                                    UserPlaylistCreate (VStr (user_id w1)) playlist_name
                                                       public description])%list
        /\ playlists w' = (playlists w1
                           ++ [(id, {| pl_info := created; pl_members := [] |})])%list).
Proof.
  intros Hlookup.
  assert (Hcaught :
    get_or_create_playlist playlist_id playlist_name description public w
    = create_playlist_instead playlist_name description public e w1).
  { unfold get_or_create_playlist, try_except. rewrite Hlookup. reflexivity. }
  split; [exact Hcaught|].
  intros Hw1 id created. rewrite Hcaught.
  unfold create_playlist_instead, bind, print, lift, current_user,
    user_playlist_create, send, ret.
  cbn. rewrite Hw1. cbn. rewrite Hw1. cbn.
  eexists. split; [reflexivity|]. cbn.
  split; [rewrite <- app_assoc; reflexivity | reflexivity].
Qed.

End Detection.

Local Open Scope string_scope.

Lemma new_items_are_those_added_after_witness :
  faults Sample.mixed = []
  /\ offset_shows Sample.T0 = true
  /\ normalize Sample.T0 = Some 1709280000000000%Z
  /\ forallb item_record (liked Sample.mixed) = true
  /\ exists w',
       get_new_liked_songs_since (VStr Sample.T0) Sample.mixed
       = (Ok (Some [Sample.track 1 Sample.T1;
                    Sample.track 6 "2024-03-01T03:00:01-05:00"]), w')
       /\ calls w' = [CurrentUserSavedTracks 50].
Proof.
  split; [reflexivity|].
  split; [vm_compute; reflexivity|].
  split; [vm_compute; reflexivity|].
  split; [vm_compute; reflexivity|].
  pose proof (new_items_are_those_added_after Sample.mixed Sample.T0
                1709280000000000%Z
                ltac:(reflexivity) ltac:(vm_compute; reflexivity)
                ltac:(vm_compute; reflexivity) ltac:(vm_compute; reflexivity)) as H.
  vm_compute in H. vm_compute. exact H.
Defined.

Lemma lookup_failure_creates_playlist_witness :
  playlist_of (VStr "dest") Sample.flaky
  = Some (Sample.destination [Sample.track 1 Sample.T0])
  /\ lookup_playlist (VStr "dest") "True Shuffle" false Sample.flaky
     = (Raise ConnectionError,
        snd (lookup_playlist (VStr "dest") "True Shuffle" false Sample.flaky))
  /\ faults (snd (lookup_playlist (VStr "dest") "True Shuffle" false Sample.flaky)) = []
  /\ exists w',
       get_or_create_playlist (VStr "dest") "True Shuffle" "daily" false Sample.flaky
       = (Ok (VDict (new_playlist_info "fresh" "True Shuffle" false "daily")), w')
       /\ calls w' = [GetPlaylist (VStr "dest"); CurrentUser;
                      UserPlaylistCreate (VStr "user") "True Shuffle" false "daily"]
       /\ playlists w'
          = [("dest", Sample.destination [Sample.track 1 Sample.T0]);
             ("fresh", {| pl_info := new_playlist_info "fresh" "True Shuffle" false "daily";
                          pl_members := [] |})].
Proof.
  split; [vm_compute; reflexivity|].
  split; [vm_compute; reflexivity|].
  split; [vm_compute; reflexivity|].
  apply (lookup_failure_creates_playlist (VStr "dest") "True Shuffle" "daily" false
           Sample.flaky
           (snd (lookup_playlist (VStr "dest") "True Shuffle" false Sample.flaky))
           ConnectionError);
    vm_compute; reflexivity.
Defined.

Lemma selection_distinct_positions_witness :
  (0 <= 150)%Z
  /\ exists positions w',
       select_random_songs (VList Sample.five_tracks) 150 Sample.shuffling
       = (Ok (map (fun i => nth i Sample.five_tracks VNone) positions, 5%Z), w')
       /\ NoDup positions
       /\ Forall (fun i => (i < 5)%nat) positions
       /\ Z.of_nat (List.length positions) = 5%Z
       /\ ((150 <= 5)%Z ->
           stdout w' = (stdout Sample.shuffling
                        ++ [[]; [Lit "Selecting "; Num 150; Lit " random songs..."]])%list)
       /\ ((5 < 150)%Z ->
           Permutation (map (fun i => nth i Sample.five_tracks VNone) positions)
                       Sample.five_tracks
           /\ stdout w'
              = (stdout Sample.shuffling
                 ++ [[Lit "Warning: You only have "; Num 5;
                      Lit " liked songs, but requested "; Num 150; Lit "."];
                     [Lit "Using all "; Num 5; Lit " songs instead."];
                     [];
                     [Lit "Selecting "; Num 5; Lit " random songs..."]])%list).
Proof.
  split; [lia|].
  exact (selection_distinct_positions Sample.five_tracks 150 Sample.shuffling
           ltac:(lia)).
Defined.

(** ** Sample runs *)

(** A whole run of [update_true_shuffle] for three songs: the destination
    is found, its one valid track is removed, the saved tracks are fetched
    and cached, and three of them, from distinct places, are appended in
    one batch. *)
Lemma daily_run :
  fst (update_true_shuffle "dest" 3 Sample.daily) = Ok tt
  /\ calls (snd (update_true_shuffle "dest" 3 Sample.daily))
     = [GetPlaylist (VStr "dest");
        PlaylistItems (VStr "dest") 100;
        PlaylistRemoveAllOccurrencesOfItems (VStr "dest") [VStr "spotify:track:1"];
        CurrentUserSavedTracks 50;
        PlaylistAddItems (VStr "dest")
          [VStr "spotify:track:8"; VStr "spotify:track:4"; VStr "spotify:track:9"]]
  /\ disk (snd (update_true_shuffle "dest" 3 Sample.daily))
     = Some (json_dump (cache_data (now Sample.daily) Sample.ten_tracks)).
Proof.
  repeat split; vm_compute; reflexivity.
Qed.

(** Outside the data model: an added-at field that is null is not a
    string, [in] raises [TypeError] on it, and the loop of the change
    check does not catch that exception. *)
Lemma null_added_at_raises :
  item_record (VDict [("added_at", VNone)]) = false
  /\ fst (get_new_liked_songs_since (VStr Sample.T0) Sample.undated) = Raise TypeError.
Proof.
  split; vm_compute; reflexivity.
Qed.

Section BadRecord.

Context {lib : PyLib}.

Local Open Scope string_scope.

(** The loop over the fetched items stops with [TypeError] at the first
    item whose added-at field is null: ['Z' in None] raises it, and
    [except (ValueError, KeyError)] lets it through. *)
Lemma filter_new_tracks_null_added_at (since_dt : datetime)
    (before rest : list value) (item : value) :
  subscript item "added_at" = Ok VNone ->
  forall new_tracks new_tracks',
    filter_new_tracks since_dt before new_tracks = Ok new_tracks' ->
    filter_new_tracks since_dt (before ++ item :: rest) new_tracks = Raise TypeError.
Proof.
  intros Hnull. induction before as [|x before IH]; intros new_tracks new_tracks' Hbefore.
  - cbn [app filter_new_tracks]. unfold added_after. rewrite Hnull. reflexivity.
  - cbn [app filter_new_tracks] in Hbefore |- *.
    destruct (added_after since_dt x) as [[|]|e].
    + exact (IH _ _ Hbefore).
    + exact (IH _ _ Hbefore).
    + destruct (is_ValueError e || is_KeyError e); [|discriminate Hbefore].
      exact (IH _ _ Hbefore).
Qed.

End BadRecord.

(** C3, on the code.  The cache instant T0 parses, and the fetched list
    holds ten good records and one record whose added-at field is null.
    The loop of [get_new_liked_songs_since] does not pass over that
    record: ['Z' in added_at_str] raises [TypeError], which
    [except (ValueError, KeyError)] does not catch, so the whole detection
    fails, and [get_liked_songs] fails with it after the one pass of the
    check, returning neither the cached list nor a fresh one.  A record
    without the field and a record whose text does not parse are passed
    over as not new, as the claim says, and the comparison is strict. *)
Theorem null_added_at_fails_detection :
  normalize Sample.T0 = Some 1709280000000000%Z
  /\ subscript Cases.undated_record "added_at" = Ok VNone
  /\ List.length (liked Cases.one_undated) = 11
  /\ fst (get_new_liked_songs_since (VStr Sample.T0) Cases.one_undated)
     = Raise TypeError
  /\ fst (get_liked_songs true true Cases.one_undated) = Raise TypeError
  /\ calls (snd (get_liked_songs true true Cases.one_undated))
     = [CurrentUserSavedTracks 50]
  /\ fst (get_new_liked_songs_since (VStr Sample.T0) Sample.mixed)
     = Ok (Some [Sample.track 1 Sample.T1;
                 Sample.track 6 "2024-03-01T03:00:01-05:00"]).
Proof.
  repeat split; vm_compute; reflexivity.
Qed.

Lemma banner_width :
  banner = [Lit (String.concat EmptyString (repeat "=" 80))].
Proof. vm_compute. reflexivity. Qed.

(** ** The reference JSON library reads back what it writes *)

Module ReferenceRoundTrip.

Import Reference.

Local Open Scope string_scope.

Lemma append_assoc (a b c : string) : (a ++ b) ++ c = a ++ (b ++ c).
Proof. induction a as [|x a IH]; cbn; [reflexivity | rewrite IH; reflexivity]. Qed.

Lemma append_length (a b : string) :
  String.length (a ++ b) = (String.length a + String.length b)%nat.
Proof. induction a as [|x a IH]; cbn; [reflexivity | rewrite IH; reflexivity]. Qed.

Lemma digit_digit_char (d : Z) :
  (0 <= d < 10)%Z -> digit (digit_char d) = Some d.
Proof.
  intros H.
  assert (Hd : (d = 0 \/ d = 1 \/ d = 2 \/ d = 3 \/ d = 4 \/ d = 5 \/ d = 6
                \/ d = 7 \/ d = 8 \/ d = 9)%Z) by lia.
  repeat (destruct Hd as [Hd|Hd]; [subst d; reflexivity|]).
  subst d. reflexivity.
Qed.

Lemma natural_stops (n : Z) (rest : string) :
  no_digit rest -> natural n true rest = Some (n, rest).
Proof.
  destruct rest as [|c rest]; cbn; [reflexivity|].
  intros H. rewrite H. reflexivity.
Qed.

(** Reading back the digits written: the number read so far is shifted and
    the number written is added. *)
Lemma natural_digits_of (fuel : nat) :
  forall n : Z,
    (0 <= n)%Z -> (1 <= fuel)%nat -> (n < 2 ^ Z.of_nat fuel)%Z ->
    exists m : Z,
      forall (acc : string) (a : Z) (any : bool) (rest : string),
        natural a any (digits_of fuel n acc ++ rest)
        = natural (a * m + n) true (acc ++ rest).
Proof.
  induction fuel as [|fuel IH]; intros n Hn Hfuel Hbound; [lia|].
  cbn [digits_of].
  destruct (Z.ltb_spec n 10) as [Hsmall|Hbig].
  - exists 10%Z. intros acc a any rest. cbn [append natural].
    rewrite Z.mod_small by lia.
    rewrite digit_digit_char by lia.
    f_equal. lia.
  - assert (Hf : (1 <= fuel)%nat).
    { destruct fuel; [cbn in Hbound; lia | lia]. }
    assert (Hdiv : (n / 10 < 2 ^ Z.of_nat fuel)%Z).
    { rewrite Nat2Z.inj_succ, Z.pow_succ_r in Hbound by lia.
      apply Z.div_lt_upper_bound; lia. }
    destruct (IH (n / 10)%Z ltac:(apply Z.div_pos; lia) Hf Hdiv) as (m & Hm).
    exists (10 * m)%Z. intros acc a any rest.
    rewrite Hm. cbn [append natural].
    rewrite digit_digit_char by (apply Z.mod_pos_bound; lia).
    f_equal.
    pose proof (Z.div_mod n 10 ltac:(lia)). lia.
Qed.

(** The digits written start with a digit. *)
Lemma digits_of_head (fuel : nat) :
  forall (n : Z) (acc : string),
    (0 <= n)%Z -> (1 <= fuel)%nat ->
    exists d r, (0 <= d < 10)%Z /\ digits_of fuel n acc = String (digit_char d) r.
Proof.
  induction fuel as [|fuel IH]; intros n acc Hn Hfuel; [lia|].
  cbn [digits_of].
  destruct (Z.ltb_spec n 10) as [Hsmall|Hbig].
  - exists (n mod 10)%Z, acc. split; [apply Z.mod_pos_bound; lia | reflexivity].
  - destruct fuel as [|fuel].
    + cbn. exists (n mod 10)%Z, acc. split; [apply Z.mod_pos_bound; lia | reflexivity].
    + apply IH; [apply Z.div_pos; lia | lia].
Qed.

Lemma log2_bound (n : Z) :
  (0 <= n)%Z -> (n < 2 ^ Z.of_nat (S (Z.to_nat (Z.log2 n))))%Z.
Proof.
  intros Hn. rewrite Nat2Z.inj_succ, Z2Nat.id by apply Z.log2_nonneg.
  destruct (Z.eq_dec n 0) as [->|Hnz]; [vm_compute; reflexivity|].
  apply Z.log2_spec. lia.
Qed.

(** A number written is read back, up to where the digits end. *)
Lemma number_decimal (z : Z) (rest : string) :
  no_digit rest -> number (decimal z ++ rest) = Some (VInt z, rest).
Proof.
  intros Hrest. unfold decimal.
  destruct (Z.ltb_spec z 0) as [Hneg|Hpos].
  - cbn [append number]. cbn [Ascii.eqb Bool.eqb].
    destruct (natural_digits_of (S (Z.to_nat (Z.log2 (- z)))) (- z)%Z
                ltac:(lia) ltac:(lia) (log2_bound (- z) ltac:(lia))) as (m & Hm).
    rewrite Hm. cbn [append].
    rewrite natural_stops by exact Hrest.
    f_equal. f_equal. f_equal. lia.
  - destruct (digits_of_head (S (Z.to_nat (Z.log2 z))) z EmptyString Hpos ltac:(lia))
      as (d & r & Hd & Hhead).
    destruct (natural_digits_of (S (Z.to_nat (Z.log2 z))) z Hpos ltac:(lia)
                (log2_bound z Hpos)) as (m & Hm).
    unfold number.
    rewrite Hhead at 1. cbn [append].
    assert (Hminus : Ascii.eqb (digit_char d) "-" = false).
    { assert (Hdd : (d = 0 \/ d = 1 \/ d = 2 \/ d = 3 \/ d = 4 \/ d = 5 \/ d = 6
                     \/ d = 7 \/ d = 8 \/ d = 9)%Z) by lia.
      repeat (destruct Hdd as [Hdd|Hdd]; [subst d; reflexivity|]).
      subst d. reflexivity. }
    rewrite Hminus.
    rewrite Hm. cbn [append].
    rewrite natural_stops by exact Hrest.
    f_equal.
Qed.

Lemma string_body_escape (s rest : string) :
  string_body (escape s ++ String dquote rest) = Some (s, rest).
Proof.
  induction s as [|c s IH].
  - cbn. reflexivity.
  - cbn [escape].
    destruct (Ascii.eqb c dquote) eqn:E1.
    { apply Ascii.eqb_eq in E1. subst c. cbn. cbn in IH. rewrite IH. reflexivity. }
    destruct (Ascii.eqb c backslash) eqn:E2.
    { apply Ascii.eqb_eq in E2. subst c. cbn. cbn in IH. rewrite IH. reflexivity. }
    destruct (Ascii.eqb c (ascii_of_nat 10)) eqn:E3.
    { apply Ascii.eqb_eq in E3. subst c. cbn. cbn in IH. rewrite IH. reflexivity. }
    destruct (Ascii.eqb c (ascii_of_nat 13)) eqn:E4.
    { apply Ascii.eqb_eq in E4. subst c. cbn. cbn in IH. rewrite IH. reflexivity. }
    destruct (Ascii.eqb c (ascii_of_nat 9)) eqn:E5.
    { apply Ascii.eqb_eq in E5. subst c. cbn. cbn in IH. rewrite IH. reflexivity. }
    cbn [append string_body]. rewrite E1, E2, IH. reflexivity.
Qed.

(** A string literal written is read back. *)
Lemma string_body_quote (s rest : string) :
  exists body,
    quote s ++ rest = String dquote body
    /\ string_body body = Some (s, rest).
Proof.
  exists (escape s ++ String dquote rest). split.
  - unfold quote. cbn [append]. rewrite append_assoc. reflexivity.
  - apply string_body_escape.
Qed.

(** *** Layout *)

Lemma blank_empty : blank EmptyString.
Proof. intros s. reflexivity. Qed.

Lemma blank_spaces (k : nat) : blank (spaces k).
Proof. intros s. induction k as [|k IH]; cbn; [reflexivity | exact IH]. Qed.

Lemma blank_indent (k : nat) : blank (newline ++ spaces k).
Proof. intros s. cbn. apply blank_spaces. Qed.

Lemma blank_space : blank " ".
Proof. intros s. reflexivity. Qed.

Lemma skip_spaces_idem (s : string) : skip_spaces (skip_spaces s) = skip_spaces s.
Proof.
  induction s as [|c s IH]; [reflexivity|].
  cbn. destruct (is_space c) eqn:E; [exact IH|]. cbn. rewrite E. reflexivity.
Qed.

Lemma parse_value_skip (fuel : nat) (s : string) :
  parse_value fuel (skip_spaces s) = parse_value fuel s.
Proof.
  destruct fuel; [reflexivity|]. cbn [parse_value].
  rewrite skip_spaces_idem. reflexivity.
Qed.

Lemma parse_value_blank (fuel : nat) (ws s : string) :
  blank ws -> parse_value fuel (ws ++ s) = parse_value fuel s.
Proof.
  intros H. rewrite <- parse_value_skip, H, parse_value_skip. reflexivity.
Qed.

Lemma ten_cases (d : Z) (P : Z -> Prop) :
  (0 <= d < 10)%Z ->
  P 0%Z -> P 1%Z -> P 2%Z -> P 3%Z -> P 4%Z ->
  P 5%Z -> P 6%Z -> P 7%Z -> P 8%Z -> P 9%Z -> P d.
Proof.
  intros H H0 H1 H2 H3 H4 H5 H6 H7 H8 H9.
  assert (Hd : (d = 0 \/ d = 1 \/ d = 2 \/ d = 3 \/ d = 4 \/ d = 5 \/ d = 6
                \/ d = 7 \/ d = 8 \/ d = 9)%Z) by lia.
  repeat (destruct Hd as [Hd|Hd]; [subst d; assumption|]).
  subst d. assumption.
Qed.

Lemma decimal_head (z : Z) :
  exists c r, decimal z = String c r
              /\ (c = "-"%char \/ exists d, (0 <= d < 10)%Z /\ c = digit_char d).
Proof.
  unfold decimal. destruct (Z.ltb_spec z 0) as [Hneg|Hpos].
  - eexists _, _. split; [reflexivity | left; reflexivity].
  - destruct (digits_of_head (S (Z.to_nat (Z.log2 z))) z EmptyString Hpos ltac:(lia))
      as (d & r & Hd & Hhead).
    exists (digit_char d), r. split; [exact Hhead|]. right. exists d. split; [exact Hd | reflexivity].
Qed.

(** A number is read where a value is expected. *)
Lemma parse_value_number (fuel : nat) (z : Z) (rest : string) :
  no_digit rest ->
  parse_value (S fuel) (decimal z ++ rest) = Some (VInt z, rest).
Proof.
  intros Hrest. rewrite <- (number_decimal z rest Hrest).
  destruct (decimal_head z) as (c & r & Heq & Hc). rewrite Heq.
  destruct Hc as [->|(d & Hd & ->)]; [reflexivity|].
  apply (ten_cases d (fun d => parse_value (S fuel) (String (digit_char d) r ++ rest)
                               = number (String (digit_char d) r ++ rest)) Hd);
    reflexivity.
Qed.

Lemma starts_value_decimal (z : Z) (rest : string) : starts_value (decimal z ++ rest).
Proof.
  destruct (decimal_head z) as (c & r & Heq & Hc). rewrite Heq.
  exists c, (r ++ rest). split; [reflexivity|].
  destruct Hc as [->|(d & Hd & ->)]; [repeat split; reflexivity|].
  apply (ten_cases d (fun d => is_space (digit_char d) = false
                               /\ Ascii.eqb (digit_char d) "]" = false
                               /\ Ascii.eqb (digit_char d) "}" = false) Hd);
    repeat split; reflexivity.
Qed.

Lemma starts_value_dump (depth : nat) (v : value) (rest : string) :
  starts_value (dump depth v ++ rest).
Proof.
  destruct v as [|b|z|s|l|kv].
  - eexists _, _. split; [reflexivity | repeat split; reflexivity].
  - destruct b; eexists _, _; (split; [reflexivity | repeat split; reflexivity]).
  - apply starts_value_decimal.
  - eexists _, _. split; [reflexivity | repeat split; reflexivity].
  - destruct l; eexists _, _; (split; [reflexivity | repeat split; reflexivity]).
  - destruct kv; eexists _, _; (split; [reflexivity | repeat split; reflexivity]).
Qed.

Lemma skip_spaces_starts_value (s : string) :
  starts_value s -> skip_spaces s = s.
Proof.
  intros (c & r & -> & Hspace & _). cbn. rewrite Hspace. reflexivity.
Qed.

(** *** Values *)

Lemma no_digit_indent (k : nat) (s : string) : no_digit ((newline ++ spaces k) ++ s).
Proof. reflexivity. Qed.

Lemma no_digit_comma (s : string) : no_digit (String "," s).
Proof. reflexivity. Qed.

Lemma join_cons (sep a b : string) (bs : list string) :
  join sep (a :: b :: bs) = a ++ sep ++ join sep (b :: bs).
Proof. reflexivity. Qed.

Lemma elements_go_on (fuel : nat) (text s : string) (v : value) :
  parse_value fuel text = Some (v, String "," s) ->
  parse_elements (S fuel) text
  = match parse_elements fuel s with
    | Some (l, after) => Some (v :: l, after)
    | None => None
    end.
Proof. intros H. cbn [parse_elements]. rewrite H. reflexivity. Qed.

Lemma elements_end (fuel : nat) (text ws tail : string) (v : value) :
  blank ws ->
  parse_value fuel text = Some (v, ws ++ String "]" tail) ->
  parse_elements (S fuel) text = Some ([v], tail).
Proof.
  intros Hws H. cbn [parse_elements]. rewrite H, Hws. reflexivity.
Qed.

Section Containers.

Variable n : nat.

Hypothesis parse_dump_smaller :
  forall v, (value_size v <= n)%nat ->
  forall depth fuel rest,
    (value_size v <= fuel)%nat -> no_digit rest ->
    parse_value fuel (dump depth v ++ rest) = Some (v, rest).

Lemma parse_elements_join (depth k1 k2 : nat) (l : list value) :
  forall (x : value) (ws tail : string) (fuel : nat),
    blank ws ->
    Forall (fun y => (value_size y <= n)%nat) (x :: l) ->
    (list_sum (map (fun y => S (value_size y)) (x :: l)) <= fuel)%nat ->
    parse_elements fuel
      (ws ++ join ("," ++ newline ++ spaces k1) (map (dump depth) (x :: l))
          ++ (newline ++ spaces k2) ++ String "]" tail)
    = Some (x :: l, tail).
Proof.
  induction l as [|y l IH]; intros x ws tail fuel Hws Hall Hfuel.
  - cbn in Hfuel. cbn [map join].
    destruct fuel as [|fuel]; [lia|].
    apply (elements_end fuel _ (newline ++ spaces k2) tail x (blank_indent k2)).
    rewrite parse_value_blank by exact Hws.
    apply parse_dump_smaller;
      [inversion Hall; assumption | lia | apply no_digit_indent].
  - cbn in Hfuel.
    change (map (dump depth) (x :: y :: l))
      with (dump depth x :: dump depth y :: map (dump depth) l).
    rewrite join_cons.
    change (dump depth y :: map (dump depth) l) with (map (dump depth) (y :: l)).
    destruct fuel as [|fuel]; [lia|].
    rewrite (elements_go_on fuel _
               ((newline ++ spaces k1)
                  ++ join ("," ++ newline ++ spaces k1) (map (dump depth) (y :: l))
                  ++ (newline ++ spaces k2) ++ String "]" tail) x).
    + rewrite IH; [reflexivity | apply blank_indent
                   | inversion Hall; assumption | cbn; lia].
    + rewrite parse_value_blank by exact Hws.
      rewrite !append_assoc.
      rewrite parse_dump_smaller;
        [| inversion Hall; assumption | lia | apply no_digit_comma].
      reflexivity.
Qed.

End Containers.

(** What [parse_members] does with one member written, up to the value. *)
Lemma members_value (fuel : nat) (ws key T : string) :
  blank ws ->
  parse_members (S fuel) (ws ++ quote key ++ ": " ++ T)
  = match parse_value fuel T with
    | Some (v, after) =>
        match skip_spaces after with
        | EmptyString => None
        | String c rest =>
            if Ascii.eqb c ","
            then match parse_members fuel rest with
                 | Some (kv, after') => Some ((key, v) :: kv, after')
                 | None => None
                 end
            else if Ascii.eqb c "}" then Some ([(key, v)], rest)
            else None
        end
    | None => None
    end.
Proof.
  intros Hws. cbn [parse_members]. rewrite Hws.
  destruct (string_body_quote key (": " ++ T)) as (body & Heq & Hbody).
  rewrite Heq.
  change (expect dquote (skip_spaces (String dquote body))) with (Some body).
  cbv beta iota. rewrite Hbody.
  change (expect ":" (skip_spaces (": " ++ T))) with (Some (" " ++ T)).
  cbv beta iota. rewrite (parse_value_blank fuel " " T blank_space).
  reflexivity.
Qed.

Lemma members_go_on (fuel : nat) (ws key T s : string) (v : value) :
  blank ws ->
  parse_value fuel T = Some (v, String "," s) ->
  parse_members (S fuel) (ws ++ quote key ++ ": " ++ T)
  = match parse_members fuel s with
    | Some (kv, after) => Some ((key, v) :: kv, after)
    | None => None
    end.
Proof.
  intros Hws H. rewrite members_value by exact Hws. rewrite H. reflexivity.
Qed.

Lemma members_end (fuel : nat) (ws key T ws' tail : string) (v : value) :
  blank ws -> blank ws' ->
  parse_value fuel T = Some (v, ws' ++ String "}" tail) ->
  parse_members (S fuel) (ws ++ quote key ++ ": " ++ T) = Some ([(key, v)], tail).
Proof.
  intros Hws Hws' H. rewrite members_value by exact Hws. rewrite H, Hws'. reflexivity.
Qed.

Section Members.

Variable n : nat.

Hypothesis parse_dump_smaller :
  forall v, (value_size v <= n)%nat ->
  forall depth fuel rest,
    (value_size v <= fuel)%nat -> no_digit rest ->
    parse_value fuel (dump depth v ++ rest) = Some (v, rest).

Lemma parse_members_join (depth k1 k2 : nat) (kv : list (string * value)) :
  forall (p : string * value) (ws tail : string) (fuel : nat),
    blank ws ->
    Forall (fun q => (value_size (snd q) <= n)%nat) (p :: kv) ->
    (list_sum (map (fun q : string * value => S (value_size (snd q))) (p :: kv)) <= fuel)%nat ->
    parse_members fuel
      (ws ++ join ("," ++ newline ++ spaces k1) (map (member_text depth) (p :: kv))
          ++ (newline ++ spaces k2) ++ String "}" tail)
    = Some (p :: kv, tail).
Proof.
  induction kv as [|q kv IH]; intros [k x] ws tail fuel Hws Hall Hfuel.
  - cbn in Hfuel. cbn [map join member_text].
    destruct fuel as [|fuel]; [lia|].
    rewrite !append_assoc.
    apply (members_end fuel ws k _ (newline ++ spaces k2) tail x Hws (blank_indent k2)).
    apply parse_dump_smaller;
      [inversion Hall; assumption | lia | apply no_digit_indent].
  - cbn in Hfuel.
    change (map (member_text depth) ((k, x) :: q :: kv))
      with (member_text depth (k, x) :: member_text depth q :: map (member_text depth) kv).
    rewrite join_cons.
    change (member_text depth q :: map (member_text depth) kv)
      with (map (member_text depth) (q :: kv)).
    destruct fuel as [|fuel]; [lia|].
    cbn [member_text].
    rewrite !append_assoc.
    rewrite (members_go_on fuel ws k _
               ((newline ++ spaces k1)
                  ++ join ("," ++ newline ++ spaces k1) (map (member_text depth) (q :: kv))
                  ++ (newline ++ spaces k2) ++ String "}" tail) x Hws).
    + rewrite IH; [reflexivity | apply blank_indent
                   | inversion Hall; assumption | cbn; lia].
    + rewrite parse_dump_smaller;
        [| inversion Hall; assumption | lia | apply no_digit_comma].
      rewrite !append_assoc. reflexivity.
Qed.

End Members.

Lemma dump_list (depth : nat) (x : value) (l : list value) :
  dump depth (VList (x :: l))
  = "[" ++ (newline ++ spaces (2 * S depth))
        ++ join ("," ++ newline ++ spaces (2 * S depth)) (map (dump (S depth)) (x :: l))
        ++ (newline ++ spaces (2 * depth)) ++ "]".
Proof. reflexivity. Qed.

Lemma dump_dict (depth : nat) (p : string * value) (kv : list (string * value)) :
  dump depth (VDict (p :: kv))
  = "{" ++ (newline ++ spaces (2 * S depth))
        ++ join ("," ++ newline ++ spaces (2 * S depth))
                (map (member_text (S depth)) (p :: kv))
        ++ (newline ++ spaces (2 * depth)) ++ "}".
Proof. reflexivity. Qed.

Lemma append_assoc4 (a b c d e rest : string) :
  (a ++ b ++ c ++ d ++ e) ++ rest = a ++ b ++ c ++ d ++ (e ++ rest).
Proof. rewrite !append_assoc. reflexivity. Qed.

Lemma join_head (A : Type) (f : A -> string) (sep : string) (x : A) (l : list A)
    (t : string) :
  exists t', join sep (map f (x :: l)) ++ t = f x ++ t'.
Proof.
  destruct l as [|y l].
  - exists t. reflexivity.
  - eexists. cbn [map]. rewrite join_cons, append_assoc. reflexivity.
Qed.

Lemma starts_value_member (depth : nat) (p : string * value) (t : string) :
  starts_value (member_text depth p ++ t).
Proof.
  destruct p as [k x]. eexists _, _.
  split; [reflexivity | repeat split; reflexivity].
Qed.

Lemma value_list (fuel : nat) (ws X : string) :
  blank ws -> starts_value X ->
  parse_value (S fuel) (String "[" (ws ++ X))
  = match parse_elements fuel (ws ++ X) with
    | Some (l, after) => Some (VList l, after)
    | None => None
    end.
Proof.
  intros Hws (c & r & -> & Hspace & Hbracket & _).
  cbn [parse_value].
  change (skip_spaces (String "[" (ws ++ String c r))) with (String "[" (ws ++ String c r)).
  cbv beta iota.
  change (Ascii.eqb "[" "[") with true. cbv beta iota.
  rewrite Hws. cbn [skip_spaces]. rewrite Hspace, Hbracket. reflexivity.
Qed.

Lemma value_dict (fuel : nat) (ws X : string) :
  blank ws -> starts_value X ->
  parse_value (S fuel) (String "{" (ws ++ X))
  = match parse_members fuel (ws ++ X) with
    | Some (kv, after) => Some (VDict kv, after)
    | None => None
    end.
Proof.
  intros Hws (c & r & -> & Hspace & _ & Hbrace).
  cbn [parse_value].
  change (skip_spaces (String "{" (ws ++ String c r))) with (String "{" (ws ++ String c r)).
  cbv beta iota.
  change (Ascii.eqb "{" "[") with false. change (Ascii.eqb "{" "{") with true.
  cbv beta iota.
  rewrite Hws. cbn [skip_spaces]. rewrite Hspace, Hbrace. reflexivity.
Qed.

Lemma sizes_bounded (A : Type) (size : A -> nat) (l : list A) (n : nat) :
  (list_sum (map (fun x => S (size x)) l) <= n)%nat ->
  Forall (fun x => (size x <= n)%nat) l.
Proof.
  unfold list_sum.
  induction l as [|x l IH]; intros H; constructor; cbn [map fold_right] in H.
  - lia.
  - apply IH. lia.
Qed.

(** Everything written is read back, with enough fuel, up to where the
    text of the value ends. *)
Lemma parse_dump (n : nat) :
  forall v, (value_size v <= n)%nat ->
  forall depth fuel rest,
    (value_size v <= fuel)%nat -> no_digit rest ->
    parse_value fuel (dump depth v ++ rest) = Some (v, rest).
Proof.
  induction n as [|n IH]; intros v Hn depth fuel rest Hfuel Hrest.
  - destruct v; cbn in Hn; lia.
  - destruct fuel as [|fuel]; [destruct v; cbn in Hfuel; lia|].
    destruct v as [|b|z|s|l|kv].
    + reflexivity.
    + destruct b; reflexivity.
    + apply parse_value_number. exact Hrest.
    + destruct (string_body_quote s rest) as (body & Heq & Hbody).
      cbn [dump]. rewrite Heq. cbn [parse_value].
      change (skip_spaces (String dquote body)) with (String dquote body).
      cbv beta iota.
      change (Ascii.eqb dquote "[") with false.
      change (Ascii.eqb dquote "{") with false.
      change (Ascii.eqb dquote dquote) with true.
      cbv beta iota. rewrite Hbody. reflexivity.
    + destruct l as [|x l]; [reflexivity|].
      cbn [value_size] in Hn, Hfuel.
      rewrite dump_list, append_assoc4.
      change ("[" ++ ?a) with (String "[" a).
      destruct (join_head _ (dump (S depth)) ("," ++ newline ++ spaces (2 * S depth)) x l
                  ((newline ++ spaces (2 * depth)) ++ "]" ++ rest)) as (t' & Ht').
      rewrite value_list;
        [| apply blank_indent | rewrite Ht'; apply starts_value_dump].
      change ("]" ++ rest) with (String "]" rest).
      rewrite (parse_elements_join n IH);
        [reflexivity | apply blank_indent | apply sizes_bounded; lia | lia].
    + destruct kv as [|p kv]; [reflexivity|].
      cbn [value_size] in Hn, Hfuel.
      rewrite dump_dict, append_assoc4.
      change ("{" ++ ?a) with (String "{" a).
      destruct (join_head _ (member_text (S depth)) ("," ++ newline ++ spaces (2 * S depth))
                  p kv ((newline ++ spaces (2 * depth)) ++ "}" ++ rest)) as (t' & Ht').
      rewrite value_dict;
        [| apply blank_indent | rewrite Ht'; apply starts_value_member].
      change ("}" ++ rest) with (String "}" rest).
      rewrite (parse_members_join n IH);
        [reflexivity | apply blank_indent
         | apply (sizes_bounded _ (fun q => value_size (snd q))); lia | lia].
Qed.

(** *** Enough fuel *)

Lemma join_length (A : Type) (size : A -> nat) (f : A -> string) (sep : string)
    (l : list A) :
  forall x,
    (1 <= String.length sep)%nat ->
    Forall (fun y => (size y <= String.length (f y))%nat) (x :: l) ->
    (list_sum (map (fun y => S (size y)) (x :: l))
     <= S (String.length (join sep (map f (x :: l)))))%nat.
Proof.
  unfold list_sum.
  induction l as [|y l IH]; intros x Hsep Hall.
  - cbn. inversion Hall; subst. lia.
  - change (map f (x :: y :: l)) with (f x :: f y :: map f l).
    rewrite join_cons, !append_length.
    change (f y :: map f l) with (map f (y :: l)).
    cbn [map fold_right].
    inversion Hall as [|? ? Hx Hrest]; subst.
    specialize (IH y Hsep Hrest). cbn [map fold_right] in IH. lia.
Qed.

Lemma decimal_length (z : Z) : (1 <= String.length (decimal z))%nat.
Proof.
  destruct (decimal_head z) as (c & r & Heq & _). rewrite Heq. cbn. lia.
Qed.

Lemma value_size_length (n : nat) :
  forall v, (value_size v <= n)%nat ->
  forall depth, (value_size v <= String.length (dump depth v))%nat.
Proof.
  induction n as [|n IH]; intros v Hn depth.
  - destruct v; cbn in Hn; lia.
  - destruct v as [|b|z|s|l|kv].
    + cbn. lia.
    + destruct b; cbn; lia.
    + cbn [value_size dump]. apply decimal_length.
    + cbn. lia.
    + destruct l as [|x l]; [cbn; lia|].
      cbn [value_size] in Hn |- *.
      rewrite dump_list, !append_length.
      assert (Hall : Forall (fun y => (value_size y <= String.length (dump (S depth) y))%nat)
                            (x :: l)).
      { apply Forall_forall. intros y Hy. apply IH.
        pose proof (sizes_bounded _ value_size (x :: l) n ltac:(lia)) as Hb.
        rewrite Forall_forall in Hb. apply Hb. exact Hy. }
      pose proof (join_length _ value_size (dump (S depth))
                    ("," ++ newline ++ spaces (2 * S depth)) l x
                    ltac:(cbn; lia) Hall) as Hjoin.
      cbn [String.length append] in *. lia.
    + destruct kv as [|p kv]; [cbn; lia|].
      cbn [value_size] in Hn |- *.
      rewrite dump_dict, !append_length.
      assert (Hall : Forall (fun q => (value_size (snd q)
                                       <= String.length (member_text (S depth) q))%nat)
                            (p :: kv)).
      { apply Forall_forall. intros [k y] Hy. cbn [snd member_text].
        rewrite !append_length.
        pose proof (sizes_bounded _ (fun q : string * value => value_size (snd q))
                      (p :: kv) n ltac:(lia)) as Hb.
        rewrite Forall_forall in Hb. specialize (Hb _ Hy). cbn [snd] in Hb.
        specialize (IH y Hb (S depth)). lia. }
      pose proof (join_length _ (fun q : string * value => value_size (snd q))
                    (member_text (S depth))
                    ("," ++ newline ++ spaces (2 * S depth)) kv p
                    ltac:(cbn; lia) Hall) as Hjoin.
      cbn [String.length append] in *. lia.
Qed.

Lemma append_empty (s : string) : s ++ EmptyString = s.
Proof. induction s as [|c s IH]; cbn; [reflexivity | rewrite IH; reflexivity]. Qed.

(** The reference library reads back every value it writes. *)
Theorem json_load_dump (v : value) :
  json_load (json_dump v) = Some v.
Proof.
  unfold json_load, json_dump.
  rewrite <- (append_empty (dump 0 v)) at 2.
  rewrite (parse_dump (value_size v) v (le_n _) 0
             (S (String.length (dump 0 v))) EmptyString).
  - reflexivity.
  - pose proof (value_size_length (value_size v) v (le_n _) 0). lia.
  - exact I.
Qed.

End ReferenceRoundTrip.

(** C6.  For every list of tracks and every instant of capture,
    [save_liked_songs_to_disk] followed by [load_liked_songs_from_disk]
    yields the same tracks in the same order, together with the timestamp
    of the save, and the snapshot that [json.load] reads from the file has
    [total_count] equal to the number of tracks.  The JSON library is the
    reference one, which reads back every value it writes. *)
Theorem save_then_load_round_trip (tracks : list value) (w : world) :
  exists w1 text snapshot,
    save_liked_songs_to_disk tracks w = (Ok tt, w1)
    /\ disk w1 = Some text
    /\ json_load text = Some snapshot
    /\ subscript snapshot "tracks" = Ok (VList tracks)
    /\ subscript snapshot "total_count" = Ok (VInt (Z.of_nat (List.length tracks)))
    /\ load_liked_songs_from_disk w1 = (Ok (VList tracks, VStr (now w)), w1).
Proof.
  apply save_then_load_with_codec.
  exact (ReferenceRoundTrip.json_load_dump (cache_data (now w) tracks)).
Qed.

Local Close Scope string_scope.

(** * Further properties *)

(** ** What every run respects *)

Section Respects.

Variable R : world -> world -> Prop.

Hypothesis R_refl : forall w, R w w.
Hypothesis R_trans : forall w1 w2 w3, R w1 w2 -> R w2 w3 -> R w1 w3.
Hypothesis R_stdout : forall w out, R w (set_stdout out w).
Hypothesis R_faults : forall w fs, R w (set_faults fs w).

Lemma respects_ret (A : Type) (a : A) : respects R (ret a).
Proof. intros w r w' H. inversion H. apply R_refl. Qed.

Lemma respects_raise (A : Type) (e : exn) : respects R (@raise A e).
Proof. intros w r w' H. inversion H. apply R_refl. Qed.

Lemma respects_lift (A : Type) (x : result A) : respects R (lift x).
Proof. intros w r w' H. inversion H. apply R_refl. Qed.

Lemma respects_print (line : list piece) : respects R (print line).
Proof. intros w r w' H. inversion H. apply R_stdout. Qed.

Lemma respects_bind (A B : Type) (m : M A) (k : A -> M B) :
  respects R m -> (forall a, respects R (k a)) -> respects R (bind m k).
Proof.
  intros Hm Hk w r w' H. unfold bind in H.
  destruct (m w) as [[a|e] w1] eqn:Hrun.
  - apply (R_trans w w1 w'); [exact (Hm _ _ _ Hrun)|exact (Hk a _ _ _ H)].
  - inversion H. subst. exact (Hm _ _ _ Hrun).
Qed.

Lemma respects_try_except (A : Type) (body : M A) (catches : exn -> bool)
    (handler : exn -> M A) :
  respects R body -> (forall e, respects R (handler e)) ->
  respects R (try_except body catches handler).
Proof.
  intros Hb Hh w r w' H. unfold try_except in H.
  destruct (body w) as [[a|e] w1] eqn:Hrun.
  - inversion H. subst. exact (Hb _ _ _ Hrun).
  - destruct (catches e).
    + apply (R_trans w w1 w'); [exact (Hb _ _ _ Hrun)|exact (Hh e _ _ _ H)].
    + inversion H. subst. exact (Hb _ _ _ Hrun).
Qed.

Lemma respects_for_each (A : Type) (xs : list A) (body : A -> M unit) :
  (forall x, respects R (body x)) -> respects R (for_each xs body).
Proof.
  intros Hbody. induction xs as [|x rest IH]; cbn [for_each].
  - apply respects_ret.
  - apply respects_bind; [apply Hbody|intros _; exact IH].
Qed.

(** A request whose logging [R] allows. *)
Lemma respects_send (A : Type) (rq : request) (serve : M A) :
  (forall w, R w (set_calls (calls w ++ [rq]) w)) ->
  respects R serve -> respects R (send rq serve).
Proof.
  intros Hlog Hs w r w' H. unfold send in H.
  apply (R_trans w (set_calls (calls w ++ [rq]) w) w'); [apply Hlog|].
  destruct (faults (set_calls (calls w ++ [rq]) w)) as [|[e|] fs].
  - exact (Hs _ _ _ H).
  - inversion H. apply R_faults.
  - apply (R_trans _ (set_faults fs (set_calls (calls w ++ [rq]) w)) w');
      [apply R_faults|exact (Hs _ _ _ H)].
Qed.

Section Listing.

Hypothesis R_listing :
  forall w rq, is_listing rq = true -> R w (set_calls (calls w ++ [rq]) w).

Lemma respects_current_user_saved_tracks :
  respects R (current_user_saved_tracks 50).
Proof.
  apply respects_send.
  - intros w. apply R_listing. reflexivity.
  - intros w r w' H. inversion H. apply R_refl.
Qed.

Lemma respects_extend_while_next (nxt : list (list value)) :
  forall tracks, respects R (extend_while_next nxt tracks).
Proof.
  induction nxt as [|p rest IH]; intros tracks; cbn [extend_while_next].
  - apply respects_ret.
  - apply respects_bind.
    + apply respects_send; [intros w; apply R_listing; reflexivity|apply respects_ret].
    + intros results. apply IH.
Qed.

Context {lib : PyLib}.

Lemma respects_load : respects R load_liked_songs_from_disk.
Proof.
  intros w r w' H. unfold load_liked_songs_from_disk in H.
  destruct (disk w) as [text|].
  - revert H. apply respects_try_except.
    + repeat (apply respects_bind; [apply respects_lift|intros ?]). apply respects_ret.
    + intros e. apply respects_bind; [apply respects_print|intros _; apply respects_ret].
  - inversion H. apply R_refl.
Qed.

Lemma respects_get_new_liked_songs_since (since_timestamp : value) :
  respects R (get_new_liked_songs_since since_timestamp).
Proof.
  assert (Hgen : respects R
    (results <- current_user_saved_tracks 50 ;;
     all_tracks <- extend_while_next (page_next results) (page_items results) ;;
     parsed <- try_except
                 (since_dt <- lift (parse_since since_timestamp) ;;
                  ret (Some since_dt))
                 (fun e => is_ValueError e || is_AttributeError e)
                 (fun e =>
                    print [Lit "Error parsing cache timestamp: "; Exc e] ;;
                    ret None) ;;
     match parsed with
     | None => ret None
     | Some since_dt =>
         new_tracks <- lift (filter_new_tracks since_dt all_tracks []) ;;
         ret (Some new_tracks)
     end)).
  { apply respects_bind; [apply respects_current_user_saved_tracks|intros results].
    apply respects_bind; [apply respects_extend_while_next|intros all_tracks].
    apply respects_bind.
    - apply respects_try_except.
      + apply respects_bind; [apply respects_lift|intros ?; apply respects_ret].
      + intros e. apply respects_bind; [apply respects_print|intros _; apply respects_ret].
    - intros [since_dt|]; [|apply respects_ret].
      apply respects_bind; [apply respects_lift|intros ?; apply respects_ret]. }
  destruct since_timestamp; first [exact Hgen | apply respects_ret].
Qed.

(** The full fetch respects whatever its listing requests and its save
    step respect. *)
Lemma respects_fetch_all_liked_songs (save_to_disk : bool) :
  (save_to_disk = true ->
   forall tracks, respects R (save_liked_songs_to_disk tracks)) ->
  respects R (fetch_all_liked_songs save_to_disk).
Proof.
  intros Hsave.
  unfold fetch_all_liked_songs, get_spotify_client.
  apply respects_bind; [apply respects_ret|intros _].
  apply respects_bind; [apply respects_print|intros _].
  apply respects_bind; [apply respects_current_user_saved_tracks|intros results].
  apply respects_bind; [apply respects_extend_while_next|intros tracks].
  apply respects_bind; [|intros _; apply respects_ret].
  destruct save_to_disk; [apply Hsave; reflexivity|apply respects_ret].
Qed.

(** The controller respects whatever its listing requests and its full
    fetch respect. *)
Lemma respects_get_liked_songs (save_to_disk use_cache : bool) :
  respects R (fetch_all_liked_songs save_to_disk) ->
  respects R (get_liked_songs save_to_disk use_cache).
Proof.
  intros Hfetch.
  unfold get_liked_songs. destruct use_cache; [|exact Hfetch].
  apply respects_bind; [apply respects_load|intros [cached_tracks cache_timestamp]].
  cbn [fst snd].
  assert (Hrest : respects R
    (n <- lift (py_len cached_tracks) ;;
     print [Lit "Loaded "; Num n; Lit " liked songs from cache (saved at ";
            Val cache_timestamp; Lit ")"] ;;
     get_spotify_client ;;
     new_tracks <- get_new_liked_songs_since cache_timestamp ;;
     match new_tracks with
     | Some new_tracks =>
         if (0 <? List.length new_tracks)%nat then
           print [Lit "Found "; Num (Z.of_nat (List.length new_tracks));
                  Lit " new liked songs since cache. Updating cache..."] ;;
           fetch_all_liked_songs save_to_disk
         else
           print [Lit "No new liked songs since cache. Using cached data (no API calls needed)."] ;;
           ret cached_tracks
     | None =>
         print [Lit "Could not check for new songs. Fetching all liked songs..."] ;;
         fetch_all_liked_songs save_to_disk
     end)).
  { apply respects_bind; [apply respects_lift|intros n].
    apply respects_bind; [apply respects_print|intros _].
    apply respects_bind; [apply respects_ret|intros _].
    apply respects_bind; [apply respects_get_new_liked_songs_since|intros [new_tracks|]].
    - destruct (0 <? List.length new_tracks)%nat;
        (apply respects_bind; [apply respects_print|intros _]);
        [exact Hfetch|apply respects_ret].
    - apply respects_bind; [apply respects_print|intros _]. exact Hfetch. }
  destruct cached_tracks; first [exact Hfetch | exact Hrest].
Qed.

(** What the runs that raise respect. *)
Lemma respects_failing (A : Type) (m : M A) : respects R m -> failing R m.
Proof. intros H w e w' Hrun. exact (H _ _ _ Hrun). Qed.

Lemma failing_bind (A B : Type) (m : M A) (k : A -> M B) :
  respects R m -> (forall a, failing R (k a)) -> failing R (bind m k).
Proof.
  intros Hm Hk w e w' H. unfold bind in H.
  destruct (m w) as [[a|e1] w1] eqn:Hrun.
  - apply (R_trans w w1 w'); [exact (Hm _ _ _ Hrun)|exact (Hk a _ _ _ H)].
  - inversion H. subst. exact (Hm _ _ _ Hrun).
Qed.

(** A full fetch that raises did so before its save step. *)
Lemma failing_fetch_all_liked_songs (save_to_disk : bool) :
  failing R (fetch_all_liked_songs save_to_disk).
Proof.
  unfold fetch_all_liked_songs, get_spotify_client.
  apply failing_bind; [apply respects_ret|intros _].
  apply failing_bind; [apply respects_print|intros _].
  apply failing_bind; [apply respects_current_user_saved_tracks|intros results].
  apply failing_bind; [apply respects_extend_while_next|intros tracks].
  intros w e w' H. exfalso.
  destruct save_to_disk; unfold bind, save_liked_songs_to_disk, print, ret in H;
    discriminate H.
Qed.

Lemma failing_get_liked_songs (save_to_disk use_cache : bool) :
  failing R (get_liked_songs save_to_disk use_cache).
Proof.
  pose proof (failing_fetch_all_liked_songs save_to_disk) as Hfetch.
  unfold get_liked_songs. destruct use_cache; [|exact Hfetch].
  apply failing_bind; [apply respects_load|intros [cached_tracks cache_timestamp]].
  cbn [fst snd].
  assert (Hrest : failing R
    (n <- lift (py_len cached_tracks) ;;
     print [Lit "Loaded "; Num n; Lit " liked songs from cache (saved at ";
            Val cache_timestamp; Lit ")"] ;;
     get_spotify_client ;;
     new_tracks <- get_new_liked_songs_since cache_timestamp ;;
     match new_tracks with
     | Some new_tracks =>
         if (0 <? List.length new_tracks)%nat then
           print [Lit "Found "; Num (Z.of_nat (List.length new_tracks));
                  Lit " new liked songs since cache. Updating cache..."] ;;
           fetch_all_liked_songs save_to_disk
         else
           print [Lit "No new liked songs since cache. Using cached data (no API calls needed)."] ;;
           ret cached_tracks
     | None =>
         print [Lit "Could not check for new songs. Fetching all liked songs..."] ;;
         fetch_all_liked_songs save_to_disk
     end)).
  { apply failing_bind; [apply respects_lift|intros n].
    apply failing_bind; [apply respects_print|intros _].
    apply failing_bind; [apply respects_ret|intros _].
    apply failing_bind; [apply respects_get_new_liked_songs_since|intros [new_tracks|]].
    - destruct (0 <? List.length new_tracks)%nat;
        (apply failing_bind; [apply respects_print|intros _]);
        [exact Hfetch|apply respects_failing, respects_ret].
    - apply failing_bind; [apply respects_print|intros _]. exact Hfetch. }
  destruct cached_tracks; first [exact Hfetch | exact Hrest].
Qed.

End Listing.

End Respects.

(** ** The relations that are respected *)

Lemma only_listed_refl (w : world) : only_listed w w.
Proof.
  unfold only_listed. repeat split; try reflexivity.
  exists []. rewrite app_nil_r. split; reflexivity.
Qed.

Lemma only_listed_trans (w1 w2 w3 : world) :
  only_listed w1 w2 -> only_listed w2 w3 -> only_listed w1 w3.
Proof.
  intros (Ha & Hb & Hc & Hd & He & Hf & s1 & Hs1 & Hl1)
         (Ha' & Hb' & Hc' & Hd' & He' & Hf' & s2 & Hs2 & Hl2).
  unfold only_listed. repeat split; try congruence.
  exists (s1 ++ s2)%list. split.
  - rewrite Hs2, Hs1, <- app_assoc. reflexivity.
  - rewrite forallb_app, Hl1, Hl2. reflexivity.
Qed.

Lemma only_listed_stdout (w : world) (out : list (list piece)) :
  only_listed w (set_stdout out w).
Proof. exact (only_listed_refl w). Qed.

Lemma only_listed_faults (w : world) (fs : list (option exn)) :
  only_listed w (set_faults fs w).
Proof. exact (only_listed_refl w). Qed.

Lemma only_listed_listing (w : world) (rq : request) :
  is_listing rq = true -> only_listed w (set_calls (calls w ++ [rq]) w).
Proof.
  intros Hrq. unfold only_listed. cbn. repeat split; try reflexivity.
  exists [rq]. split; [reflexivity|]. cbn. rewrite Hrq. reflexivity.
Qed.

Lemma playlists_aside_refl (w : world) : playlists_aside w w.
Proof. unfold playlists_aside. repeat split; reflexivity. Qed.

Lemma playlists_aside_trans (w1 w2 w3 : world) :
  playlists_aside w1 w2 -> playlists_aside w2 w3 -> playlists_aside w1 w3.
Proof.
  unfold playlists_aside.
  intros (Ha & Hb & Hc & Hd & He & Hf) (Ha' & Hb' & Hc' & Hd' & He' & Hf').
  repeat split; congruence.
Qed.

Lemma playlists_aside_stdout (w : world) (out : list (list piece)) :
  playlists_aside w (set_stdout out w).
Proof. exact (playlists_aside_refl w). Qed.

Lemma playlists_aside_faults (w : world) (fs : list (option exn)) :
  playlists_aside w (set_faults fs w).
Proof. exact (playlists_aside_refl w). Qed.

Lemma playlists_aside_calls (w : world) (cs : list request) :
  playlists_aside w (set_calls cs w).
Proof. exact (playlists_aside_refl w). Qed.

Lemma playlists_aside_playlists (w : world) (ps : list (string * playlist)) :
  playlists_aside w (set_playlists ps w).
Proof. exact (playlists_aside_refl w). Qed.

Section CacheFileInvariant.

Context {lib : PyLib}.

Variable save_to_disk : bool.

Lemma cache_kept_or_complete_refl (w : world) :
  cache_kept_or_complete save_to_disk w w.
Proof. unfold cache_kept_or_complete. repeat split; try reflexivity. left. reflexivity. Qed.

Lemma cache_kept_or_complete_trans (w1 w2 w3 : world) :
  cache_kept_or_complete save_to_disk w1 w2 ->
  cache_kept_or_complete save_to_disk w2 w3 ->
  cache_kept_or_complete save_to_disk w1 w3.
Proof.
  unfold cache_kept_or_complete.
  intros (Hn & Hl & Hd) (Hn' & Hl' & Hd').
  repeat split; try congruence.
  destruct Hd' as [Hd'|[Hs Hd']].
  - destruct Hd as [Hd|[Hs Hd]]; [left; congruence|right; split; congruence].
  - right. split; [exact Hs|]. rewrite Hd', Hn, Hl. reflexivity.
Qed.

Lemma cache_kept_or_complete_stdout (w : world) (out : list (list piece)) :
  cache_kept_or_complete save_to_disk w (set_stdout out w).
Proof. exact (cache_kept_or_complete_refl w). Qed.

Lemma cache_kept_or_complete_faults (w : world) (fs : list (option exn)) :
  cache_kept_or_complete save_to_disk w (set_faults fs w).
Proof. exact (cache_kept_or_complete_refl w). Qed.

Lemma cache_kept_or_complete_calls (w : world) (rq : request) :
  cache_kept_or_complete save_to_disk w (set_calls (calls w ++ [rq]) w).
Proof. exact (cache_kept_or_complete_refl w). Qed.

(** The full fetch saves what a complete pass returned, or nothing. *)
Lemma fetch_all_liked_songs_cache_file :
  respects (cache_kept_or_complete save_to_disk) (fetch_all_liked_songs save_to_disk).
Proof.
  pose proof cache_kept_or_complete_refl as Hrefl.
  pose proof cache_kept_or_complete_trans as Htrans.
  pose proof cache_kept_or_complete_stdout as Hout.
  pose proof cache_kept_or_complete_faults as Hfaults.
  assert (Hlisting : forall w rq, is_listing rq = true ->
            cache_kept_or_complete save_to_disk w (set_calls (calls w ++ [rq]) w)).
  { intros w rq _. apply cache_kept_or_complete_calls. }
  intros w r w' H.
  unfold fetch_all_liked_songs, get_spotify_client in H.
  unfold bind at 1 in H. unfold ret at 1 in H.
  unfold bind at 1 in H. unfold print at 1 in H.
  set (w0 := set_stdout (stdout w ++ [[Lit "Fetching liked songs from Spotify API..."]]) w)
    in H.
  assert (Hpass : respects (cache_kept_or_complete save_to_disk)
            (bind (current_user_saved_tracks 50)
               (fun results => extend_while_next (page_next results) (page_items results)))).
  { apply respects_bind; [exact Htrans| |].
    - apply respects_current_user_saved_tracks; assumption.
    - intros results. apply respects_extend_while_next; assumption. }
  destruct (bind (current_user_saved_tracks 50)
              (fun results => extend_while_next (page_next results) (page_items results)) w0)
    as [[tracks|e] w1] eqn:Hrun.
  - pose proof (saved_tracks_pass_ok w0 w1 tracks Hrun) as Hall.
    pose proof (Hpass _ _ _ Hrun) as (Hn & Hl & _).
    assert (H' : bind (if save_to_disk then save_liked_songs_to_disk tracks else ret tt)
                   (fun _ => ret (VList tracks)) w1 = (r, w')).
    { rewrite <- H. unfold bind in Hrun |- *.
      destruct (current_user_saved_tracks 50 w0) as [[results|e] w2]; [|discriminate Hrun].
      rewrite Hrun. reflexivity. }
    destruct save_to_disk.
    + unfold bind, save_liked_songs_to_disk, print, ret in H'. inversion H'.
      unfold cache_kept_or_complete. cbn.
      split; [exact Hn|]. split; [exact Hl|]. right. split; [reflexivity|].
      rewrite Hn, Hall. reflexivity.
    + unfold bind, ret in H'. inversion H'. subst w'. exact (Hpass _ _ _ Hrun).
  - assert (H' : (r, w') = (Raise e, w1)).
    { rewrite <- H. unfold bind in Hrun |- *.
      destruct (current_user_saved_tracks 50 w0) as [[results|e0] w2].
      - rewrite Hrun. reflexivity.
      - inversion Hrun. reflexivity. }
    inversion H'. subst. exact (Hpass _ _ _ Hrun).
Qed.

End CacheFileInvariant.

Section ControllerInvariants.

Context {lib : PyLib}.

Local Open Scope string_scope.

(** X1. However a run of [get_liked_songs] ends and whatever the
    transport does, the cache file afterwards is the one found, or (only
    with [save_to_disk]) the snapshot of the complete remote collection
    stamped with the time of the run: never a partial list. *)
Theorem cache_file_kept_or_complete (save_to_disk use_cache : bool) (w : world) :
  cache_kept_or_complete save_to_disk w
    (snd (get_liked_songs save_to_disk use_cache w)).
Proof.
  destruct (get_liked_songs save_to_disk use_cache w) as [r w'] eqn:Hrun.
  cbn [snd]. revert Hrun.
  apply (respects_get_liked_songs (cache_kept_or_complete save_to_disk)
           (cache_kept_or_complete_refl save_to_disk)
           (cache_kept_or_complete_trans save_to_disk)
           (cache_kept_or_complete_stdout save_to_disk)
           (cache_kept_or_complete_faults save_to_disk)).
  - intros w0 rq _. apply cache_kept_or_complete_calls.
  - apply fetch_all_liked_songs_cache_file.
Qed.

(** X2. A run of [get_liked_songs] that raises leaves the cache file as it
    found it. *)
Theorem failed_run_keeps_cache_file (save_to_disk use_cache : bool) (w w' : world)
    (e : exn) :
  get_liked_songs save_to_disk use_cache w = (Raise e, w') ->
  disk w' = disk w.
Proof.
  intros Hrun.
  apply (failing_get_liked_songs playlists_aside playlists_aside_refl
           playlists_aside_trans playlists_aside_stdout playlists_aside_faults)
    in Hrun.
  - apply Hrun.
  - intros w0 rq _. apply playlists_aside_calls.
Qed.

(** X3. [get_liked_songs] only reads from the service: whatever the
    transport does, every request it sends is
    [current_user_saved_tracks(limit=50)] or the fetch of a next page, and
    the saved tracks, the playlists and the random tape are left as they
    were. *)
Theorem get_liked_songs_only_lists (save_to_disk use_cache : bool) (w : world) :
  let w' := snd (get_liked_songs save_to_disk use_cache w) in
  (exists sent,
     calls w' = (calls w ++ sent)%list
     /\ Forall (fun rq => rq = CurrentUserSavedTracks 50 \/ rq = NextPage) sent)
  /\ liked w' = liked w /\ playlists w' = playlists w /\ tape w' = tape w.
Proof.
  cbv zeta.
  assert (H : only_listed w (snd (get_liked_songs save_to_disk use_cache w))).
  { destruct (get_liked_songs save_to_disk use_cache w) as [r w'] eqn:Hrun.
    cbn [snd]. revert Hrun.
    apply (respects_get_liked_songs only_listed only_listed_refl only_listed_trans
             only_listed_stdout only_listed_faults only_listed_listing).
    apply (respects_fetch_all_liked_songs only_listed only_listed_refl only_listed_trans
             only_listed_stdout only_listed_faults only_listed_listing).
    intros _ tracks w0 r0 w1 H.
    unfold save_liked_songs_to_disk, print in H. inversion H.
    unfold only_listed. cbn. repeat split; try reflexivity.
    exists []. rewrite app_nil_r. split; reflexivity. }
  destruct H as (_ & Hliked & Hplaylists & _ & _ & Htape & sent & Hcalls & Hsent).
  split; [|split; [exact Hliked|split; [exact Hplaylists|exact Htape]]].
  exists sent. split; [exact Hcalls|].
  apply Forall_forall. intros rq Hrq.
  rewrite forallb_forall in Hsent. specialize (Hsent rq Hrq).
  destruct rq; try discriminate Hsent.
  - left. cbn in Hsent. apply Nat.eqb_eq in Hsent. rewrite Hsent. reflexivity.
  - right. reflexivity.
Qed.

End ControllerInvariants.

(** ** The playlist that is found *)

Lemma lookup_assign_same (k : string) (v : value) (kv : list (string * value)) :
  lookup k (assign k v kv) = Some v.
Proof.
  induction kv as [|[k' v'] rest IH]; cbn.
  - rewrite String.eqb_refl. reflexivity.
  - destruct (String.eqb k k') eqn:Heq; cbn; rewrite Heq; [reflexivity|exact IH].
Qed.

Lemma lookup_assign_other (k k' : string) (v : value) (kv : list (string * value)) :
  String.eqb k' k = false ->
  lookup k' (assign k v kv) = lookup k' kv.
Proof.
  intros Hne. induction kv as [|[k0 v0] rest IH]; cbn.
  - rewrite Hne. reflexivity.
  - destruct (String.eqb k k0) eqn:Heq; cbn.
    + apply String.eqb_eq in Heq. subst k0. rewrite Hne. reflexivity.
    + destruct (String.eqb k' k0); [reflexivity|exact IH].
Qed.

Section FoundPlaylist.

Context {lib : PyLib}.

Local Open Scope string_scope.

Variables (id name description : string) (public : bool).

(** The playlist is there and its record carries a URL: the lookup
    returns it, after bringing its visibility to [public] when it
    differs. *)
Lemma get_or_create_playlist_found (p : playlist) (b : bool)
    (urls : list (string * value)) (url : value) (w : world) :
  faults w = [] ->
  find_playlist id (playlists w) = Some p ->
  lookup "public" (pl_info p) = Some (VBool b) ->
  lookup "external_urls" (pl_info p) = Some (VDict urls) ->
  lookup "spotify" urls = Some url ->
  exists w',
    get_or_create_playlist (VStr id) name description public w
    = (Ok (VDict (pl_info (if Bool.eqb b public then p
                           else change_details (Some public) None p))), w')
    /\ calls w'
       = (calls w ++
          if Bool.eqb b public then [GetPlaylist (VStr id)]
          else [GetPlaylist (VStr id);
                PlaylistChangeDetails (VStr id) (Some public) None;
                GetPlaylist (VStr id)])%list
    /\ playlists w'
       = (if Bool.eqb b public then playlists w
          else update_playlist id (change_details (Some public) None) (playlists w))
    /\ faults w' = [] /\ playlists_aside w w'.
Proof.
  intros Hw Hfind Hpublic Hurls Hurl.
  destruct w as [d n l pls u ids fs cs out tp]. cbn in Hw, Hfind. subst fs.
  unfold get_or_create_playlist, try_except, lookup_playlist.
  unfold bind at 1. unfold sp_playlist at 1, send, on_playlist.
  cbn [faults calls set_calls playlists]. rewrite Hfind.
  unfold ret at 1.
  unfold bind at 1. unfold print at 1.
  unfold bind at 1. unfold lift at 1, py_get. rewrite Hpublic.
  unfold differs_from_bool.
  destruct (Bool.eqb b public) eqn:Hsame; cbn [negb].
  - unfold bind at 1. unfold ret at 1.
    unfold bind at 1. unfold print at 1.
    unfold bind at 1. unfold lift at 1, bindr, subscript. rewrite Hurls, Hurl.
    unfold bind at 1. unfold print at 1. unfold ret.
    eexists. split; [reflexivity|]. cbn.
    repeat split; reflexivity.
  - unfold bind at 1. unfold bind at 1. unfold print at 1.
    unfold bind at 1. unfold playlist_change_details, send, on_playlist.
    cbn [faults calls set_calls set_stdout playlists stdout]. rewrite Hfind.
    unfold modify_playlist. cbn [faults calls set_calls set_stdout set_playlists playlists stdout].
    unfold sp_playlist, send, on_playlist.
    cbn [faults calls set_calls set_stdout set_playlists playlists stdout].
    rewrite (find_playlist_update id _ pls p Hfind).
    unfold ret at 1.
    unfold bind at 1. unfold print at 1.
    unfold bind at 1. unfold lift at 1, bindr, subscript.
    unfold change_details at 1. cbn [pl_info].
    rewrite lookup_assign_other by reflexivity. rewrite Hurls, Hurl.
    unfold bind at 1. unfold print at 1. unfold ret.
    eexists. split; [reflexivity|]. cbn.
    rewrite <- !app_assoc. repeat split; reflexivity.
Qed.

End FoundPlaylist.
(** ** What the batches do to the playlist *)

Lemma serving_serves (id t : string) (p : playlist) (w : world) :
  serving id t p w -> serves_playlist id w.
Proof. intros (Hw & _ & Hp). split; [exact Hw|exists p; exact Hp]. Qed.

Lemma remove_batch_effect (id t : string) (batch : list value) (p : playlist)
    (w : world) :
  serving id t p w ->
  List.length batch <= 100 ->
  exists w',
    playlist_remove_all_occurrences_of_items (VStr id) batch w = (Ok tt, w')
    /\ calls w' = calls w ++ [PlaylistRemoveAllOccurrencesOfItems (VStr id) batch]
    /\ serving id t (without batch p) w'
    /\ playlists_aside w w'.
Proof.
  intros (Hw & Ht & Hp) Hlen.
  unfold playlist_remove_all_occurrences_of_items.
  rewrite send_reliable by exact Hw.
  unfold batch_ceiling.
  destruct (Nat.ltb_spec 100 (List.length batch)) as [Hgt|_]; [lia|].
  unfold on_playlist. cbn [playlists set_calls]. rewrite Hp.
  unfold modify_playlist. cbn [playlists set_calls].
  eexists. split; [reflexivity|]. cbn.
  split; [reflexivity|]. split.
  - split; [exact Hw|]. split; [exact Ht|].
    exact (find_playlist_update id _ _ p Hp).
  - unfold playlists_aside. cbn. repeat split; reflexivity.
Qed.

Lemma add_batch_effect (id t : string) (batch : list value) (p : playlist)
    (w : world) :
  serving id t p w ->
  List.length batch <= 100 ->
  exists w',
    playlist_add_items (VStr id) batch w = (Ok tt, w')
    /\ calls w' = calls w ++ [PlaylistAddItems (VStr id) batch]
    /\ serving id t (with_added t batch p) w'
    /\ playlists_aside w w'.
Proof.
  intros (Hw & Ht & Hp) Hlen.
  unfold playlist_add_items.
  rewrite send_reliable by exact Hw.
  unfold batch_ceiling.
  destruct (Nat.ltb_spec 100 (List.length batch)) as [Hgt|_]; [lia|].
  unfold on_playlist. cbn [playlists set_calls]. rewrite Hp.
  unfold modify_playlist. cbn [playlists set_calls now].
  eexists. split; [reflexivity|]. cbn.
  split; [reflexivity|]. split.
  - split; [exact Hw|]. split; [exact Ht|].
    unfold with_added. rewrite <- Ht. exact (find_playlist_update id _ _ p Hp).
  - unfold playlists_aside. cbn. repeat split; reflexivity.
Qed.

Section BatchEffects.

Variable id : string.
Variable t : string.
Variable issue : list value -> M unit.
Variable sent : list value -> request.
Variable after : nat -> list value -> M unit.
Variable effect : list value -> playlist -> playlist.

Hypothesis issue_effect :
  forall batch p w,
    serving id t p w ->
    List.length batch <= 100 ->
    exists w',
      issue batch w = (Ok tt, w')
      /\ calls w' = calls w ++ [sent batch]
      /\ serving id t (effect batch p) w'
      /\ playlists_aside w w'.

Hypothesis after_prints :
  forall i batch w,
    exists out, after i batch w = (Ok tt, set_stdout out w).

Lemma for_each_batch_effect (uris : list value) (starts : list nat) :
  forall p w,
    serving id t p w ->
    exists w',
      for_each starts
        (fun i => bind (issue (slice uris i (i + 100)))
                       (fun _ => after i (slice uris i (i + 100)))) w
      = (Ok tt, w')
      /\ calls w' = calls w ++ map (fun i => sent (slice uris i (i + 100))) starts
      /\ serving id t
           (fold_left (fun q batch => effect batch q)
                      (map (fun i => slice uris i (i + 100)) starts) p) w'
      /\ playlists_aside w w'.
Proof.
  induction starts as [|i rest IH]; intros p w Hserving.
  - exists w. cbn. rewrite app_nil_r.
    repeat split; try reflexivity; apply Hserving.
  - cbn [for_each map fold_left].
    destruct (issue_effect (slice uris i (i + 100)) p w Hserving (slice_length _ _ _ _))
      as (w1 & Hrq & Hcalls1 & Hserving1 & Haside1).
    destruct (after_prints i (slice uris i (i + 100)) w1) as (out & Hafter).
    destruct (IH (effect (slice uris i (i + 100)) p) (set_stdout out w1) Hserving1)
      as (w' & Hrest & Hcalls & Hserving' & Haside').
    exists w'. split; [|split; [|split; [exact Hserving'|]]].
    + unfold bind at 1. unfold bind at 1. rewrite Hrq, Hafter. exact Hrest.
    + rewrite Hcalls. cbn [calls set_stdout]. rewrite Hcalls1, <- app_assoc. reflexivity.
    + exact (playlists_aside_trans w w1 w' Haside1 Haside').
Qed.

Lemma in_batches_effect (uris : list value) (p : playlist) (w : world) :
  serving id t p w ->
  exists w',
    in_batches uris issue after w = (Ok tt, w')
    /\ calls w' = calls w ++ map sent (pages 100 uris)
    /\ serving id t (fold_left (fun q batch => effect batch q) (pages 100 uris) p) w'
    /\ playlists_aside w w'.
Proof.
  intros Hserving. unfold in_batches.
  destruct (for_each_batch_effect uris (py_range 0 (List.length uris) 100) p w Hserving)
    as (w' & Hrun & Hcalls & Hserving' & Haside).
  exists w'. split; [exact Hrun|]. split; [|split; [|exact Haside]].
  - rewrite Hcalls. rewrite <- (batches_pages uris), map_map. reflexivity.
  - rewrite <- (batches_pages uris). exact Hserving'.
Qed.

End BatchEffects.

Lemma uri_in_nil (item : value) : uri_in [] item = false.
Proof. unfold uri_in. destruct (member_uri item) as [[]|]; reflexivity. Qed.

Lemma uri_in_app (a b : list value) (item : value) :
  uri_in (a ++ b) item = uri_in a item || uri_in b item.
Proof.
  unfold uri_in. destruct (member_uri item) as [[]|]; try reflexivity.
  apply existsb_app.
Qed.

Lemma filter_filter (A : Type) (f g : A -> bool) (l : list A) :
  filter g (filter f l) = filter (fun x => f x && g x) l.
Proof.
  induction l as [|x l IH]; [reflexivity|]. cbn.
  destruct (f x); cbn; [destruct (g x)|]; rewrite IH; reflexivity.
Qed.

Lemma without_nil (p : playlist) : without [] p = p.
Proof.
  destruct p as [info members]. unfold without. cbn. f_equal.
  rewrite (filter_ext _ (fun _ => true)) by (intros it; rewrite uri_in_nil; reflexivity).
  induction members as [|m rest IH]; [reflexivity|]. cbn. rewrite IH. reflexivity.
Qed.

Lemma without_without (a b : list value) (p : playlist) :
  without b (without a p) = without (a ++ b) p.
Proof.
  unfold without. cbn. f_equal. rewrite filter_filter.
  apply filter_ext. intros it. rewrite uri_in_app, negb_orb. reflexivity.
Qed.

Lemma without_fold (batches : list (list value)) :
  forall p,
    fold_left (fun q batch => without batch q) batches p
    = without (List.concat batches) p.
Proof.
  induction batches as [|b rest IH]; intros p; cbn [fold_left List.concat].
  - rewrite without_nil. reflexivity.
  - rewrite IH, without_without. reflexivity.
Qed.

Lemma with_added_nil (t : string) (p : playlist) : with_added t [] p = p.
Proof. destruct p. unfold with_added. cbn. rewrite app_nil_r. reflexivity. Qed.

Lemma with_added_fold (t : string) (batches : list (list value)) :
  forall p,
    fold_left (fun q batch => with_added t batch q) batches p
    = with_added t (List.concat batches) p.
Proof.
  induction batches as [|b rest IH]; intros p; cbn [fold_left List.concat].
  - rewrite with_added_nil. reflexivity.
  - rewrite IH. unfold with_added. cbn. rewrite map_app, app_assoc. reflexivity.
Qed.

(** ** The members that are removed *)

Section UsableMembers.

Local Open Scope string_scope.

(** Over member records the comprehension of [clear_playlist] keeps the
    usable URIs. *)
Lemma valid_track_uris_records (members : list value) :
  forallb member_record members = true ->
  valid_track_uris members = Ok (usable_uris members).
Proof.
  induction members as [|item rest IH]; intros Hall; [reflexivity|].
  cbn [forallb] in Hall. apply andb_prop in Hall. destruct Hall as [Hitem Hrest].
  specialize (IH Hrest).
  cbn [valid_track_uris usable_uris flat_map]. unfold valid_uri, member_record in *.
  destruct (subscript item "track") as [t|e]; [|discriminate Hitem].
  cbn [bindr].
  destruct t as [| | | | |kv]; try discriminate Hitem; cbn [truthy].
  - cbn [app]. exact IH.
  - unfold subscript at 1 2 3.
    destruct (lookup "uri" kv) as [[| | |s| |]|] eqn:Huri; try discriminate Hitem.
    assert (Hkv : truthy (VDict kv) = true).
    { destruct kv; [discriminate Huri|reflexivity]. }
    cbn [truthy] in Hkv. rewrite Hkv. cbn [bindr].
    destruct (truthy (VStr s)).
    + fold (usable_uris rest). rewrite IH. reflexivity.
    + cbn [app]. exact IH.
Qed.

Lemma usable_uris_strings (members : list value) (v : value) :
  forallb member_record members = true ->
  In v (usable_uris members) ->
  exists s, v = VStr s /\ String.eqb s EmptyString = false.
Proof.
  intros Hall Hin. unfold usable_uris in Hin. apply in_flat_map in Hin.
  destruct Hin as (item & Hitem & Hv).
  rewrite forallb_forall in Hall. specialize (Hall item Hitem).
  unfold valid_uri in Hv. unfold member_record in Hall.
  destruct (subscript item "track") as [t|e]; [|destruct Hv].
  destruct t as [| | | | |kv]; try discriminate Hall; [destruct Hv|].
  destruct (truthy (VDict kv)); [|destruct Hv].
  unfold subscript in Hv.
  destruct (lookup "uri" kv) as [[| | |s| |]|]; try discriminate Hall.
  destruct (truthy (VStr s)) eqn:Hs; [|destruct Hv].
  destruct Hv as [Hv|[]]. exists s. split; [symmetry; exact Hv|].
  cbn in Hs. destruct (String.eqb s EmptyString); [discriminate Hs|reflexivity].
Qed.

(** A removal request for the usable URIs matches the usable members. *)
Lemma uri_in_usable (members : list value) (item : value) :
  forallb member_record members = true ->
  In item members ->
  uri_in (usable_uris members) item = usable item.
Proof.
  intros Hall Hin.
  pose proof (usable_uris_strings members) as Hstrings.
  assert (Hmine : forall u, valid_uri item = Some u -> In u (usable_uris members)).
  { intros u Hu. unfold usable_uris. apply in_flat_map. exists item.
    split; [exact Hin|]. rewrite Hu. left. reflexivity. }
  pose proof Hall as Hrec. rewrite forallb_forall in Hrec. specialize (Hrec item Hin).
  unfold uri_in, usable, member_uri. unfold valid_uri in *. unfold member_record in Hrec.
  destruct (subscript item "track") as [t|e]; [|discriminate Hrec].
  destruct t as [| | | | |kv]; try discriminate Hrec; [reflexivity|].
  unfold subscript in *.
  destruct (lookup "uri" kv) as [[| | |s| |]|] eqn:Huri; try discriminate Hrec.
  assert (Hkv : truthy (VDict kv) = true).
  { destruct kv; [discriminate Huri|reflexivity]. }
  rewrite Hkv in *.
  destruct (truthy (VStr s)) eqn:Hs.
  - apply existsb_exists. exists (VStr s). split.
    + apply Hmine. reflexivity.
    + cbn. apply String.eqb_refl.
  - destruct (existsb (value_is_str s) (usable_uris members)) eqn:Hex; [|reflexivity].
    exfalso. apply existsb_exists in Hex. destruct Hex as (v & Hv & Hsame).
    destruct (Hstrings v Hall Hv) as (s' & -> & Hne).
    cbn in Hsame. apply String.eqb_eq in Hsame. subst s'.
    cbn in Hs. rewrite Hne in Hs. discriminate Hs.
Qed.

Lemma without_usable (p : playlist) :
  forallb member_record (pl_members p) = true ->
  without (usable_uris (pl_members p)) p = cleared p.
Proof.
  intros Hall. unfold without, cleared. f_equal.
  apply filter_ext_in. intros item Hin.
  rewrite (uri_in_usable _ _ Hall Hin). reflexivity.
Qed.

End UsableMembers.

Section ClearPlaylist.

Context {lib : PyLib}.

Local Open Scope string_scope.

(** Clearing, with every request going through: what it sends and what
    it leaves of the playlist. *)
Lemma clear_playlist_effect (id t : string) (p : playlist) (valid : list value)
    (w : world) :
  serving id t p w ->
  valid_track_uris (pl_members p) = Ok valid ->
  exists w',
    clear_playlist (VStr id) w = (Ok tt, w')
    /\ calls w' = (calls w ++ playlist_items_pass (VStr id) (pl_members p)
                           ++ map (PlaylistRemoveAllOccurrencesOfItems (VStr id))
                                  (pages 100 valid))%list
    /\ serving id t (without valid p) w'
    /\ playlists_aside w w'.
Proof.
  intros Hserving Hvalid. pose proof Hserving as (Hw & Ht & Hp).
  pose proof (playlist_items_pass_reliable id p w Hw Hp) as Hpass.
  unfold clear_playlist.
  set (w1 := set_calls (calls w ++ playlist_items_pass (VStr id) (pl_members p))%list w) in *.
  assert (Hserving1 : serving id t p w1) by exact Hserving.
  assert (Haside1 : playlists_aside w w1) by apply playlists_aside_calls.
  assert (Hshape : forall (B : Type) (k : list value -> M B),
             bind (playlist_items (VStr id) 100)
                  (fun results =>
                     bind (extend_while_next (page_next results) ([] ++ page_items results)) k) w
             = k (pl_members p) w1).
  { intros B k. unfold bind in *.
    destruct (playlist_items (VStr id) 100 w) as [[results|e] w0]; [|discriminate Hpass].
    rewrite Hpass. reflexivity. }
  rewrite Hshape.
  destruct (pl_members p) as [|item rest] eqn:Hmembers.
  - cbn in Hvalid. inversion Hvalid. subst valid.
    eexists. split; [reflexivity|]. cbn [calls set_stdout].
    rewrite without_nil.
    split; [|split; [exact Hserving1|exact Haside1]].
    unfold w1. cbn [calls set_calls map pages pages_from List.length].
    rewrite app_nil_r. reflexivity.
  - unfold bind at 1. unfold lift at 1. rewrite Hvalid.
    destruct valid as [|u us] eqn:Hus.
    + eexists. split; [reflexivity|]. cbn [calls set_stdout].
      rewrite without_nil.
      split; [|split; [exact Hserving1|exact Haside1]].
      unfold w1. cbn [calls set_calls map pages pages_from List.length].
      rewrite app_nil_r. reflexivity.
    + rewrite <- Hus in *.
      destruct (in_batches_effect id t
                  (playlist_remove_all_occurrences_of_items (VStr id))
                  (PlaylistRemoveAllOccurrencesOfItems (VStr id))
                  (fun _ _ => ret tt)
                  without
                  (fun batch q w0 => remove_batch_effect id t batch q w0)
                  (fun _ _ w0 => nothing_printed w0)
                  valid p w1 Hserving1)
        as (w2 & Hrun & Hcalls & Hserving2 & Haside2).
      unfold bind at 1. rewrite Hrun.
      eexists. split; [reflexivity|]. cbn [calls set_stdout].
      split; [|split].
      * rewrite Hcalls. unfold w1. cbn [calls set_calls]. rewrite <- app_assoc. reflexivity.
      * rewrite without_fold, pages_concat in Hserving2 by lia. exact Hserving2.
      * exact (playlists_aside_trans w w1 _ Haside1 Haside2).
Qed.

(** X7. Clearing a playlist of member records, with every request going
    through, leaves exactly the members that have no usable URI (a null
    track or an empty URI), in their order; every other member is gone,
    however many there are and however often a URI occurs. *)
Theorem clear_playlist_leaves_unusable (id : string) (p : playlist) (w : world) :
  faults w = [] ->
  find_playlist id (playlists w) = Some p ->
  forallb member_record (pl_members p) = true ->
  exists w',
    clear_playlist (VStr id) w = (Ok tt, w')
    /\ find_playlist id (playlists w') = Some (cleared p).
Proof.
  intros Hw Hp Hall.
  destruct (clear_playlist_effect id (now w) p (usable_uris (pl_members p)) w)
    as (w' & Hrun & _ & (_ & _ & Hp') & _).
  - repeat split; [exact Hw|exact Hp].
  - apply valid_track_uris_records. exact Hall.
  - exists w'. split; [exact Hrun|]. rewrite Hp', without_usable by exact Hall.
    reflexivity.
Qed.

(** X8. When a member has no [track] key or a track without [uri], the
    comprehension raises, and clearing raises with it after the listing
    pass: no removal request is sent and the playlist keeps all its
    members. *)
Theorem clear_playlist_malformed_member (id : string) (p : playlist) (e : exn)
    (w : world) :
  faults w = [] ->
  find_playlist id (playlists w) = Some p ->
  valid_track_uris (pl_members p) = Raise e ->
  exists w',
    clear_playlist (VStr id) w = (Raise e, w')
    /\ calls w' = (calls w ++ playlist_items_pass (VStr id) (pl_members p))%list
    /\ playlists w' = playlists w.
Proof.
  intros Hw Hp Hraise.
  pose proof (playlist_items_pass_reliable id p w Hw Hp) as Hpass.
  unfold clear_playlist.
  assert (Hshape : forall (B : Type) (k : list value -> M B),
             bind (playlist_items (VStr id) 100)
                  (fun results =>
                     bind (extend_while_next (page_next results) ([] ++ page_items results)) k) w
             = k (pl_members p)
                 (set_calls (calls w ++ playlist_items_pass (VStr id) (pl_members p))%list w)).
  { intros B k. unfold bind in *.
    destruct (playlist_items (VStr id) 100 w) as [[results|e0] w0]; [|discriminate Hpass].
    rewrite Hpass. reflexivity. }
  rewrite Hshape.
  destruct (pl_members p) as [|item rest] eqn:Hmembers; [discriminate Hraise|].
  unfold bind at 1. unfold lift at 1. rewrite Hraise.
  eexists. split; [reflexivity|]. split; reflexivity.
Qed.

End ClearPlaylist.

(** ** The URIs of the selection *)

Section TrackUris.

Context {lib : PyLib}.

Local Open Scope string_scope.

Lemma get_track_uris_cons (item : value) (rest : list value) :
  get_track_uris (item :: rest)
  = (u <~ (t <~ subscript item "track" ;; subscript t "uri") ;;
     us <~ get_track_uris rest ;; Ok (u :: us)).
Proof. reflexivity. Qed.

Lemma get_track_uris_member_uri (tracks uris : list value) :
  get_track_uris tracks = Ok uris <->
  Forall2 (fun item u => member_uri item = Some u) tracks uris.
Proof.
  revert uris. induction tracks as [|item rest IH]; intros uris.
  - split.
    + intros H. inversion H. constructor.
    + intros H. inversion H. reflexivity.
  - rewrite get_track_uris_cons. unfold bindr at 1 2. split.
    + intros H. 
      destruct (subscript item "track") as [t|e] eqn:Ht; [|discriminate H].
      destruct (subscript t "uri") as [u|e] eqn:Hu; [|discriminate H].
      unfold bindr in H.
      destruct (get_track_uris rest) as [us|e] eqn:Hrest; [|discriminate H].
      inversion H. constructor.
      * unfold member_uri. rewrite Ht, Hu. reflexivity.
      * apply IH. reflexivity.
    + intros H. inversion H as [|item' u rest' us Hitem Hrest']. subst.
      unfold member_uri in Hitem.
      destruct (subscript item "track") as [t|e]; [|discriminate Hitem].
      destruct (subscript t "uri") as [u'|e]; [|discriminate Hitem].
      inversion Hitem. subst u'.
      apply IH in Hrest'. unfold bindr. rewrite Hrest'. reflexivity.
Qed.

(** The URIs of the items at the given positions are the URIs at these
    positions. *)
Lemma get_track_uris_positions (tracks uris : list value) (positions : list nat) :
  get_track_uris tracks = Ok uris ->
  Forall (fun i => i < List.length tracks) positions ->
  get_track_uris (map (fun i => nth i tracks VNone) positions)
  = Ok (map (fun i => nth i uris VNone) positions).
Proof.
  intros Hall Hbound. apply get_track_uris_member_uri in Hall.
  apply get_track_uris_member_uri.
  induction Hbound as [|i rest Hi Hrest IH]; cbn [map]; constructor; [|exact IH].
  clear IH Hrest rest. revert i Hi.
  induction Hall as [|item u tracks uris Hitem Hrest IH]; intros i Hi.
  - cbn in Hi. lia.
  - destruct i as [|i]; cbn [nth]; [exact Hitem|].
    apply IH. cbn in Hi. lia.
Qed.

End TrackUris.

(** ** The whole update *)

Section WholeUpdate.

Context {lib : PyLib}.

Local Open Scope string_scope.

Lemma add_tracks_effect (id t : string) (track_uris : list value) (p : playlist)
    (w : world) :
  serving id t p w ->
  exists w',
    add_tracks (VStr id) track_uris w = (Ok tt, w')
    /\ calls w' = (calls w ++ map (PlaylistAddItems (VStr id)) (pages 100 track_uris))%list
    /\ serving id t (with_added t track_uris p) w'
    /\ playlists_aside w w'.
Proof.
  intros Hserving. unfold add_tracks.
  unfold bind at 1. unfold print at 1.
  unfold bind at 1. unfold print at 1.
  match goal with
  | |- context [in_batches _ _ _ ?w1] =>
      destruct (in_batches_effect id t
                  (playlist_add_items (VStr id))
                  (PlaylistAddItems (VStr id))
                  (fun i batch =>
                     print [Lit "Added batch "; Num (Z.of_nat (i / 100 + 1)); Lit " (";
                            Num (Z.of_nat (List.length batch)); Lit " tracks)"])
                  (with_added t)
                  (fun batch q w0 => add_batch_effect id t batch q w0)
                  (fun i batch w0 => line_printed _ w0)
                  track_uris p w1 Hserving)
        as (w2 & Hrun & Hcalls & Hserving2 & Haside2)
  end.
  exists w2. split; [exact Hrun|]. split; [exact Hcalls|]. split; [|exact Haside2].
  rewrite with_added_fold, pages_concat in Hserving2 by lia. exact Hserving2.
Qed.

(** The selection step: what it returns and the world it leaves. *)
Lemma select_random_songs_run (items : list value) (k : Z) (w : world) :
  (0 <= k)%Z ->
  let effective := Z.min k (Z.of_nat (List.length items)) in
  exists out,
    select_random_songs (VList items) k w
    = (Ok (fst (sample_loop (Z.to_nat effective) items (tape w)), effective),
       set_tape (snd (sample_loop (Z.to_nat effective) items (tape w)))
                (set_stdout out w)).
Proof.
  intros Hk effective.
  unfold select_random_songs, bind, lift, print, ret, random_sample.
  cbn [py_len elements].
  set (n := Z.of_nat (List.length items)) in *.
  destruct (Z.ltb_spec n k) as [Hlt|Hge].
  - assert (Heff : effective = n) by (unfold effective; lia).
    cbn [tape set_stdout stdout].
    replace ((n <? 0)%Z || (n <? n)%Z) with false
      by (symmetry; apply orb_false_iff; split; apply Z.ltb_ge; unfold n; lia).
    rewrite <- Heff.
    destruct (sample_loop (Z.to_nat effective) items (tape w)) as [picked t'].
    eexists. reflexivity.
  - assert (Heff : effective = k) by (unfold effective; lia).
    cbn [tape set_stdout stdout].
    replace ((k <? 0)%Z || (n <? k)%Z) with false
      by (symmetry; apply orb_false_iff; split; apply Z.ltb_ge; lia).
    rewrite <- Heff.
    destruct (sample_loop (Z.to_nat effective) items (tape w)) as [picked t'].
    eexists. reflexivity.
Qed.

(** A negative count goes as it is to [random.sample], which refuses
    it. *)
Lemma select_random_songs_negative (items : list value) (k : Z) (w : world) :
  (k < 0)%Z ->
  exists out,
    select_random_songs (VList items) k w = (Raise ValueError, set_stdout out w).
Proof.
  intros Hk.
  unfold select_random_songs, bind, lift, print, ret, random_sample.
  cbn [py_len elements].
  destruct (Z.ltb_spec (Z.of_nat (List.length items)) k) as [Hlt|Hge]; [lia|].
  cbn [tape set_stdout stdout].
  replace (k <? 0)%Z with true by (symmetry; apply Z.ltb_lt; exact Hk).
  cbn [orb]. eexists. reflexivity.
Qed.

Lemma get_liked_songs_no_cache_file (save_to_disk : bool) (w : world) :
  disk w = None ->
  get_liked_songs save_to_disk true w = fetch_all_liked_songs save_to_disk w.
Proof.
  intros Hdisk. unfold get_liked_songs.
  unfold bind at 1. unfold load_liked_songs_from_disk. rewrite Hdisk. reflexivity.
Qed.

Lemma get_liked_songs_respects_only_listed (save_to_disk use_cache : bool) :
  respects only_listed (get_liked_songs save_to_disk use_cache).
Proof.
  apply (respects_get_liked_songs only_listed only_listed_refl only_listed_trans
           only_listed_stdout only_listed_faults only_listed_listing).
  apply (respects_fetch_all_liked_songs only_listed only_listed_refl only_listed_trans
           only_listed_stdout only_listed_faults only_listed_listing).
  intros _ tracks w0 r0 w1 H.
  unfold save_liked_songs_to_disk, print in H. inversion H.
  unfold only_listed. cbn. repeat split; try reflexivity.
  exists []. rewrite app_nil_r. split; reflexivity.
Qed.

Lemma assign_same (k : string) (v : value) (kv : list (string * value)) :
  lookup k kv = Some v -> assign k v kv = kv.
Proof.
  induction kv as [|[k' v'] rest IH]; cbn; [discriminate|].
  destruct (String.eqb k k') eqn:Heq.
  - intros H. inversion H. reflexivity.
  - intros H. rewrite (IH H). reflexivity.
Qed.

(** The update up to the selection: the destination is found and made
    private, cleared, and the saved tracks are fetched and cached. *)
Lemma update_true_shuffle_prefix (id : string) (p : playlist) (w : world)
    (B : Type) (k : value -> value -> value -> M B) :
  faults w = [] ->
  disk w = None ->
  find_playlist id (playlists w) = Some p ->
  playlist_record id (pl_info p) ->
  forallb member_record (pl_members p) = true ->
  let info := assign "public" (VBool false) (pl_info p) in
  exists w1,
    (playlist <- get_or_create_playlist (VStr id) "True Shuffle"
                   "A daily shuffled selection of 150 random songs from your liked songs"
                   false ;;
     playlist_id <- lift (subscript playlist "id") ;;
     print [] ;;
     print [Lit "Clearing existing tracks from playlist..."] ;;
     clear_playlist playlist_id ;;
     print [] ;;
     print [Lit "Fetching your liked songs..."] ;;
     liked_tracks <- get_liked_songs true true ;;
     k playlist playlist_id liked_tracks) w
    = k (VDict info) (VStr id) (VList (liked w)) w1
    /\ serving id (now w) {| pl_info := info; pl_members := pl_members (cleared p) |} w1
    /\ disk w1 = Some (json_dump (cache_data (now w) (liked w)))
    /\ liked w1 = liked w /\ tape w1 = tape w
    /\ calls w1
       = (calls w
          ++ (if differs_from_bool
                   (match lookup "public" (pl_info p) with Some v => v | None => VNone end)
                   false
              then [GetPlaylist (VStr id);
                    PlaylistChangeDetails (VStr id) (Some false) None;
                    GetPlaylist (VStr id)]
              else [GetPlaylist (VStr id)])
          ++ playlist_items_pass (VStr id) (pl_members p)
          ++ map (PlaylistRemoveAllOccurrencesOfItems (VStr id))
                 (pages 100 (usable_uris (pl_members p)))
          ++ saved_tracks_pass (liked w))%list.
Proof.
  intros Hw Hdisk Hp (Hid & (b & Hpublic) & urls & url & Hurls & Hurl) Hall info.
  destruct (get_or_create_playlist_found id "True Shuffle"
              "A daily shuffled selection of 150 random songs from your liked songs"
              false p b urls url w Hw Hp Hpublic Hurls Hurl)
    as (wa & Hfound & Hcalls_a & Hpls_a & Hfaults_a & Haside_a).
  set (q := if Bool.eqb b false then p else change_details (Some false) None p) in *.
  assert (Hinfo : pl_info q = info).
  { unfold q, info. destruct b; cbn [Bool.eqb].
    - reflexivity.
    - symmetry. apply assign_same. exact Hpublic. }
  assert (Hmembers : pl_members q = pl_members p).
  { unfold q. destruct (Bool.eqb b false); reflexivity. }
  assert (Hq : find_playlist id (playlists wa) = Some q).
  { rewrite Hpls_a. unfold q. destruct (Bool.eqb b false); [exact Hp|].
    apply find_playlist_update. exact Hp. }
  assert (Hid' : lookup "id" info = Some (VStr id)).
  { unfold info. rewrite lookup_assign_other by reflexivity. exact Hid. }
  unfold bind at 1. rewrite Hfound, Hinfo.
  unfold bind at 1. unfold lift at 1, subscript. rewrite Hid'.
  unfold bind at 1. unfold print at 1.
  unfold bind at 1. unfold print at 1.
  match goal with
  | |- context [clear_playlist _ ;; _] => idtac
  end.
  match goal with
  | |- exists w1, bind (clear_playlist (VStr id)) _ ?wb = _ /\ _ =>
      destruct (clear_playlist_effect id (now w) q (usable_uris (pl_members p)) wb)
        as (wc & Hclear & Hcalls_c & Hserving_c & Haside_c)
  end.
  { destruct Haside_a as (_ & Hnow & _). repeat split; [exact Hfaults_a|exact Hnow|exact Hq]. }
  { rewrite Hmembers. apply valid_track_uris_records. exact Hall. }
  unfold bind at 1. rewrite Hclear.
  unfold bind at 1. unfold print at 1.
  unfold bind at 1. unfold print at 1.
  match goal with
  | |- exists w1, bind (get_liked_songs true true) _ ?wd = _ /\ _ =>
      set (wd' := wd);
      assert (Hdisk_d : disk wd' = None);
      [|assert (Hfaults_d : faults wd' = []);
        [|destruct (fetch_all_liked_songs_reliable true wd' Hfaults_d)
            as (we & Hfetch & Hcalls_e & Hdisk_e & Hliked_e & Hfaults_e);
          pose proof (get_liked_songs_respects_only_listed true true wd' _ we
                        (eq_trans (get_liked_songs_no_cache_file true wd' Hdisk_d) Hfetch))
            as (Hnow_e & _ & Hpls_e & _ & _ & Htape_e & _)]]
  end.
  { unfold wd'. cbn [disk set_stdout].
    destruct Haside_c as (Hd & _). destruct Haside_a as (Hd' & _).
    cbn [disk set_stdout] in Hd. rewrite Hd, Hd'. exact Hdisk. }
  { unfold wd'. apply Hserving_c. }
  assert (Hnow_d : now wd' = now w).
  { destruct Hserving_c as (_ & Hn & _). exact Hn. }
  assert (Hliked_d : liked wd' = liked w).
  { unfold wd'. cbn [liked set_stdout].
    destruct Haside_c as (_ & _ & Hl & _). destruct Haside_a as (_ & _ & Hl' & _).
    cbn [liked set_stdout] in Hl. rewrite Hl, Hl'. reflexivity. }
  assert (Htape_d : tape wd' = tape w).
  { unfold wd'. cbn [tape set_stdout].
    destruct Haside_c as (_ & _ & _ & _ & _ & Ht). destruct Haside_a as (_ & _ & _ & _ & _ & Ht').
    cbn [tape set_stdout] in Ht. rewrite Ht, Ht'. reflexivity. }
  exists we. split; [|split; [|split; [|split; [|split]]]].
  - unfold bind at 1. rewrite get_liked_songs_no_cache_file by exact Hdisk_d.
    rewrite Hfetch, Hliked_d. reflexivity.
  - destruct Hserving_c as (_ & _ & Hfind_c).
    split; [exact Hfaults_e|]. split; [congruence|].
    rewrite Hpls_e. unfold wd'. cbn [playlists set_stdout]. rewrite Hfind_c.
    pose proof (f_equal pl_members (without_usable p Hall)) as Hleft.
    unfold without at 1. rewrite Hinfo, Hmembers.
    cbn [pl_members without] in Hleft. rewrite Hleft. reflexivity.
  - rewrite Hdisk_e, Hnow_d, Hliked_d. reflexivity.
  - congruence.
  - congruence.
  - rewrite Hcalls_e, Hliked_d. unfold wd'. cbn [calls set_stdout].
    rewrite Hcalls_c. cbn [calls set_stdout]. rewrite Hcalls_a, Hmembers.
    rewrite Hpublic. unfold differs_from_bool.
    destruct b; cbn [Bool.eqb negb]; rewrite <- !app_assoc; reflexivity.
Qed.

Lemma update_true_shuffle_unfold (id : string) (num_songs : Z) (w : world) :
  update_true_shuffle id num_songs w
  = (playlist <- get_or_create_playlist (VStr id) "True Shuffle"
                   "A daily shuffled selection of 150 random songs from your liked songs"
                   false ;;
     playlist_id <- lift (subscript playlist "id") ;;
     print [] ;;
     print [Lit "Clearing existing tracks from playlist..."] ;;
     clear_playlist playlist_id ;;
     print [] ;;
     print [Lit "Fetching your liked songs..."] ;;
     liked_tracks <- get_liked_songs true true ;;
     (fun playlist playlist_id liked_tracks =>
        n <- lift (py_len liked_tracks) ;;
        print [Lit "Found "; Num n; Lit " liked songs."] ;;
        selected <- select_random_songs liked_tracks num_songs ;;
        track_uris <- lift (get_track_uris (fst selected)) ;;
        add_tracks playlist_id track_uris ;;
        print [] ;;
        print banner ;;
        print [Lit "True Shuffle playlist updated successfully!"] ;;
        url <- lift (urls <~ subscript playlist "external_urls" ;;
                     subscript urls "spotify") ;;
        print [Lit "Playlist URL: "; Val url] ;;
        print banner) playlist playlist_id liked_tracks)
      (set_stdout (stdout w ++ [banner; [Lit "Updating True Shuffle playlist"]; banner]) w).
Proof.
  unfold update_true_shuffle, get_spotify_client.
  unfold bind at 1. unfold print at 1.
  unfold bind at 1. unfold print at 1.
  unfold bind at 1. unfold print at 1.
  unfold bind at 1. unfold ret at 1.
  cbn [stdout set_stdout]. rewrite <- !app_assoc. cbn [app].
  destruct w; reflexivity.
Qed.

(** X13. A whole run on a first day: no cache file, every request going
    through, a destination that exists and a collection whose items all
    have a URI.  The destination is made private, emptied of every member
    with a usable URI and filled with the URIs of [min(num_songs, n)]
    saved tracks at pairwise distinct positions, in the order drawn; the
    complete collection is cached; and the requests go out in this
    order: lookup, listing of the members, removals, listing of the saved
    tracks, appends. *)
Theorem update_true_shuffle_replaces (id : string) (num_songs : Z) (p : playlist)
    (all_uris : list value) (w : world) :
  faults w = [] ->
  disk w = None ->
  find_playlist id (playlists w) = Some p ->
  playlist_record id (pl_info p) ->
  forallb member_record (pl_members p) = true ->
  get_track_uris (liked w) = Ok all_uris ->
  (0 <= num_songs)%Z ->
  exists positions w',
    update_true_shuffle id num_songs w = (Ok tt, w')
    /\ NoDup positions
    /\ Forall (fun i => i < List.length (liked w)) positions
    /\ Z.of_nat (List.length positions)
       = Z.min num_songs (Z.of_nat (List.length (liked w)))
    /\ find_playlist id (playlists w')
       = Some {| pl_info := assign "public" (VBool false) (pl_info p);
                 pl_members :=
                   pl_members (cleared p)
                   ++ map (new_member (now w))
                          (map (fun i => nth i all_uris VNone) positions) |}
    /\ disk w' = Some (json_dump (cache_data (now w) (liked w)))
    /\ calls w'
       = (calls w
          ++ (if differs_from_bool
                   (match lookup "public" (pl_info p) with Some v => v | None => VNone end)
                   false
              then [GetPlaylist (VStr id);
                    PlaylistChangeDetails (VStr id) (Some false) None;
                    GetPlaylist (VStr id)]
              else [GetPlaylist (VStr id)])
          ++ playlist_items_pass (VStr id) (pl_members p)
          ++ map (PlaylistRemoveAllOccurrencesOfItems (VStr id))
                 (pages 100 (usable_uris (pl_members p)))
          ++ saved_tracks_pass (liked w)
          ++ map (PlaylistAddItems (VStr id))
                 (pages 100 (map (fun i => nth i all_uris VNone) positions)))%list.
Proof.
  intros Hw Hdisk Hp Hrecord Hall Huris Hk.
  set (n := Z.of_nat (List.length (liked w))).
  set (effective := Z.min num_songs n).
  assert (Hle : Z.to_nat effective <= List.length (liked w))
    by (unfold effective, n; lia).
  destruct (sample_loop_positions (liked w) (Z.to_nat effective) (tape w) Hle)
    as (Hsel & Hnodup & Hbound & Hcount).
  set (positions := fst (sample_loop (Z.to_nat effective)
                           (seq 0 (List.length (liked w))) (tape w))) in *.
  exists positions.
  rewrite update_true_shuffle_unfold.
  set (w0 := set_stdout (stdout w ++ [banner; [Lit "Updating True Shuffle playlist"]; banner]) w).
  match goal with
  | |- exists w', bind _ (fun playlist => bind _ (fun playlist_id =>
                    bind _ (fun _ => bind _ (fun _ => bind _ (fun _ => bind _ (fun _ =>
                    bind _ (fun _ => bind _ (fun liked_tracks =>
                      @?k playlist playlist_id liked_tracks)))))))) _ = _ /\ _ =>
      destruct (update_true_shuffle_prefix id p w0 unit k Hw Hdisk Hp Hrecord Hall)
        as (w1 & Hprefix & Hserving1 & Hdisk1 & Hliked1 & Htape1 & Hcalls1)
  end.
  rewrite Hprefix. cbv beta.
  change (liked w0) with (liked w) in *. change (now w0) with (now w) in *.
  change (tape w0) with (tape w) in *. change (calls w0) with (calls w) in *.
  change (playlists w0) with (playlists w) in *.
  destruct Hrecord as (Hid & _ & urls & url & Hurls & Hurl).
  unfold bind at 1. unfold lift at 1. cbn [py_len].
  unfold bind at 1. unfold print at 1.
  match goal with
  | |- exists w', bind (select_random_songs _ _) _ ?w2 = _ /\ _ =>
      destruct (select_random_songs_run (liked w) num_songs w2 Hk) as (out & Hselect);
      assert (Htape2 : tape w2 = tape w) by exact Htape1
  end.
  unfold bind at 1. rewrite Hselect. cbn [fst]. rewrite Htape2.
  fold n. fold effective. rewrite Hsel.
  unfold bind at 1. unfold lift at 1.
  rewrite (get_track_uris_positions (liked w) all_uris positions Huris Hbound).
  match goal with
  | |- exists w', bind (add_tracks _ ?uris) _ ?w3 = _ /\ _ =>
      destruct (add_tracks_effect id (now w) uris _ w3 Hserving1)
        as (w4 & Hadd & Hcalls4 & (Hfaults4 & Hnow4 & Hfind4) & Haside4)
  end.
  unfold bind at 1. rewrite Hadd.
  unfold bind at 1. unfold print at 1.
  unfold bind at 1. unfold print at 1.
  unfold bind at 1. unfold print at 1.
  unfold bind at 1. unfold lift at 1, bindr, subscript.
  rewrite lookup_assign_other by reflexivity. rewrite Hurls, Hurl.
  unfold bind at 1. unfold print at 1. unfold print.
  eexists. split; [reflexivity|].
  split; [exact Hnodup|]. split; [exact Hbound|].
  split; [rewrite Hcount; unfold effective, n; lia|].
  cbn [playlists disk calls set_stdout].
  split; [exact Hfind4|]. split.
  - destruct Haside4 as (Hd & _). rewrite Hd. exact Hdisk1.
  - rewrite Hcalls4. cbn [calls set_tape set_stdout]. rewrite Hcalls1.
    cbn [calls set_stdout]. rewrite <- !app_assoc. reflexivity.
Qed.

(** X14. A negative [num_songs] is not caught before the destination is
    touched.  On a first day (no cache file) with every request going
    through, the run clears the destination, fetches the collection and
    writes its snapshot to the cache file, and then raises the
    [ValueError] of [random.sample]; the destination is left without its
    usable members and no append request is sent. *)
Theorem update_true_shuffle_negative_count (id : string) (num_songs : Z) (p : playlist)
    (w : world) :
  faults w = [] ->
  disk w = None ->
  find_playlist id (playlists w) = Some p ->
  playlist_record id (pl_info p) ->
  forallb member_record (pl_members p) = true ->
  (num_songs < 0)%Z ->
  exists w',
    update_true_shuffle id num_songs w = (Raise ValueError, w')
    /\ find_playlist id (playlists w')
       = Some {| pl_info := assign "public" (VBool false) (pl_info p);
                 pl_members := pl_members (cleared p) |}
    /\ disk w' = Some (json_dump (cache_data (now w) (liked w)))
    /\ calls w'
       = (calls w
          ++ (if differs_from_bool
                   (match lookup "public" (pl_info p) with Some v => v | None => VNone end)
                   false
              then [GetPlaylist (VStr id);
                    PlaylistChangeDetails (VStr id) (Some false) None;
                    GetPlaylist (VStr id)]
              else [GetPlaylist (VStr id)])
          ++ playlist_items_pass (VStr id) (pl_members p)
          ++ map (PlaylistRemoveAllOccurrencesOfItems (VStr id))
                 (pages 100 (usable_uris (pl_members p)))
          ++ saved_tracks_pass (liked w))%list.
Proof.
  intros Hw Hdisk Hp Hrecord Hall Hk.
  rewrite update_true_shuffle_unfold.
  set (w0 := set_stdout (stdout w ++ [banner; [Lit "Updating True Shuffle playlist"]; banner]) w).
  match goal with
  | |- exists w', bind _ (fun playlist => bind _ (fun playlist_id =>
                    bind _ (fun _ => bind _ (fun _ => bind _ (fun _ => bind _ (fun _ =>
                    bind _ (fun _ => bind _ (fun liked_tracks =>
                      @?k playlist playlist_id liked_tracks)))))))) _ = _ /\ _ =>
      destruct (update_true_shuffle_prefix id p w0 unit k Hw Hdisk Hp Hrecord Hall)
        as (w1 & Hprefix & Hserving1 & Hdisk1 & Hliked1 & Htape1 & Hcalls1)
  end.
  rewrite Hprefix. cbv beta.
  change (liked w0) with (liked w) in *. change (now w0) with (now w) in *.
  change (tape w0) with (tape w) in *. change (calls w0) with (calls w) in *.
  change (playlists w0) with (playlists w) in *.
  unfold bind at 1. unfold lift at 1. cbn [py_len].
  unfold bind at 1. unfold print at 1.
  match goal with
  | |- exists w', bind (select_random_songs _ _) _ ?w2 = _ /\ _ =>
      destruct (select_random_songs_negative (liked w) num_songs w2 Hk) as (out & Hselect)
  end.
  unfold bind at 1. rewrite Hselect.
  eexists. split; [reflexivity|].
  cbn [playlists disk calls set_stdout]. split; [apply Hserving1|].
  split; [exact Hdisk1|exact Hcalls1].
Qed.

End WholeUpdate.

(** ** A new playlist *)

Lemma find_playlist_new (id : string) (p : playlist) (ps : list (string * playlist)) :
  find_playlist id ps = None ->
  find_playlist id (ps ++ [(id, p)]) = Some p.
Proof.
  induction ps as [|[id' q] rest IH]; cbn.
  - intros _. rewrite String.eqb_refl. reflexivity.
  - destruct (String.eqb id id'); [discriminate|exact IH].
Qed.

Section NewPlaylist.

Local Open Scope string_scope.

(** X11. [create_playlist] with every request going through and a new ID
    that no playlist has yet: the user is asked for, the playlist is
    created with the given name, visibility and description, and the URIs
    are appended by hundreds, in order; the new playlist holds exactly
    these URIs.  Without URIs ([None] or an empty list) no append request
    is sent. *)
Theorem create_playlist_holds_the_uris (name description : string) (public : bool)
    (track_uris : option (list value)) (w : world) :
  faults w = [] ->
  find_playlist (hd "new" (new_ids w)) (playlists w) = None ->
  let id := hd "new" (new_ids w) in
  let uris := match track_uris with Some l => l | None => [] end in
  let info := new_playlist_info id name public description in
  exists w',
    create_playlist name description public track_uris w = (Ok (VDict info), w')
    /\ calls w'
       = (calls w
          ++ [CurrentUser; UserPlaylistCreate (VStr (user_id w)) name public description]
          ++ map (PlaylistAddItems (VStr id)) (pages 100 uris))%list
    /\ find_playlist id (playlists w')
       = Some {| pl_info := info; pl_members := map (new_member (now w)) uris |}.
Proof.
  intros Hw Hfresh id uris info.
  unfold create_playlist, get_spotify_client.
  unfold bind at 1. unfold ret at 1.
  unfold bind at 1. unfold current_user. rewrite send_reliable by exact Hw.
  cbn [user_id set_calls].
  unfold bind at 1. unfold lift at 1. cbn [subscript lookup String.eqb Ascii.eqb Bool.eqb].
  unfold bind at 1. unfold user_playlist_create. rewrite send_reliable by exact Hw.
  cbn [new_ids playlists set_calls]. fold id. fold info.
  unfold bind at 1. unfold print at 1.
  unfold bind at 1. unfold print at 1.
  unfold bind at 1. unfold lift at 1.
  assert (Hid : subscript (VDict info) "id" = Ok (VStr id)) by reflexivity.
  rewrite Hid.
  unfold bind at 1. unfold print at 1.
  unfold bind at 1. unfold lift at 1.
  assert (Hurl : (urls <~ subscript (VDict info) "external_urls" ;; subscript urls "spotify")
                 = Ok (VStr (playlist_url id))) by reflexivity.
  rewrite Hurl.
  unfold bind at 1. unfold print at 1.
  match goal with
  | |- exists w', _ ?w1 = _ /\ _ => set (w2 := w1)
  end.
  assert (Hserving : serving id (now w) {| pl_info := info; pl_members := [] |} w2).
  { unfold w2. split; [exact Hw|]. split; [reflexivity|].
    cbn. apply find_playlist_new. exact Hfresh. }
  assert (Hcalls2 : calls w2
            = (calls w ++ [CurrentUser;
                           UserPlaylistCreate (VStr (user_id w)) name public description])%list).
  { unfold w2. cbn. rewrite <- app_assoc. reflexivity. }
  assert (Hnone : exists w',
            ret (VDict info) w2 = (Ok (VDict info), w')
            /\ calls w'
               = (calls w
                  ++ [CurrentUser;
                      UserPlaylistCreate (VStr (user_id w)) name public description]
                  ++ map (PlaylistAddItems (VStr id)) (pages 100 []))%list
            /\ find_playlist id (playlists w')
               = Some {| pl_info := info; pl_members := map (new_member (now w)) [] |}).
  { exists w2. split; [reflexivity|]. split; [|apply Hserving].
    rewrite Hcalls2. reflexivity. }
  destruct track_uris as [[|u us]|]; [exact Hnone| |exact Hnone].
  cbv zeta in uris. subst uris.
  destruct (in_batches_effect id (now w)
              (fun batch =>
                 id0 <- lift (Ok (VStr id)) ;;
                 playlist_add_items id0 batch)
              (PlaylistAddItems (VStr id))
              (fun _ _ => ret tt)
              (with_added (now w))
              (fun batch q w0 => add_batch_effect id (now w) batch q w0)
              (fun _ _ w0 => nothing_printed w0)
              (u :: us) _ w2 Hserving)
    as (w3 & Hrun & Hcalls3 & (_ & _ & Hfind3) & _).
  unfold bind at 1. rewrite Hrun.
  unfold bind at 1. unfold print at 1. unfold ret.
  eexists. split; [reflexivity|]. cbn [calls playlists set_stdout]. split.
  - rewrite Hcalls3, Hcalls2, <- app_assoc. reflexivity.
  - rewrite Hfind3, with_added_fold, pages_concat by lia. reflexivity.
Qed.

End NewPlaylist.
Section FoundPlaylistTheorems.

Context {lib : PyLib}.

Local Open Scope string_scope.

(** X5. A destination that exists with the visibility asked for is
    returned as it is after a single lookup: no playlist is created and
    none is changed; the name and the description passed are not used. *)
Theorem found_playlist_returned_as_is (id name description : string) (public : bool)
    (p : playlist) (urls : list (string * value)) (url : value) (w : world) :
  faults w = [] ->
  find_playlist id (playlists w) = Some p ->
  lookup "public" (pl_info p) = Some (VBool public) ->
  lookup "external_urls" (pl_info p) = Some (VDict urls) ->
  lookup "spotify" urls = Some url ->
  exists w',
    get_or_create_playlist (VStr id) name description public w
    = (Ok (VDict (pl_info p)), w')
    /\ calls w' = (calls w ++ [GetPlaylist (VStr id)])%list
    /\ playlists w' = playlists w
    /\ new_ids w' = new_ids w.
Proof.
  intros Hw Hp Hpublic Hurls Hurl.
  destruct (get_or_create_playlist_found id name description public p public urls url w
              Hw Hp Hpublic Hurls Hurl)
    as (w' & Hrun & Hcalls & Hpls & _ & Haside).
  rewrite Bool.eqb_reflx in *.
  exists w'. split; [exact Hrun|]. split; [exact Hcalls|]. split; [exact Hpls|].
  apply Haside.
Qed.

(** X6. A destination that exists with the other visibility is brought
    to the one asked for: lookup, change of the [public] detail alone,
    second lookup; the record returned is the one of the second lookup,
    with the new visibility and every other field as before, and the
    members are untouched. *)
Theorem found_playlist_visibility_changed (id name description : string)
    (public : bool) (p : playlist) (urls : list (string * value)) (url : value)
    (w : world) :
  faults w = [] ->
  find_playlist id (playlists w) = Some p ->
  lookup "public" (pl_info p) = Some (VBool (negb public)) ->
  lookup "external_urls" (pl_info p) = Some (VDict urls) ->
  lookup "spotify" urls = Some url ->
  exists info w',
    get_or_create_playlist (VStr id) name description public w = (Ok (VDict info), w')
    /\ lookup "public" info = Some (VBool public)
    /\ (forall key, String.eqb key "public" = false ->
                    lookup key info = lookup key (pl_info p))
    /\ find_playlist id (playlists w')
       = Some {| pl_info := info; pl_members := pl_members p |}
    /\ calls w'
       = (calls w ++ [GetPlaylist (VStr id);
                      PlaylistChangeDetails (VStr id) (Some public) None;
                      GetPlaylist (VStr id)])%list
    /\ new_ids w' = new_ids w.
Proof.
  intros Hw Hp Hpublic Hurls Hurl.
  destruct (get_or_create_playlist_found id name description public p (negb public)
              urls url w Hw Hp Hpublic Hurls Hurl)
    as (w' & Hrun & Hcalls & Hpls & _ & Haside).
  assert (Hdiff : Bool.eqb (negb public) public = false) by (destruct public; reflexivity).
  rewrite Hdiff in *.
  exists (assign "public" (VBool public) (pl_info p)), w'.
  split; [exact Hrun|].
  split; [apply lookup_assign_same|].
  split; [intros key Hkey; apply lookup_assign_other; exact Hkey|].
  split; [rewrite Hpls; exact (find_playlist_update id (change_details (Some public) None) _ p Hp)|].
  split; [exact Hcalls|apply Haside].
Qed.

(** X9. When [get_track_uris] returns, it returns one URI per item, in
    order, each the URI of that item's track: nothing is filtered. *)
Theorem get_track_uris_one_per_item (tracks uris : list value) :
  get_track_uris tracks = Ok uris ->
  Forall2 (fun item u => member_uri item = Some u) tracks uris.
Proof. apply get_track_uris_member_uri. Qed.

(** X10. Unlike the comprehension of [clear_playlist], [get_track_uris]
    does not pass over an item whose track is null: it raises [TypeError]
    at the first one, and no list is returned. *)
Theorem get_track_uris_null_track (before rest uris : list value) (item : value) :
  get_track_uris before = Ok uris ->
  subscript item "track" = Ok VNone ->
  get_track_uris (before ++ item :: rest) = Raise TypeError.
Proof.
  revert uris. induction before as [|x before IH]; intros uris Hbefore Hnull.
  - cbn [app]. rewrite get_track_uris_cons. unfold bindr. rewrite Hnull. reflexivity.
  - cbn [app]. rewrite get_track_uris_cons in Hbefore |- *. unfold bindr in Hbefore |- *.
    destruct (subscript x "track") as [t|e]; [|discriminate Hbefore].
    destruct (subscript t "uri") as [u|e]; [|discriminate Hbefore].
    destruct (get_track_uris before) as [us|e] eqn:Hus; [|discriminate Hbefore].
    rewrite (IH us eq_refl Hnull). reflexivity.
Qed.

End FoundPlaylistTheorems.

(** ** Two runs in a row *)

Lemma filter_none (A : Type) (f : A -> bool) (l : list A) :
  forallb (fun x => negb (f x)) l = true -> filter f l = [].
Proof.
  induction l as [|x l IH]; [reflexivity|]. cbn.
  intros H. apply andb_prop in H. destruct H as [Hx Hl].
  destruct (f x); [discriminate Hx|exact (IH Hl)].
Qed.

Section TwoRuns.

Context {lib : PyLib}.

Local Open Scope string_scope.

(** X4. The snapshot a first run writes is the one the next run accepts:
    with no cache file at first, a JSON library that reads back the
    snapshot it wrote, a clock reading that parses and no item added
    after it, the first run fetches and saves, and the second run returns
    the same list from the cache file, which it leaves as it is.  The
    second run still lists the whole collection once, for its change
    check. *)
Theorem second_run_served_from_cache (t0 : Z) (w : world) :
  faults w = [] ->
  disk w = None ->
  json_load (json_dump (cache_data (now w) (liked w)))
  = Some (cache_data (now w) (liked w)) ->
  offset_shows (now w) = true ->
  normalize (now w) = Some t0 ->
  forallb item_record (liked w) = true ->
  forallb (fun item => negb (is_new t0 item)) (liked w) = true ->
  exists w1 w2,
    get_liked_songs true true w = (Ok (VList (liked w)), w1)
    /\ get_liked_songs true true w1 = (Ok (VList (liked w)), w2)
    /\ disk w1 = Some (json_dump (cache_data (now w) (liked w)))
    /\ disk w2 = disk w1
    /\ calls w2
       = (calls w ++ saved_tracks_pass (liked w) ++ saved_tracks_pass (liked w))%list.
Proof.
  intros Hw Hdisk Hcodec Hshows Hnorm Hrecords Hold.
  destruct (fetch_all_liked_songs_reliable true w Hw)
    as (w1 & Hfetch & Hcalls1 & Hdisk1 & Hliked1 & Hfaults1).
  pose proof (get_liked_songs_respects_only_listed true true w _ w1
                (eq_trans (get_liked_songs_no_cache_file true w Hdisk) Hfetch))
    as (Hnow1 & _).
  assert (Hload : fst (load_liked_songs_from_disk w1)
                  = Ok (VList (liked w), VStr (now w))).
  { unfold load_liked_songs_from_disk. rewrite Hdisk1.
    unfold try_except, bind, lift. rewrite Hcodec. reflexivity. }
  destruct (get_liked_songs_with_snapshot true w1 (VList (liked w)) (VStr (now w))
              (Z.of_nat (List.length (liked w))) Hfaults1 Hload
              ltac:(discriminate) eq_refl)
    as (r & w2 & Hrun2 & Hcheck).
  cbv zeta in Hcheck.
  assert (Hnone : change_check (VStr (now w)) (liked w1) = Ok (Some [])).
  { unfold change_check.
    pose proof (parse_since_normalize (now w) Hshows) as Hparse.
    rewrite Hnorm in Hparse. destruct Hparse as (dt & Hdt & Hinstant & Haware).
    rewrite Hdt, Hliked1.
    rewrite (filter_new_tracks_records dt (liked w) Hrecords Haware []).
    cbn [app bindr]. rewrite Hinstant, (filter_none _ _ _ Hold). reflexivity. }
  rewrite Hnone in Hcheck. destruct Hcheck as (Hr & Hcalls2 & Hdisk2).
  exists w1, w2.
  split; [rewrite get_liked_songs_no_cache_file by exact Hdisk; exact Hfetch|].
  split; [rewrite Hrun2, Hr; reflexivity|].
  split; [exact Hdisk1|]. split; [exact Hdisk2|].
  rewrite Hcalls2, Hcalls1, Hliked1, <- app_assoc. reflexivity.
Qed.

End TwoRuns.

(** ** A request that fails among the batches *)

Lemma firstn_add (A : Type) (a b : nat) (l : list A) :
  firstn (a + b) l = (firstn a l ++ firstn b (skipn a l))%list.
Proof.
  revert l. induction a as [|a IH]; intros l; [reflexivity|].
  destruct l as [|x l]; cbn [Nat.add firstn skipn app].
  - rewrite firstn_nil. reflexivity.
  - rewrite IH. reflexivity.
Qed.

(** The first [k] pages hold the first [k * limit] items. *)
Lemma pages_firstn (limit : nat) :
  1 <= limit ->
  forall k l, List.concat (firstn k (pages limit l)) = firstn (k * limit) l.
Proof.
  intros Hlimit. induction k as [|k IH]; intros l; [reflexivity|].
  destruct l as [|x l].
  - rewrite pages_nil. cbn. rewrite firstn_nil. reflexivity.
  - rewrite pages_cons by exact Hlimit. cbn [firstn List.concat Nat.mul].
    rewrite IH, firstn_add. reflexivity.
Qed.

Lemma add_batch_passes (id : string) (batch : list value) (p : playlist)
    (fs : list (option exn)) (w : world) :
  faults w = None :: fs ->
  find_playlist id (playlists w) = Some p ->
  List.length batch <= 100 ->
  exists w',
    playlist_add_items (VStr id) batch w = (Ok tt, w')
    /\ calls w' = calls w ++ [PlaylistAddItems (VStr id) batch]
    /\ faults w' = fs /\ now w' = now w
    /\ find_playlist id (playlists w') = Some (with_added (now w) batch p).
Proof.
  intros Hw Hp Hlen.
  unfold playlist_add_items, send. cbn [faults set_calls]. rewrite Hw.
  unfold batch_ceiling.
  destruct (Nat.ltb_spec 100 (List.length batch)) as [Hgt|_]; [lia|].
  unfold on_playlist. cbn [playlists set_calls set_faults]. rewrite Hp.
  unfold modify_playlist.
  eexists. split; [reflexivity|]. cbn.
  repeat split. exact (find_playlist_update id _ _ p Hp).
Qed.

Lemma add_batch_fails (id : string) (batch : list value) (e : exn)
    (fs : list (option exn)) (w : world) :
  faults w = Some e :: fs ->
  playlist_add_items (VStr id) batch w
  = (Raise e, set_faults fs (set_calls (calls w ++ [PlaylistAddItems (VStr id) batch]) w)).
Proof.
  intros Hw. unfold playlist_add_items, send. cbn [faults set_calls]. rewrite Hw.
  reflexivity.
Qed.

Section FailingBatch.

Context {lib : PyLib}.

Local Open Scope string_scope.

Variable id : string.
Variable e : exn.
Variable uris : list value.

Lemma for_each_add_fails (t : string) (starts : list nat) :
  forall k p w,
    faults w = (repeat None k ++ [Some e])%list ->
    now w = t ->
    find_playlist id (playlists w) = Some p ->
    k < List.length starts ->
    exists w',
      for_each starts
        (fun i =>
           playlist_add_items (VStr id) (slice uris i (i + 100)) ;;
           print [Lit "Added batch "; Num (Z.of_nat (i / 100 + 1)); Lit " (";
                  Num (Z.of_nat (List.length (slice uris i (i + 100))));
                  Lit " tracks)"]) w
      = (Raise e, w')
      /\ calls w'
         = (calls w ++ map (fun i => PlaylistAddItems (VStr id) (slice uris i (i + 100)))
                           (firstn (S k) starts))%list
      /\ find_playlist id (playlists w')
         = Some (fold_left (fun q batch => with_added t batch q)
                           (map (fun i => slice uris i (i + 100)) (firstn k starts)) p)
      /\ faults w' = [].
Proof.
  induction starts as [|i rest IH]; intros k p w Hw Ht Hp Hk; [cbn in Hk; lia|].
  cbn [for_each].
  destruct k as [|k]; cbn [repeat app] in Hw.
  - unfold bind at 1. unfold bind at 1. rewrite (add_batch_fails id _ e [] w Hw).
    eexists. split; [reflexivity|]. cbn. repeat split. exact Hp.
  - destruct (add_batch_passes id (slice uris i (i + 100)) p _ w Hw Hp (slice_length _ _ _ _))
      as (w1 & Hrun & Hcalls1 & Hfaults1 & Hnow1 & Hp1).
    unfold bind at 1. unfold bind at 1. rewrite Hrun. unfold print at 1.
    match goal with
    | |- exists w', for_each _ _ ?w2 = _ /\ _ =>
        destruct (IH k (with_added t (slice uris i (i + 100)) p) w2)
          as (w' & Hrest & Hcalls & Hfind & Hfaults)
    end.
    + exact Hfaults1.
    + cbn [now set_stdout]. congruence.
    + cbn [playlists set_stdout]. rewrite Hp1, Ht. reflexivity.
    + cbn [List.length] in Hk. lia.
    + exists w'. split; [exact Hrest|]. split; [|split; [exact Hfind|exact Hfaults]].
      rewrite Hcalls. cbn [calls set_stdout]. rewrite Hcalls1, <- app_assoc. reflexivity.
Qed.

(** X12. The batches are sent without a retry and without undoing
    anything: when the request of batch [k + 1] fails in transit,
    [add_tracks] raises that exception, the batches after it are never
    sent, and the first [100 * k] URIs stay appended. *)
Theorem add_tracks_stops_at_failure (k : nat) (p : playlist) (w : world) :
  faults w = (repeat None k ++ [Some e])%list ->
  find_playlist id (playlists w) = Some p ->
  k < List.length (pages 100 uris) ->
  exists w',
    add_tracks (VStr id) uris w = (Raise e, w')
    /\ calls w'
       = (calls w ++ map (PlaylistAddItems (VStr id)) (firstn (S k) (pages 100 uris)))%list
    /\ find_playlist id (playlists w')
       = Some (with_added (now w) (firstn (k * 100) uris) p).
Proof.
  intros Hw Hp Hk.
  unfold add_tracks.
  unfold bind at 1. unfold print at 1.
  unfold bind at 1. unfold print at 1.
  unfold in_batches.
  match goal with
  | |- exists w', for_each _ _ ?w2 = _ /\ _ =>
      destruct (for_each_add_fails (now w) (py_range 0 (List.length uris) 100) k p w2)
        as (w' & Hrun & Hcalls & Hfind & _)
  end.
  - exact Hw.
  - reflexivity.
  - exact Hp.
  - rewrite <- (batches_pages uris), length_map in Hk. exact Hk.
  - exists w'. split; [exact Hrun|]. split.
    + rewrite Hcalls. cbn [calls set_stdout].
      rewrite <- (batches_pages uris), firstn_map, map_map. reflexivity.
    + rewrite Hfind, <- firstn_map, batches_pages, with_added_fold, pages_firstn by lia.
      reflexivity.
Qed.

End FailingBatch.

(** ** The further properties on sample worlds *)

Local Open Scope string_scope.

Lemma failed_run_keeps_cache_file_witness :
  get_liked_songs true true Cases.interrupted
  = (Raise ConnectionError, snd (get_liked_songs true true Cases.interrupted))
  /\ disk (snd (get_liked_songs true true Cases.interrupted))
     = disk Cases.interrupted.
Proof.
  split; [vm_compute; reflexivity|].
  apply (failed_run_keeps_cache_file true true Cases.interrupted
           (snd (get_liked_songs true true Cases.interrupted)) ConnectionError).
  vm_compute. reflexivity.
Defined.

Lemma second_run_served_from_cache_witness :
  normalize (now (Sample.world_of None Sample.ten_tracks)) = Some 1709452800000000%Z
  /\ exists w1 w2,
       get_liked_songs true true (Sample.world_of None Sample.ten_tracks)
       = (Ok (VList Sample.ten_tracks), w1)
       /\ get_liked_songs true true w1 = (Ok (VList Sample.ten_tracks), w2)
       /\ disk w1
          = Some (json_dump (cache_data (now (Sample.world_of None Sample.ten_tracks))
                                        Sample.ten_tracks))
       /\ disk w2 = disk w1
       /\ calls w2
          = ([] ++ saved_tracks_pass Sample.ten_tracks
                ++ saved_tracks_pass Sample.ten_tracks)%list.
Proof.
  split; [vm_compute; reflexivity|].
  apply (second_run_served_from_cache 1709452800000000%Z
           (Sample.world_of None Sample.ten_tracks));
    vm_compute; reflexivity.
Defined.

Lemma found_playlist_returned_as_is_witness :
  find_playlist "dest" (playlists Sample.small_destination)
  = Some (Sample.destination
            [Sample.track 1 Sample.T0; Sample.removed_member; Sample.track 2 Sample.T0])
  /\ exists w',
       get_or_create_playlist (VStr "dest") "True Shuffle" "another description" false
         Sample.small_destination
       = (Ok (VDict (new_playlist_info "dest" "True Shuffle" false "desc")), w')
       /\ calls w' = ([] ++ [GetPlaylist (VStr "dest")])%list
       /\ playlists w' = playlists Sample.small_destination
       /\ new_ids w' = new_ids Sample.small_destination.
Proof.
  split; [vm_compute; reflexivity|].
  apply (found_playlist_returned_as_is "dest" "True Shuffle" "another description" false
           (Sample.destination
              [Sample.track 1 Sample.T0; Sample.removed_member; Sample.track 2 Sample.T0])
           [("spotify", VStr (playlist_url "dest"))]
           (VStr (playlist_url "dest"))
           Sample.small_destination);
    vm_compute; reflexivity.
Defined.

Lemma found_playlist_visibility_changed_witness :
  lookup "public"
    (pl_info (Sample.destination
                [Sample.track 1 Sample.T0; Sample.removed_member;
                 Sample.track 2 Sample.T0]))
  = Some (VBool false)
  /\ exists info w',
       get_or_create_playlist (VStr "dest") "True Shuffle" "another description" true
         Sample.small_destination
       = (Ok (VDict info), w')
       /\ lookup "public" info = Some (VBool true)
       /\ (forall key, String.eqb key "public" = false ->
             lookup key info
             = lookup key (new_playlist_info "dest" "True Shuffle" false "desc"))
       /\ find_playlist "dest" (playlists w')
          = Some {| pl_info := info;
                    pl_members := [Sample.track 1 Sample.T0; Sample.removed_member;
                                   Sample.track 2 Sample.T0] |}
       /\ calls w'
          = ([] ++ [GetPlaylist (VStr "dest");
                    PlaylistChangeDetails (VStr "dest") (Some true) None;
                    GetPlaylist (VStr "dest")])%list
       /\ new_ids w' = new_ids Sample.small_destination.
Proof.
  split; [vm_compute; reflexivity|].
  apply (found_playlist_visibility_changed "dest" "True Shuffle" "another description"
           true
           (Sample.destination
              [Sample.track 1 Sample.T0; Sample.removed_member; Sample.track 2 Sample.T0])
           [("spotify", VStr (playlist_url "dest"))]
           (VStr (playlist_url "dest"))
           Sample.small_destination);
    vm_compute; reflexivity.
Defined.

Lemma clear_playlist_leaves_unusable_witness :
  forallb member_record
    [Sample.track 1 Sample.T0; Sample.removed_member; Sample.track 2 Sample.T0] = true
  /\ exists w',
       clear_playlist (VStr "dest") Sample.small_destination = (Ok tt, w')
       /\ find_playlist "dest" (playlists w')
          = Some (cleared (Sample.destination
                             [Sample.track 1 Sample.T0; Sample.removed_member;
                              Sample.track 2 Sample.T0])).
Proof.
  split; [vm_compute; reflexivity|].
  apply (clear_playlist_leaves_unusable "dest"
           (Sample.destination
              [Sample.track 1 Sample.T0; Sample.removed_member; Sample.track 2 Sample.T0])
           Sample.small_destination);
    vm_compute; reflexivity.
Defined.

Lemma clear_playlist_malformed_member_witness :
  valid_track_uris [Sample.track 1 Sample.T0; VDict [("added_at", VStr Sample.T0)]]
  = Raise (KeyError "track")
  /\ exists w',
       clear_playlist (VStr "dest") Cases.malformed_destination
       = (Raise (KeyError "track"), w')
       /\ calls w'
          = ([] ++ playlist_items_pass (VStr "dest")
                     [Sample.track 1 Sample.T0; VDict [("added_at", VStr Sample.T0)]])%list
       /\ playlists w' = playlists Cases.malformed_destination.
Proof.
  split; [vm_compute; reflexivity|].
  apply (clear_playlist_malformed_member "dest"
           (Sample.destination
              [Sample.track 1 Sample.T0; VDict [("added_at", VStr Sample.T0)]])
           (KeyError "track")
           Cases.malformed_destination);
    vm_compute; reflexivity.
Defined.

Lemma get_track_uris_one_per_item_witness :
  get_track_uris Sample.ten_tracks = Ok Cases.ten_uris
  /\ Forall2 (fun item u => member_uri item = Some u) Sample.ten_tracks Cases.ten_uris.
Proof.
  split; [vm_compute; reflexivity|].
  apply (get_track_uris_one_per_item Sample.ten_tracks Cases.ten_uris).
  vm_compute. reflexivity.
Defined.

Lemma get_track_uris_null_track_witness :
  get_track_uris
    ([Sample.track 1 Sample.T0] ++ Sample.removed_member :: [Sample.track 2 Sample.T0])
  = Raise TypeError.
Proof.
  apply (get_track_uris_null_track [Sample.track 1 Sample.T0] [Sample.track 2 Sample.T0]
           [VStr "spotify:track:1"] Sample.removed_member);
    vm_compute; reflexivity.
Defined.

Lemma create_playlist_holds_the_uris_witness :
  exists w',
    create_playlist "Mix" "a mix" true (Some Cases.many_uris)
      (Sample.world_of None Sample.five_tracks)
    = (Ok (VDict (new_playlist_info "fresh" "Mix" true "a mix")), w')
    /\ calls w'
       = ([] ++ [CurrentUser; UserPlaylistCreate (VStr "user") "Mix" true "a mix"]
             ++ map (PlaylistAddItems (VStr "fresh")) (pages 100 Cases.many_uris))%list
    /\ find_playlist "fresh" (playlists w')
       = Some {| pl_info := new_playlist_info "fresh" "Mix" true "a mix";
                 pl_members :=
                   map (new_member (now (Sample.world_of None Sample.five_tracks)))
                       Cases.many_uris |}.
Proof.
  apply (create_playlist_holds_the_uris "Mix" "a mix" true (Some Cases.many_uris)
           (Sample.world_of None Sample.five_tracks));
    vm_compute; reflexivity.
Defined.

Lemma add_tracks_stops_at_failure_witness :
  List.length (pages 100 Cases.many_uris) = 2
  /\ exists w',
       add_tracks (VStr "dest") Cases.many_uris Cases.second_fails
       = (Raise ConnectionError, w')
       /\ calls w'
          = ([] ++ map (PlaylistAddItems (VStr "dest"))
                       (firstn 2 (pages 100 Cases.many_uris)))%list
       /\ find_playlist "dest" (playlists w')
          = Some (with_added (now Cases.second_fails) (firstn (1 * 100) Cases.many_uris)
                    (Sample.destination
                       [Sample.track 1 Sample.T0; Sample.removed_member;
                        Sample.track 2 Sample.T0])).
Proof.
  split; [vm_compute; reflexivity|].
  apply (add_tracks_stops_at_failure "dest" ConnectionError Cases.many_uris 1
           (Sample.destination
              [Sample.track 1 Sample.T0; Sample.removed_member; Sample.track 2 Sample.T0])
           Cases.second_fails).
  - vm_compute. reflexivity.
  - vm_compute. reflexivity.
  - vm_compute. lia.
Defined.

Lemma update_true_shuffle_replaces_witness :
  get_track_uris (liked Sample.daily) = Ok Cases.ten_uris
  /\ exists positions w',
       update_true_shuffle "dest" 3 Sample.daily = (Ok tt, w')
       /\ NoDup positions
       /\ Forall (fun i => i < List.length (liked Sample.daily)) positions
       /\ Z.of_nat (List.length positions)
          = Z.min 3 (Z.of_nat (List.length (liked Sample.daily)))
       /\ find_playlist "dest" (playlists w')
          = Some {| pl_info :=
                      assign "public" (VBool false)
                        (new_playlist_info "dest" "True Shuffle" false "desc");
                    pl_members :=
                      pl_members
                        (cleared (Sample.destination
                                    [Sample.track 1 Sample.T0; Sample.removed_member]))
                      ++ map (new_member (now Sample.daily))
                             (map (fun i => nth i Cases.ten_uris VNone) positions) |}
       /\ disk w' = Some (json_dump (cache_data (now Sample.daily) (liked Sample.daily)))
       /\ calls w'
          = (calls Sample.daily
             ++ (if differs_from_bool
                      (match lookup "public"
                               (new_playlist_info "dest" "True Shuffle" false "desc")
                       with Some v => v | None => VNone end)
                      false
                 then [GetPlaylist (VStr "dest");
                       PlaylistChangeDetails (VStr "dest") (Some false) None;
                       GetPlaylist (VStr "dest")]
                 else [GetPlaylist (VStr "dest")])
             ++ playlist_items_pass (VStr "dest")
                  [Sample.track 1 Sample.T0; Sample.removed_member]
             ++ map (PlaylistRemoveAllOccurrencesOfItems (VStr "dest"))
                    (pages 100 (usable_uris
                                  [Sample.track 1 Sample.T0; Sample.removed_member]))
             ++ saved_tracks_pass (liked Sample.daily)
             ++ map (PlaylistAddItems (VStr "dest"))
                    (pages 100 (map (fun i => nth i Cases.ten_uris VNone) positions)))%list.
Proof.
  split; [vm_compute; reflexivity|].
  apply (update_true_shuffle_replaces "dest" 3
           (Sample.destination [Sample.track 1 Sample.T0; Sample.removed_member])
           Cases.ten_uris Sample.daily).
  - vm_compute. reflexivity.
  - vm_compute. reflexivity.
  - vm_compute. reflexivity.
  - split; [vm_compute; reflexivity|].
    split; [exists false; vm_compute; reflexivity|].
    exists [("spotify", VStr (playlist_url "dest"))], (VStr (playlist_url "dest")).
    split; vm_compute; reflexivity.
  - vm_compute. reflexivity.
  - vm_compute. reflexivity.
  - lia.
Defined.

Lemma update_true_shuffle_negative_count_witness :
  exists w',
    update_true_shuffle "dest" (-1) Sample.daily = (Raise ValueError, w')
    /\ find_playlist "dest" (playlists w')
       = Some {| pl_info :=
                   assign "public" (VBool false)
                     (new_playlist_info "dest" "True Shuffle" false "desc");
                 pl_members :=
                   pl_members
                     (cleared (Sample.destination
                                 [Sample.track 1 Sample.T0; Sample.removed_member])) |}
    /\ disk w' = Some (json_dump (cache_data (now Sample.daily) (liked Sample.daily)))
    /\ calls w'
       = (calls Sample.daily
          ++ (if differs_from_bool
                   (match lookup "public"
                            (new_playlist_info "dest" "True Shuffle" false "desc")
                    with Some v => v | None => VNone end)
                   false
              then [GetPlaylist (VStr "dest");
                    PlaylistChangeDetails (VStr "dest") (Some false) None;
                    GetPlaylist (VStr "dest")]
              else [GetPlaylist (VStr "dest")])
          ++ playlist_items_pass (VStr "dest")
               [Sample.track 1 Sample.T0; Sample.removed_member]
          ++ map (PlaylistRemoveAllOccurrencesOfItems (VStr "dest"))
                 (pages 100 (usable_uris
                               [Sample.track 1 Sample.T0; Sample.removed_member]))
          ++ saved_tracks_pass (liked Sample.daily))%list.
Proof.
  apply (update_true_shuffle_negative_count "dest" (-1)
           (Sample.destination [Sample.track 1 Sample.T0; Sample.removed_member])
           Sample.daily).
  - vm_compute. reflexivity.
  - vm_compute. reflexivity.
  - vm_compute. reflexivity.
  - split; [vm_compute; reflexivity|].
    split; [exists false; vm_compute; reflexivity|].
    exists [("spotify", VStr (playlist_url "dest"))], (VStr (playlist_url "dest")).
    split; vm_compute; reflexivity.
  - vm_compute. reflexivity.
  - lia.
Defined.
